(** * The per-user reminder scheduler of ucl-timetable-bot

    A shallow embedding of [scheduler/scheduler.go].  The scheduler owns a Go
    map from chat identifiers to the timers of that user; timers are handles
    returned by [time.AfterFunc].  The model keeps

    - the timers ever created, as a list indexed by handle, each with its
      state and the closure it runs when it fires;
    - the map [timers] of the [Scheduler] struct, as a [gmap];
    - the messages handed to the Telegram API, in order;
    - a counter of the interactions with the outside world (clock, database,
      calendar feed), which indexes the answers of the environment, so that
      every property is proved for every behaviour of the collaborators.

    A nil-pointer dereference is a run-time panic: the monad [M] below is a
    state monad over the world with [None] for a panic. *)

From stdpp Require Import gmap strings list pretty.
From Stdlib Require Import ZArith Lia Strings.Ascii.

(** ** Go values: 64-bit integers, durations, instants *)

Definition int64_min : Z := (- 2 ^ 63)%Z.
Definition int64_max : Z := (2 ^ 63 - 1)%Z.

(** Two's-complement wrap-around of [int] and [time.Duration] arithmetic. *)
Definition wrap64 (z : Z) : Z := ((z + 2 ^ 63) `mod` 2 ^ 64 - 2 ^ 63)%Z.

(** Saturation, as [Time.Sub] does. *)
Definition sat64 (z : Z) : Z := Z.max int64_min (Z.min int64_max z).

Definition in_int64 (z : Z) : Prop := (int64_min ≤ z ≤ int64_max)%Z.

(** [time.Duration]: nanoseconds in an int64. *)
Abbreviation Duration := Z (only parsing).
Definition Minute : Duration := 60000000000%Z.

(** [time.Time]: an instant, in nanoseconds since the Unix epoch. *)
Abbreviation Time := Z (only parsing).

Definition Time_Add (t : Time) (d : Duration) : Time := (t + d)%Z.
Definition Time_After (t u : Time) : bool := bool_decide (u < t)%Z.
Definition Time_Sub (t u : Time) : Duration := sat64 (t - u).

(** A Go [(T, error)] result whose value is only looked at when the error is
    nil. *)
Inductive result (A : Type) : Type :=
  | Ok (a : A)
  | Err (msg : string).
Arguments Ok {A} a.
Arguments Err {A} msg.

(** ** Time zones

    [time.Time] methods that look at the calendar date do so in a location.
    A date is kept as its day number (days since 1970-01-01 in the proleptic
    Gregorian calendar), which stands for the triple year, month, day.
    [civil_Date d n] is [time.Date] at day [d] and [n] nanoseconds of wall
    clock after midnight.  The laws say that a wall-clock time within the
    day falls on that day, and that a later instant is not on an earlier
    day. *)

Definition nanosPerDay : Z := 86400000000000%Z.

Record Location := {
  civil_day : Time → Z;
  civil_nanos : Time → Z;
  civil_Date : Z → Z → Time;
  civil_nanos_range : ∀ t, (0 ≤ civil_nanos t < nanosPerDay)%Z;
  civil_day_Date : ∀ d n, (0 ≤ n < nanosPerDay)%Z → civil_day (civil_Date d n) = d;
  civil_day_mono : ∀ t u, (t ≤ u)%Z → (civil_day t ≤ civil_day u)%Z
}.

(** [t.Weekday()]: Sunday is 0, Saturday is 6; 1970-01-01 was a Thursday. *)
Definition weekday_of_day (d : Z) : Z := ((d + 4) `mod` 7)%Z.
Definition Time_Weekday (loc : Location) (t : Time) : Z :=
  weekday_of_day (civil_day loc t).

(** [t.AddDate(0, 0, days)]: same wall clock, [days] days later. *)
Definition Time_AddDate_days (loc : Location) (t : Time) (days : Z) : Time :=
  civil_Date loc (civil_day loc t + days) (civil_nanos loc t).

(** A location without offset or daylight saving. *)
Program Definition UTC : Location := {|
  civil_day t := (t `div` nanosPerDay)%Z;
  civil_nanos t := (t `mod` nanosPerDay)%Z;
  civil_Date d n := (d * nanosPerDay + n)%Z
|}.
Next Obligation. intros t. apply Z.mod_pos_bound. reflexivity. Qed.
Next Obligation.
  intros d n Hn. simpl.
  rewrite Z.add_comm, Z.div_add by discriminate.
  rewrite Z.div_small by exact Hn. lia.
Qed.
Next Obligation. intros t u Htu. simpl. apply Z.div_le_mono; [reflexivity | exact Htu]. Qed.

(** ** strconv.Atoi *)

Definition digit_value (c : ascii) : option Z :=
  let n := Z.of_N (Ascii.N_of_ascii c) in
  if bool_decide (48 ≤ n ≤ 57)%Z then Some (n - 48)%Z else None.

Fixpoint parse_digits (acc : Z) (s : string) : option Z :=
  match s with
  | EmptyString => Some acc
  | String c rest =>
      match digit_value c with
      | Some d => parse_digits (acc * 10 + d) rest
      | None => None
      end
  end.

(** Base 10, an optional sign, at least one digit, and a range error when
    the value does not fit in an int. *)
Definition Atoi (s : string) : option Z :=
  let '(neg, body) :=
    match s with
    | String "-"%char rest => (true, rest)
    | String "+"%char rest => (false, rest)
    | _ => (false, s)
    end in
  match body with
  | EmptyString => None
  | _ =>
      match parse_digits 0 body with
      | Some n =>
          let v := if neg then (- n)%Z else n in
          if bool_decide (int64_min ≤ v ≤ int64_max)%Z then Some v else None
      | None => None
      end
  end.

(** ** Data of the collaborators *)

(** [database.User], the fields the scheduler reads. *)
Record User := {
  ChatID : Z;
  DailyTime : string;
  WeeklyTime : string;
  WebCalURL : string;
  ReminderOffset : string
}.

(** [timetable.Lecture]. *)
Record Lecture := {
  Title : string;
  Location_ : string;
  Start : Time
}.

Global Instance Lecture_eq_dec : EqDecision Lecture.
Proof. solve_decision. Defined.

(** ** Timers *)

Inductive TimerState := Armed | Fired | Stopped.

Global Instance TimerState_eq_dec : EqDecision TimerState.
Proof. solve_decision. Defined.

(** The closures handed to [time.AfterFunc], one constructor per closure of
    the source, with the variables each captures. *)
Inductive Callback :=
  | DailyCb (chatID : Z)
  | WeeklyCb (chatID : Z)
  | MidnightCb (chatID : Z)
  | ReminderCb (chatID : Z) (lectureCopy : Lecture) (offsetMinutes : Z).

Global Instance Callback_eq_dec : EqDecision Callback.
Proof. solve_decision. Defined.

Record Timer := {
  t_state : TimerState;
  t_after : Duration;
  t_callback : Callback
}.

(** A [*time.Timer] is the index of the timer in the list of created
    timers. *)
Abbreviation handle := nat (only parsing).

(** [UserTimers]; a nil [*time.Timer] is [None], a nil slice is [[]]. *)
Record UserTimers := {
  dailyTimer : option handle;
  weeklyTimer : option handle;
  lectureTimers : list handle;
  lectureScheduler : option handle
}.

Definition UserTimers_zero : UserTimers :=
  {| dailyTimer := None; weeklyTimer := None;
     lectureTimers := []; lectureScheduler := None |}.

(** ** The world *)

Record World := {
  heap : list Timer;
  timers : gmap Z UserTimers;
  outbox : list (Z * string);
  tick : nat
}.

(** [NewScheduler]. *)
Definition NewScheduler : World :=
  {| heap := []; timers := ∅; outbox := []; tick := 0 |}.

Definition set_heap (h : list Timer) (w : World) : World :=
  {| heap := h; timers := timers w; outbox := outbox w; tick := tick w |}.
Definition set_timers (m : gmap Z UserTimers) (w : World) : World :=
  {| heap := heap w; timers := m; outbox := outbox w; tick := tick w |}.
Definition set_outbox (o : list (Z * string)) (w : World) : World :=
  {| heap := heap w; timers := timers w; outbox := o; tick := tick w |}.
Definition next_tick (w : World) : World :=
  {| heap := heap w; timers := timers w; outbox := outbox w; tick := S (tick w) |}.

(** ** The environment

    The answers of the clock, the user database and the calendar package.
    Those that can change between two calls take the number of the
    interaction. *)
Record Env := {
  Calendar : Type;
  ukLocation : Location;
  time_Now : nat → Time;
  db_GetUser : nat → Z → option User * option string;
  db_GetAllUsers : nat → list User;
  utils_GetNextTime : nat → string → Time;
  utils_GetNextWeekTime : nat → string → Time;
  timetable_FetchCalendar : nat → string → result Calendar;
  timetable_GetLectures : nat → Calendar → Time → result (list Lecture);
  timetable_GetLecturesInRange :
    nat → Calendar → Time → Time → result (gmap string (list Lecture));
  timetable_CleanTitle : string → string;
  timetable_FormatLectures : list Lecture → string;
  Time_Format : Time → string → string
}.

(** ** The monad: state, and [None] for a panic *)

Definition M (A : Type) : Type := World → option (A * World).

Global Instance M_ret : MRet M := λ A a w, Some (a, w).
Global Instance M_bind : MBind M := λ A B k m w,
  match m w with
  | Some (a, w') => k a w'
  | None => None
  end.

Definition panic {A} : M A := λ _, None.
Definition get : M World := λ w, Some (w, w).
Definition modify (f : World → World) : M unit := λ w, Some (tt, f w).

(** The world an action ends in, when it does not panic. *)
Definition exec {A} (m : M A) (w : World) : option World := snd <$> m w.

(** One interaction with the outside world: the environment answers for
    the current count, and the count moves on. *)
Definition ask {A} (f : nat → A) : M A := λ w, Some (f (tick w), next_tick w).

(** ** Primitives of package [time] *)

Definition time_Until (env : Env) (t : Time) : M Duration :=
  now ← ask (time_Now env); mret (Time_Sub t now).

(** [time.AfterFunc(d, f)]: a new armed timer; its handle is returned. *)
Definition AfterFunc (d : Duration) (f : Callback) : M handle := λ w,
  Some (length (heap w),
        set_heap (heap w ++ [{| t_state := Armed; t_after := d; t_callback := f |}]) w).

(** [t.Stop()]: an armed timer is stopped, a fired or stopped one stays. *)
Definition stop_timer (t : Timer) : Timer :=
  match t_state t with
  | Armed => {| t_state := Stopped; t_after := t_after t; t_callback := t_callback t |}
  | _ => t
  end.

Definition Stop (h : handle) : M unit :=
  modify (λ w, set_heap (alter stop_timer h (heap w)) w).

(** [if t != nil { t.Stop() }] *)
Definition Stop_if_set (o : option handle) : M unit :=
  match o with
  | Some h => Stop h
  | None => mret tt
  end.

(** [for _, x := range l { body(x) }] *)
Fixpoint for_each {A} (l : list A) (body : A → M unit) : M unit :=
  match l with
  | [] => mret tt
  | x :: rest => body x ;; for_each rest body
  end.

(** ** Accessors of the scheduler's map *)

(** A store through [s.timers[chatID]]: a missing key yields a nil
    [*UserTimers], and the store panics. *)
Definition update_UserTimers (chatID : Z) (f : UserTimers → UserTimers) : M unit :=
  λ w, match timers w !! chatID with
       | Some ut => Some (tt, set_timers (<[chatID := f ut]> (timers w)) w)
       | None => None
       end.

Definition with_dailyTimer (h : handle) (ut : UserTimers) : UserTimers :=
  {| dailyTimer := Some h; weeklyTimer := weeklyTimer ut;
     lectureTimers := lectureTimers ut; lectureScheduler := lectureScheduler ut |}.
Definition with_weeklyTimer (h : handle) (ut : UserTimers) : UserTimers :=
  {| dailyTimer := dailyTimer ut; weeklyTimer := Some h;
     lectureTimers := lectureTimers ut; lectureScheduler := lectureScheduler ut |}.
Definition with_lectureTimers (l : list handle) (ut : UserTimers) : UserTimers :=
  {| dailyTimer := dailyTimer ut; weeklyTimer := weeklyTimer ut;
     lectureTimers := l; lectureScheduler := lectureScheduler ut |}.
Definition with_lectureScheduler (h : handle) (ut : UserTimers) : UserTimers :=
  {| dailyTimer := dailyTimer ut; weeklyTimer := weeklyTimer ut;
     lectureTimers := lectureTimers ut; lectureScheduler := Some h |}.

(** ** sendMessage

    The message is handed to the API; a delivery error is only logged. *)
Definition sendMessage (chatID : Z) (text : string) : M unit :=
  modify (λ w, set_outbox (outbox w ++ [(chatID, text)]) w).

(** ** CancelUser *)

Definition CancelUser (chatID : Z) : M unit :=
  w ← get;
  match timers w !! chatID with
  | Some ut =>
      Stop_if_set (dailyTimer ut);;
      Stop_if_set (weeklyTimer ut);;
      Stop_if_set (lectureScheduler ut);;
      for_each (lectureTimers ut) Stop;;
      modify (λ w, set_timers (delete chatID (timers w)) w)
  | None => mret tt
  end.

(** ** StopAll

    [range] over a Go map visits the keys in an unspecified order; an
    iteration deletes only its own key, so every key present at the start
    is visited.  [StopAll_in_order] is the loop for one order of the keys,
    [StopAll] takes the order of the map's enumeration. *)
Definition StopAll_in_order (keys : list Z) : M unit := for_each keys CancelUser.

Definition StopAll : M unit :=
  w ← get; StopAll_in_order ((map_to_list (timers w)).*1).

(** ** scheduleLectureReminders *)

(** [lecture.Start.Add(-time.Duration(offsetMinutes) * time.Minute)] *)
Definition reminderTime_of (lecture : Lecture) (offsetMinutes : Z) : Time :=
  Time_Add (Start lecture) (wrap64 (wrap64 (- offsetMinutes) * Minute)).

(** The loop over the lectures; [acc] is the slice [timers]. *)
Fixpoint arm_reminders (env : Env) (chatID offsetMinutes : Z) (now : Time)
    (lectures : list Lecture) (acc : list handle) : M (list handle) :=
  match lectures with
  | [] => mret acc
  | lecture :: rest =>
      let reminderTime := reminderTime_of lecture offsetMinutes in
      if Time_After reminderTime now then
        duration ← time_Until env reminderTime;
        timer ← AfterFunc duration (ReminderCb chatID lecture offsetMinutes);
        arm_reminders env chatID offsetMinutes now rest (acc ++ [timer])
      else arm_reminders env chatID offsetMinutes now rest acc
  end.

(** Lines 91 to 96: the timers of the last replan are stopped and
    forgotten. *)
Definition cancel_lectureTimers (chatID : Z) : M unit :=
  w ← get;
  match timers w !! chatID with
  | Some ut =>
      for_each (lectureTimers ut) Stop;;
      update_UserTimers chatID (with_lectureTimers [])
  | None => mret tt
  end.

Definition scheduleLectureReminders (env : Env) (chatID : Z) : M unit :=
  cancel_lectureTimers chatID;;
  r ← ask (λ n, db_GetUser env n chatID);
  match r.1 with
  | None => mret tt
  | Some user =>
      if bool_decide (WebCalURL user = "") then mret tt else
      cal ← ask (λ n, timetable_FetchCalendar env n (WebCalURL user));
      match cal with
      | Err _ => mret tt
      | Ok cal =>
          day ← ask (time_Now env);
          lectures ← ask (λ n, timetable_GetLectures env n cal day);
          match lectures with
          | Err _ => mret tt
          | Ok lectures =>
              if bool_decide (length lectures = 0) then mret tt else
              let offsetMinutes := default 15%Z (Atoi (ReminderOffset user)) in
              now ← ask (time_Now env);
              timers ← arm_reminders env chatID offsetMinutes now lectures [];
              update_UserTimers chatID (with_lectureTimers timers)
          end
      end
  end.

(** ** scheduleLectureRemindersAtMidnight *)

Definition Second : Duration := 1000000000%Z.

Definition next_midnight (loc : Location) (now : Time) : Time :=
  Time_AddDate_days loc (civil_Date loc (civil_day loc now) Second) 1.

Definition scheduleLectureRemindersAtMidnight (env : Env) (chatID : Z) : M unit :=
  now ← ask (time_Now env);
  let midnight := next_midnight (ukLocation env) now in
  durationUntilMidnight ← time_Until env midnight;
  lectureScheduler ← AfterFunc durationUntilMidnight (MidnightCb chatID);
  update_UserTimers chatID (with_lectureScheduler lectureScheduler);;
  scheduleLectureReminders env chatID.

(** ** ScheduleUser

    The body after the user lookup is a sequence of five phases.  They are
    kept as a list, so that the states between two phases can be spoken
    about, and so that two invocations can be interleaved. *)

Definition install_UserTimers (chatID : Z) : M unit :=
  modify (λ w, set_timers (<[chatID := UserTimers_zero]> (timers w)) w).

Definition arm_dailyTimer (env : Env) (chatID : Z) (user : User) : M unit :=
  dailyTime ← ask (λ n, utils_GetNextTime env n (DailyTime user));
  dailyDuration ← time_Until env dailyTime;
  dailyTimer ← AfterFunc dailyDuration (DailyCb chatID);
  update_UserTimers chatID (with_dailyTimer dailyTimer).

Definition arm_weeklyTimer (env : Env) (chatID : Z) (user : User) : M unit :=
  weeklyTime ← ask (λ n, utils_GetNextWeekTime env n (WeeklyTime user));
  weeklyDuration ← time_Until env weeklyTime;
  weeklyTimer ← AfterFunc weeklyDuration (WeeklyCb chatID);
  update_UserTimers chatID (with_weeklyTimer weeklyTimer).

Definition ScheduleUser_phases (env : Env) (chatID : Z) (user : User) : list (M unit) :=
  [ CancelUser chatID;
    install_UserTimers chatID;
    arm_dailyTimer env chatID user;
    arm_weeklyTimer env chatID user;
    scheduleLectureRemindersAtMidnight env chatID ].

(** The lookup, and the phases that remain: none when
    [err != nil || user == nil]. *)
Definition ScheduleUser_lookup (env : Env) (chatID : Z) : M (list (M unit)) :=
  r ← ask (λ n, db_GetUser env n chatID);
  match r with
  | (Some user, None) => mret (ScheduleUser_phases env chatID user)
  | _ => mret []
  end.

Definition run_phases (phases : list (M unit)) : M unit := for_each phases id.

Definition ScheduleUser (env : Env) (chatID : Z) : M unit :=
  phases ← ScheduleUser_lookup env chatID; run_phases phases.

(** ** ScheduleAll *)

Definition ScheduleAll (env : Env) : M unit :=
  users ← ask (db_GetAllUsers env);
  for_each users (λ user, ScheduleUser env (ChatID user)).

(** ** The digest senders *)

Definition nl : string := String "010"%char EmptyString.

Definition set_calendar_prompt : string :=
  "Please set your calendar link using /set_calendar".

(** [user == nil || user.WebCalURL == ""] *)
Definition no_calendar (user : option User) : bool :=
  match user with
  | None => true
  | Some user => bool_decide (WebCalURL user = "")
  end.

Definition sendDailyTimetable (env : Env) (chatID : Z) : M unit :=
  r ← ask (λ n, db_GetUser env n chatID);
  if no_calendar r.1 then sendMessage chatID set_calendar_prompt else
  cal ← ask (λ n, timetable_FetchCalendar env n (from_option WebCalURL "" r.1));
  match cal with
  | Err err => sendMessage chatID ("Error fetching calendar: " +:+ err)
  | Ok cal =>
      day ← ask (time_Now env);
      lectures ← ask (λ n, timetable_GetLectures env n cal day);
      match lectures with
      | Err err => sendMessage chatID ("Error processing calendar: " +:+ err)
      | Ok lectures =>
          if bool_decide (length lectures = 0)
          then sendMessage chatID "No lectures today."
          else
            let dateStr := Time_Format env day "Mon, 02 Jan" in
            let message :=
              "*" +:+ dateStr +:+ ":*" +:+ nl +:+ nl
                +:+ timetable_FormatLectures env lectures in
            sendMessage chatID message
      end
  end.

(** Lines 180 to 186: the window handed to [GetLecturesInRange]. *)
Definition weekWindow (loc : Location) (now : Time) : Time * Time :=
  let weekday := Time_Weekday loc now in
  let weekday := if bool_decide (weekday = 0%Z) then 7%Z else weekday in
  let weekStart := Time_AddDate_days loc now (- (weekday - 1)) in
  let weekEnd := Time_AddDate_days loc weekStart 4 in
  (weekStart, weekEnd).

(** The loop [for day := weekStart; !day.After(weekEnd); day = day.AddDate(0, 0, 1)],
    by recursion on a bound on the number of iterations. *)
Fixpoint weekly_days (env : Env) (fuel : nat) (day weekEnd : Time)
    (lecturesMap : gmap string (list Lecture)) : string :=
  match fuel with
  | O => ""
  | S fuel =>
      if Time_After day weekEnd then "" else
      let dayKey := Time_Format env day "Monday" in
      match lecturesMap !! dayKey with
      | Some lectures =>
          nl +:+ "*" +:+ dayKey +:+ "*" +:+ nl +:+ timetable_FormatLectures env lectures
      | None => ""
      end +:+ weekly_days env fuel (Time_AddDate_days (ukLocation env) day 1)
                weekEnd lecturesMap
  end.

(** Every iteration moves [day] to the next date, so the dates from that of
    [day] to that of [weekEnd] bound the iterations. *)
Definition weekly_bound (loc : Location) (day weekEnd : Time) : nat :=
  Z.to_nat (civil_day loc weekEnd - civil_day loc day + 1).

Definition weekly_message (env : Env) (weekStart weekEnd : Time)
    (lecturesMap : gmap string (list Lecture)) : string :=
  let startDateStr := Time_Format env weekStart "Mon, 02 Jan" in
  let endDateStr := Time_Format env weekEnd "Fri, 02 Jan" in
  let dateRangeStr := "*" +:+ startDateStr +:+ " - " +:+ endDateStr +:+ ":*" +:+ nl +:+ nl in
  dateRangeStr +:+
    weekly_days env (weekly_bound (ukLocation env) weekStart weekEnd)
      weekStart weekEnd lecturesMap.

Definition sendWeeklyTimetable (env : Env) (chatID : Z) : M unit :=
  r ← ask (λ n, db_GetUser env n chatID);
  if no_calendar r.1 then sendMessage chatID set_calendar_prompt else
  cal ← ask (λ n, timetable_FetchCalendar env n (from_option WebCalURL "" r.1));
  match cal with
  | Err err => sendMessage chatID ("Error fetching calendar: " +:+ err)
  | Ok cal =>
      now ← ask (time_Now env);
      let '(weekStart, weekEnd) := weekWindow (ukLocation env) now in
      lecturesMap ← ask (λ n, timetable_GetLecturesInRange env n cal weekStart weekEnd);
      match lecturesMap with
      | Err err => sendMessage chatID ("Error processing calendar: " +:+ err)
      | Ok lecturesMap =>
          if bool_decide (size lecturesMap = 0)
          then sendMessage chatID "No lectures this week."
          else sendMessage chatID (weekly_message env weekStart weekEnd lecturesMap)
      end
  end.

(** ** Timers firing

    An armed timer fires: it is no longer armed, and its closure runs. *)

Definition reminderMessage (env : Env) (lectureCopy : Lecture) (offsetMinutes : Z) : string :=
  "⏰ *" +:+ timetable_CleanTitle env (Title lectureCopy) +:+ "* in "
    +:+ pretty offsetMinutes +:+ " minutes at " +:+ Location_ lectureCopy.

Definition run_callback (env : Env) (f : Callback) : M unit :=
  match f with
  | DailyCb chatID =>
      sendDailyTimetable env chatID;; ScheduleUser env chatID
  | WeeklyCb chatID =>
      sendWeeklyTimetable env chatID;; ScheduleUser env chatID
  | MidnightCb chatID =>
      scheduleLectureReminders env chatID;;
      scheduleLectureRemindersAtMidnight env chatID
  | ReminderCb chatID lectureCopy offsetMinutes =>
      sendMessage chatID (reminderMessage env lectureCopy offsetMinutes)
  end.

Definition is_armed (t : Timer) : bool := bool_decide (t_state t = Armed).

Definition mark_fired (t : Timer) : Timer :=
  {| t_state := Fired; t_after := t_after t; t_callback := t_callback t |}.

(** [fire env h w] is [None] when the timer [h] cannot fire (it is not
    armed); otherwise the outcome of its closure. *)
Definition fire (env : Env) (h : handle) (w : World) : option (option World) :=
  match heap w !! h with
  | Some t =>
      if is_armed t
      then Some (exec (run_callback env (t_callback t))
                   (set_heap (alter mark_fired h (heap w)) w))
      else None
  | None => None
  end.

(** ** The operations the bot performs on a scheduler, and the states they
    reach *)

Inductive Op :=
  | OpScheduleAll
  | OpScheduleUser (chatID : Z)
  | OpCancelUser (chatID : Z)
  | OpStopAll
  | OpFire (h : handle).

Definition run_op (env : Env) (o : Op) (w : World) : option (option World) :=
  match o with
  | OpScheduleAll => Some (exec (ScheduleAll env) w)
  | OpScheduleUser chatID => Some (exec (ScheduleUser env chatID) w)
  | OpCancelUser chatID => Some (exec (CancelUser chatID) w)
  | OpStopAll => Some (exec StopAll w)
  | OpFire h => fire env h w
  end.

Inductive reachable (env : Env) : World → Prop :=
  | reachable_new : reachable env NewScheduler
  | reachable_op o w w' :
      reachable env w → run_op env o w = Some (Some w') → reachable env w'.

(** ** What the specification says of the weekly window

    The Monday the specification names for a current date [d]: the Monday
    of the same week from Monday to Friday, the next Monday on Saturday and
    Sunday. *)
Definition spec_weekStart_day (d : Z) : Z :=
  let wd := weekday_of_day d in
  if bool_decide (1 ≤ wd ≤ 5)%Z then (d - (wd - 1))%Z
  else if bool_decide (wd = 6%Z) then (d + 2)%Z
  else (d + 1)%Z.

Definition window_as_specified (loc : Location) (now : Time) : Prop :=
  civil_day loc (weekWindow loc now).1 = spec_weekStart_day (civil_day loc now) ∧
  civil_day loc (weekWindow loc now).2 = (spec_weekStart_day (civil_day loc now) + 4)%Z.

(** Saturday 1 June 2024, 12:00. *)
Definition saturday_noon : Time := 1717243200000000000%Z.

(** ** Timers of a user, and timers nobody holds *)

(** Every handle a timer set holds. *)
Definition handles_of (ut : UserTimers) : list handle :=
  option_list (dailyTimer ut) ++ option_list (weeklyTimer ut)
    ++ option_list (lectureScheduler ut) ++ lectureTimers ut.

(** Stopping a list of timers, on the list of created timers. *)
Definition stop_list (hs : list handle) (hp : list Timer) : list Timer :=
  foldl (λ hp h, alter stop_timer h hp) hp hs.

(** The timer set that holds the timer [h] running the closure [f], if it
    is held at all. *)
Definition referenced (w : World) (h : handle) (f : Callback) : Prop :=
  match f with
  | DailyCb chatID =>
      ∃ ut, timers w !! chatID = Some ut ∧ dailyTimer ut = Some h
  | WeeklyCb chatID =>
      ∃ ut, timers w !! chatID = Some ut ∧ weeklyTimer ut = Some h
  | MidnightCb chatID =>
      ∃ ut, timers w !! chatID = Some ut ∧ lectureScheduler ut = Some h
  | ReminderCb chatID _ _ =>
      ∃ ut, timers w !! chatID = Some ut ∧ h ∈ lectureTimers ut
  end.

(** No armed timer is leaked: each one is held by the timer set of its
    user, in the field of its kind. *)
Definition no_leak (w : World) : Prop :=
  ∀ h t, heap w !! h = Some t → t_state t = Armed → referenced w h (t_callback t).

Definition is_daily_of (chatID : Z) (f : Callback) : bool :=
  match f with DailyCb i => bool_decide (i = chatID) | _ => false end.
Definition is_weekly_of (chatID : Z) (f : Callback) : bool :=
  match f with WeeklyCb i => bool_decide (i = chatID) | _ => false end.
Definition is_midnight_of (chatID : Z) (f : Callback) : bool :=
  match f with MidnightCb i => bool_decide (i = chatID) | _ => false end.
Definition is_reminder_of (chatID : Z) (f : Callback) : bool :=
  match f with ReminderCb i _ _ => bool_decide (i = chatID) | _ => false end.

(** The number of armed timers whose closure satisfies [p], among all the
    timers ever created. *)
Definition count_armed (p : Callback → bool) (hp : list Timer) : nat :=
  length (List.filter (λ t, is_armed t && p (t_callback t)) hp).

Definition armed_count (p : Callback → bool) (w : World) : nat :=
  count_armed p (heap w).

(** ** Two invocations of ScheduleUser running concurrently

    A goroutine running [ScheduleUser] has either not looked the user up
    yet, or has some phases left.  [Scheduler] has no lock: between two
    phases of one goroutine, another may run.  (Goroutines interleave more
    finely than phase by phase; every schedule here is one of theirs.) *)
Inductive Goroutine :=
  | NotStarted (chatID : Z)
  | Running (rest : list (M unit)).

Definition goroutine_step (env : Env) (g : Goroutine) : M Goroutine :=
  match g with
  | NotStarted chatID =>
      phases ← ScheduleUser_lookup env chatID; mret (Running phases)
  | Running [] => mret (Running [])
  | Running (phase :: rest) => phase;; mret (Running rest)
  end.

(** A schedule names, step after step, which of two goroutines moves. *)
Fixpoint interleave (env : Env) (schedule : list bool) (g1 g2 : Goroutine)
    : M (Goroutine * Goroutine) :=
  match schedule with
  | [] => mret (g1, g2)
  | true :: schedule =>
      g1' ← goroutine_step env g1; interleave env schedule g1' g2
  | false :: schedule =>
      g2' ← goroutine_step env g2; interleave env schedule g1 g2'
  end.

Definition finished (g : Goroutine) : Prop := g = Running [].

(** The world [CancelUser] ends in. *)
Definition cancelled (chatID : Z) (w : World) : World :=
  match timers w !! chatID with
  | Some ut =>
      set_timers (delete chatID (timers w))
        (set_heap (stop_list (handles_of ut) (heap w)) w)
  | None => w
  end.

(** The world after lines 91 to 96 of [scheduleLectureReminders]. *)
Definition lectures_cleared (chatID : Z) (w : World) : World :=
  match timers w !! chatID with
  | Some ut =>
      set_timers (<[chatID := with_lectureTimers [] ut]> (timers w))
        (set_heap (stop_list (lectureTimers ut) (heap w)) w)
  | None => w
  end.

(** The timers the loop of [scheduleLectureReminders] creates, when the
    first clock reading of the loop is interaction number [n]. *)
Fixpoint reminder_timers (env : Env) (chatID offsetMinutes : Z) (now : Time)
    (n : nat) (lectures : list Lecture) : list Timer :=
  match lectures with
  | [] => []
  | lecture :: rest =>
      if Time_After (reminderTime_of lecture offsetMinutes) now
      then {| t_state := Armed;
              t_after := Time_Sub (reminderTime_of lecture offsetMinutes) (time_Now env n);
              t_callback := ReminderCb chatID lecture offsetMinutes |}
             :: reminder_timers env chatID offsetMinutes now (S n) rest
      else reminder_timers env chatID offsetMinutes now n rest
  end.

(** The world with one more message handed to the API after one
    interaction. *)
Definition prompted (chatID : Z) (w : World) : World :=
  set_outbox (outbox w ++ [(chatID, set_calendar_prompt)]) (next_tick w).

(** ** A sample environment

    Monday 3 June 2024; the clock stands at 10:30.  Chat 7 has a calendar
    with lectures at 09:00, 11:00 and 14:00 and a lead time of 15 minutes,
    chat 8 has no calendar link, the lookup of chat 9 fails, and no other
    chat is registered. *)
Definition monday_midnight : Time := 1717372800000000000%Z.
Definition Hour : Duration := 3600000000000%Z.

Definition at_hour (h : Z) : Time := (monday_midnight + h * Hour)%Z.

Definition lecture_at (title : string) (h : Z) : Lecture :=
  {| Title := title; Location_ := "Roberts G06"; Start := at_hour h |}.

Definition sample_lectures : list Lecture :=
  [lecture_at "Logic" 9; lecture_at "Algebra" 11; lecture_at "Compilers" 14].

Definition alice : User :=
  {| ChatID := 7; DailyTime := "07:00"; WeeklyTime := "SUN 18:00";
     WebCalURL := "webcal://timetable.example/alice"; ReminderOffset := "15" |}.

Definition bob : User :=
  {| ChatID := 8; DailyTime := "07:00"; WeeklyTime := "SUN 18:00";
     WebCalURL := ""; ReminderOffset := "15" |}.

Definition sample_env_of (cal : result unit) (lectures : result (list Lecture)) : Env :=
  {| Calendar := unit;
     ukLocation := UTC;
     time_Now := λ _, (monday_midnight + 10 * Hour + 30 * Minute)%Z;
     db_GetUser := λ _ chatID,
       if bool_decide (chatID = 7%Z) then (Some alice, None)
       else if bool_decide (chatID = 8%Z) then (Some bob, None)
       else if bool_decide (chatID = 9%Z) then (None, Some "database is locked")
       else (None, None);
     db_GetAllUsers := λ _, [alice; bob];
     utils_GetNextTime := λ _ _, at_hour 31;
     utils_GetNextWeekTime := λ _ _, at_hour 162;
     timetable_FetchCalendar := λ _ _, cal;
     timetable_GetLectures := λ _ _ _, lectures;
     timetable_GetLecturesInRange := λ _ _ _ _, Ok ∅;
     timetable_CleanTitle := λ title, title;
     timetable_FormatLectures := λ _, "";
     Time_Format := λ _ _, "" |}.

Definition sample_env : Env := sample_env_of (Ok tt) (Ok sample_lectures).

(** The same, but the calendar feed cannot be fetched. *)
Definition offline_env : Env := sample_env_of (Err "connection refused") (Ok []).

Definition armed_timer (d : Duration) (f : Callback) : Timer :=
  {| t_state := Armed; t_after := d; t_callback := f |}.

(** The scheduler after [ScheduleUser 7] on a new scheduler in the sample
    environment: a daily, a weekly and a midnight timer, and reminders for
    the lectures at 11:00 and 14:00. *)
Definition sample_scheduled : World :=
  {| heap :=
       [ armed_timer 73800000000000 (DailyCb 7);
         armed_timer 545400000000000 (WeeklyCb 7);
         armed_timer 48601000000000 (MidnightCb 7);
         armed_timer 900000000000 (ReminderCb 7 (lecture_at "Algebra" 11) 15);
         armed_timer 11700000000000 (ReminderCb 7 (lecture_at "Compilers" 14) 15) ];
     timers :=
       {[ 7%Z := {| dailyTimer := Some 0; weeklyTimer := Some 1;
                    lectureTimers := [3; 4]; lectureScheduler := Some 2 |} ]};
     outbox := [];
     tick := 14 |}.

(** What a sender does to the world: one message to the chat, some
    interactions, and nothing else. *)
Definition only_sends (chatID : Z) (w : World) (r : option (unit * World)) : Prop :=
  ∃ w' text, r = Some (tt, w') ∧
    heap w' = heap w ∧ timers w' = timers w ∧
    outbox w' = outbox w ++ [(chatID, text)].

(** The answers of the environment that make a replan started at
    interaction [n] stop early: no user or no calendar link; or the calendar
    cannot be fetched; or its lectures cannot be read; or there are none. *)
Definition replan_stops (env : Env) (chatID : Z) (n : nat) : Prop :=
  no_calendar (db_GetUser env n chatID).1 = true ∨
  ∃ user, (db_GetUser env n chatID).1 = Some user ∧ WebCalURL user ≠ "" ∧
    ((∃ err, timetable_FetchCalendar env (S n) (WebCalURL user) = Err err) ∨
     ∃ cal, timetable_FetchCalendar env (S n) (WebCalURL user) = Ok cal ∧
       ((∃ err, timetable_GetLectures env (S (S (S n))) cal (time_Now env (S (S n))) = Err err) ∨
        timetable_GetLectures env (S (S (S n))) cal (time_Now env (S (S n))) = Ok [])).

(** An armed reminder of the chat. *)
Definition armed_reminder_of (chatID : Z) (t : Timer) : Prop :=
  t_state t = Armed ∧ is_reminder_of chatID (t_callback t) = true.

(** The chat whose closure it is. *)
Definition owner (f : Callback) : Z :=
  match f with
  | DailyCb chatID | WeeklyCb chatID | MidnightCb chatID | ReminderCb chatID _ _ => chatID
  end.

(** The timer set [ScheduleUser] installs when the list of timers had [n]
    elements and the replan creates [k] reminders. *)
Definition fresh_UserTimers (n k : nat) : UserTimers :=
  {| dailyTimer := Some n; weeklyTimer := Some (S n);
     lectureTimers := seq (S (S (S n))) k; lectureScheduler := Some (S (S n)) |}.

(** The world [w'] differs from [w] as after a [ScheduleUser] of a readable
    user: the old timers of the chat are stopped; a daily, a weekly and a
    midnight timer and some reminders are new and armed; the entry of the
    chat holds exactly these. *)
Definition scheduled_shape (chatID : Z) (w w' : World) : Prop :=
  ∃ d1 d2 d3 new,
    heap w' =
      heap (cancelled chatID w)
        ++ [armed_timer d1 (DailyCb chatID); armed_timer d2 (WeeklyCb chatID);
            armed_timer d3 (MidnightCb chatID)]
        ++ new ∧
    Forall (armed_reminder_of chatID) new ∧
    timers w' = <[chatID := fresh_UserTimers (length (heap w)) (length new)]> (timers w) ∧
    outbox w' = outbox w.

(** The world after [CancelUser] for each key of a list, in turn. *)
Definition cancel_all (keys : list Z) (w : World) : World :=
  foldl (λ w chatID, cancelled chatID w) w keys.

(** The handles held by the entries of a list of keys. *)
Definition handles_in (keys : list Z) (w : World) : list handle :=
  keys ≫= λ chatID, from_option handles_of [] (timers w !! chatID).

(** What the specification asks of two concurrent invocations for one
    identity, on the interleavings of their phases: at no instant are two
    daily timers of the identity armed, and when both have returned no
    armed timer is leaked. *)
Definition serialized (env : Env) (chatID : Z) : Prop :=
  ∀ schedule w g1 g2 w',
    no_leak w →
    interleave env schedule (NotStarted chatID) (NotStarted chatID) w
      = Some ((g1, g2), w') →
    armed_count (is_daily_of chatID) w' ≤ 1 ∧
    (finished g1 → finished g2 → no_leak w').

(** The first goroutine looks the user up and cancels; the second runs
    from start to end; the first goes on and installs its own entry over
    that of the second. *)
Definition racy_schedule : list bool :=
  [true; true; false; false; false; false; false; false; true; true; true; true].

(** First one goroutine from start to end, then the other. *)
Definition serial_schedule : list bool := replicate 6 true ++ replicate 6 false.

(** A run of operations; [None] when one of them cannot run or panics. *)
Fixpoint run_ops (env : Env) (ops : list Op) (w : World) : option World :=
  match ops with
  | [] => Some w
  | o :: rest =>
      match run_op env o w with
      | Some (Some w') => run_ops env rest w'
      | _ => None
      end
  end.

(** The timers of [w] are still there in [w'], and those that were not
    armed are not armed: a timer is never armed again. *)
Definition evolves (w w' : World) : Prop :=
  ∀ h t, heap w !! h = Some t →
    ∃ t', heap w' !! h = Some t' ∧ (t_state t ≠ Armed → t_state t' ≠ Armed).

(** An action that never arms a timer again. *)
Definition monotone {A} (m : M A) : Prop :=
  ∀ w a w', m w = Some (a, w') → evolves w w'.

(** The closure belongs to the chat. *)
Definition is_owned_by (chatID : Z) (f : Callback) : bool :=
  bool_decide (owner f = chatID).

(** Chat 9 was scheduled, with a daily and a weekly timer armed, before its
    record was lost. *)
Definition orphan_scheduled : World :=
  {| heap := [ armed_timer 73800000000000 (DailyCb 9);
               armed_timer 545400000000000 (WeeklyCb 9) ];
     timers :=
       {[ 9%Z := {| dailyTimer := Some 0; weeklyTimer := Some 1;
                    lectureTimers := []; lectureScheduler := None |} ]};
     outbox := [];
     tick := 20 |}.

(** Every handle an entry holds is that of a timer created for the chat of
    the entry. *)
Definition well_held (w : World) : Prop :=
  ∀ chatID ut h, timers w !! chatID = Some ut → h ∈ handles_of ut →
    ∃ t, heap w !! h = Some t ∧ owner (t_callback t) = chatID.

(** From [w] to [w'] every timer keeps its closure, and every handle an
    entry holds in [w'] was held by the entry of the same chat in [w] or is
    that of a timer of the chat. *)
Definition hands_on (w w' : World) : Prop :=
  (∀ h t, heap w !! h = Some t →
     ∃ t', heap w' !! h = Some t' ∧ t_callback t' = t_callback t) ∧
  (∀ chatID ut' h, timers w' !! chatID = Some ut' → h ∈ handles_of ut' →
     (∃ ut, timers w !! chatID = Some ut ∧ h ∈ handles_of ut) ∨
     (∃ t, heap w' !! h = Some t ∧ owner (t_callback t) = chatID)).

Definition respects {A} (m : M A) : Prop :=
  ∀ w a w', m w = Some (a, w') → hands_on w w'.

(** The record of the chat is readable at every interaction. *)
Definition stays_readable (env : Env) (chatID : Z) : Prop :=
  ∃ user, ∀ n, db_GetUser env n chatID = (Some user, None).

(** The chat has an entry, and exactly one daily, one weekly and one
    midnight timer of the chat are armed. *)
Definition fully_scheduled (chatID : Z) (w : World) : Prop :=
  is_Some (timers w !! chatID) ∧
  armed_count (is_daily_of chatID) w = 1 ∧
  armed_count (is_weekly_of chatID) w = 1 ∧
  armed_count (is_midnight_of chatID) w = 1.

(** From [w] to [w'] only timers of the chat were stopped, and only timers
    of the chat were created. *)
Definition touches_only (chatID : Z) (w w' : World) : Prop :=
  ∃ hs rest,
    heap w' = stop_list hs (heap w) ++ rest ∧
    (∀ h t, h ∈ hs → heap w !! h = Some t → owner (t_callback t) = chatID) ∧
    Forall (λ t, owner (t_callback t) = chatID) rest.

(** The scheduler after [ScheduleAll] on a new scheduler in the sample
    environment: chats 7 and 8 are scheduled. *)
Definition sample_all : World :=
  default NewScheduler (exec (ScheduleAll sample_env) NewScheduler).

(** The sample environment, but the lead time of chat 7 is not a number. *)
Definition carol : User :=
  {| ChatID := 7; DailyTime := "07:00"; WeeklyTime := "SUN 18:00";
     WebCalURL := "webcal://timetable.example/carol"; ReminderOffset := "soon" |}.

Definition carol_env : Env :=
  {| Calendar := unit;
     ukLocation := UTC;
     time_Now := λ _, (monday_midnight + 10 * Hour + 50 * Minute)%Z;
     db_GetUser := λ _ _, (Some carol, None);
     db_GetAllUsers := λ _, [carol];
     utils_GetNextTime := λ _ _, at_hour 31;
     utils_GetNextWeekTime := λ _ _, at_hour 162;
     timetable_FetchCalendar := λ _ _, Ok tt;
     timetable_GetLectures := λ _ _ _, Ok sample_lectures;
     timetable_GetLecturesInRange := λ _ _ _ _, Ok ∅;
     timetable_CleanTitle := λ title, title;
     timetable_FormatLectures := λ _, "";
     Time_Format := λ _ _, "" |}.

(** * Properties *)

Ltac unfold_M :=
  unfold exec, mbind, M_bind, mret, M_ret, ask, get, modify, panic in *; simpl in *.

(** ** The weekly window *)

Lemma weekday_range d : (0 ≤ weekday_of_day d < 7)%Z.
Proof. unfold weekday_of_day. apply Z.mod_pos_bound. lia. Qed.

Lemma weekWindow_days loc now :
  let wd := Time_Weekday loc now in
  let iso := if bool_decide (wd = 0%Z) then 7%Z else wd in
  civil_day loc (weekWindow loc now).1 = (civil_day loc now - (iso - 1))%Z ∧
  civil_day loc (weekWindow loc now).2 = (civil_day loc now - (iso - 1) + 4)%Z.
Proof.
  intros wd iso. unfold weekWindow, Time_AddDate_days. simpl.
  fold wd. fold iso.
  rewrite !civil_day_Date by apply civil_nanos_range.
  split; [lia | reflexivity].
Qed.

(** C2, as the code has it: for every current time, the weekly digest's
    window starts on the Monday of the Monday-to-Sunday week that contains
    the current date and ends on the Friday of that week.  The current date
    lies in the window exactly from Monday to Friday; on Saturday and Sunday
    the window is the one that has just ended, five and six days back. *)
Theorem weekWindow_iso_week (loc : Location) (now : Time) :
  let d := civil_day loc now in
  let wd := Time_Weekday loc now in
  let ws := civil_day loc (weekWindow loc now).1 in
  let we := civil_day loc (weekWindow loc now).2 in
  weekday_of_day ws = 1%Z ∧ we = (ws + 4)%Z ∧ weekday_of_day we = 5%Z ∧
  (ws ≤ d ≤ ws + 6)%Z ∧
  ((1 ≤ wd ≤ 5)%Z ↔ (ws ≤ d ≤ we)%Z) ∧
  (wd = 6%Z ↔ d = (ws + 5)%Z) ∧
  (wd = 0%Z ↔ d = (ws + 6)%Z).
Proof.
  intros d wd ws we.
  destruct (weekWindow_days loc now) as [Hs He].
  fold d in Hs, He. fold ws in Hs. fold we in He. fold wd in Hs, He.
  assert (Hwd : wd = ((d + 4) `mod` 7)%Z) by reflexivity.
  assert (Hr : (0 ≤ wd < 7)%Z) by apply weekday_range.
  unfold weekday_of_day.
  case_bool_decide as H0.
  - rewrite Hs, He in *. clear Hs He.
    repeat split; try (Z.div_mod_to_equations; lia).
  - rewrite Hs, He in *. clear Hs He.
    repeat split; try (Z.div_mod_to_equations; lia).
Qed.

(** C2, counterexample: at noon on Saturday 1 June 2024 the window starts
    on Monday 27 May (day 19870), five days back, and not on Monday 3 June
    (day 19877) as the specification says. *)
Lemma weekWindow_saturday_not_next_week :
  Time_Weekday UTC saturday_noon = 6%Z ∧
  civil_day UTC (weekWindow UTC saturday_noon).1 = 19870%Z ∧
  spec_weekStart_day (civil_day UTC saturday_noon) = 19877%Z ∧
  ¬ window_as_specified UTC saturday_noon.
Proof.
  split; [reflexivity |]. split; [reflexivity |]. split; [reflexivity |].
  intros [H _]. vm_compute in H. discriminate H.
Qed.

(** ** Stopping timers *)

Lemma set_heap_id w : set_heap (heap w) w = w.
Proof. by destruct w. Qed.

Lemma stop_timer_idem t : stop_timer (stop_timer t) = stop_timer t.
Proof. destruct t as [[] ? ?]; reflexivity. Qed.

Lemma stop_timer_not_armed t : t_state (stop_timer t) ≠ Armed.
Proof. destruct t as [[] ? ?]; discriminate. Qed.

Lemma stop_timer_callback t : t_callback (stop_timer t) = t_callback t.
Proof. destruct t as [[] ? ?]; reflexivity. Qed.

Lemma stop_timer_armed t : t_state t ≠ Armed → stop_timer t = t.
Proof. destruct t as [[] ? ?]; simpl; intros H; [by destruct H | done | done]. Qed.

Lemma stop_list_length hs hp : length (stop_list hs hp) = length hp.
Proof.
  revert hp. induction hs as [|h hs IH]; intros hp; simpl; [done |].
  unfold stop_list in *. simpl. rewrite IH. apply length_alter.
Qed.

Lemma stop_list_app hs1 hs2 hp :
  stop_list (hs1 ++ hs2) hp = stop_list hs2 (stop_list hs1 hp).
Proof. unfold stop_list. apply foldl_app. Qed.

Lemma stop_list_lookup hs hp h :
  stop_list hs hp !! h =
  (if bool_decide (h ∈ hs) then stop_timer else id) <$> hp !! h.
Proof.
  revert hp. induction hs as [|x hs IH]; intros hp.
  - unfold stop_list. simpl. by destruct (hp !! h).
  - change (stop_list (x :: hs) hp) with (stop_list hs (alter stop_timer x hp)).
    rewrite IH. destruct (decide (x = h)) as [->|Hne].
    + rewrite list_lookup_alter_eq.
      rewrite (bool_decide_eq_true_2 (h ∈ h :: hs)) by left.
      destruct (hp !! h) as [t|]; simpl; [|done].
      case_bool_decide; simpl; by rewrite ?stop_timer_idem.
    + rewrite list_lookup_alter_ne by done.
      destruct (hp !! h) as [t|]; simpl; [|done].
      f_equal. rewrite (bool_decide_ext (h ∈ x :: hs) (h ∈ hs)); [done |].
      rewrite elem_of_cons. split; [intros [Heq|Hin]; [by subst | exact Hin] | by right].
Qed.

Lemma stop_list_not_armed hs hp h t :
  h ∈ hs → stop_list hs hp !! h = Some t → t_state t ≠ Armed.
Proof.
  intros Hin. rewrite stop_list_lookup. rewrite bool_decide_eq_true_2 by exact Hin.
  destruct (hp !! h) as [t0|]; simpl; [|done].
  intros [= <-]. apply stop_timer_not_armed.
Qed.

(** A timer armed after some timers were stopped was armed before, and is
    none of them. *)
Lemma stop_list_armed hs hp h t :
  stop_list hs hp !! h = Some t → t_state t = Armed →
  hp !! h = Some t ∧ h ∉ hs.
Proof.
  rewrite stop_list_lookup. destruct (hp !! h) as [t0|]; simpl; [|done].
  case_bool_decide as Hin; intros [= <-] Ha.
  - by apply stop_timer_not_armed in Ha.
  - done.
Qed.

Lemma for_each_Stop hs w :
  for_each hs Stop w = Some (tt, set_heap (stop_list hs (heap w)) w).
Proof.
  revert w. induction hs as [|h hs IH]; intros w.
  - simpl. unfold_M. by rewrite set_heap_id.
  - simpl. unfold mbind, M_bind, Stop, modify. rewrite IH. reflexivity.
Qed.

Lemma Stop_if_set_run o w :
  Stop_if_set o w = Some (tt, set_heap (stop_list (option_list o) (heap w)) w).
Proof. destruct o; simpl; unfold_M; [done | by rewrite set_heap_id]. Qed.

(** ** CancelUser *)

Lemma CancelUser_run chatID w : CancelUser chatID w = Some (tt, cancelled chatID w).
Proof.
  unfold CancelUser, cancelled, mbind, M_bind, get.
  destruct (timers w !! chatID) as [ut|]; [|reflexivity].
  rewrite Stop_if_set_run. rewrite Stop_if_set_run. rewrite Stop_if_set_run.
  rewrite for_each_Stop. unfold modify, handles_of. simpl.
  rewrite !stop_list_app. reflexivity.
Qed.

Lemma cancelled_timers chatID w : timers (cancelled chatID w) = delete chatID (timers w).
Proof.
  unfold cancelled. destruct (timers w !! chatID) eqn:E; [reflexivity |].
  symmetry. by apply delete_id.
Qed.

Lemma cancelled_outbox chatID w : outbox (cancelled chatID w) = outbox w.
Proof. unfold cancelled. by destruct (timers w !! chatID). Qed.

Lemma cancelled_tick chatID w : tick (cancelled chatID w) = tick w.
Proof. unfold cancelled. by destruct (timers w !! chatID). Qed.

Lemma cancelled_heap chatID w :
  heap (cancelled chatID w) =
  stop_list (from_option handles_of [] (timers w !! chatID)) (heap w).
Proof. unfold cancelled. by destruct (timers w !! chatID). Qed.

(** C6: CancelUser is idempotent.  It never panics; on an identity without
    an entry it changes nothing at all; and a second call right after a
    first one leaves the world of the first one as it is. *)
Theorem CancelUser_idempotent (chatID : Z) (w : World) :
  (timers w !! chatID = None → CancelUser chatID w = Some (tt, w)) ∧
  ∃ w1, CancelUser chatID w = Some (tt, w1) ∧
        timers w1 !! chatID = None ∧
        CancelUser chatID w1 = Some (tt, w1) ∧
        (CancelUser chatID;; CancelUser chatID) w = CancelUser chatID w.
Proof.
  assert (Hnone : ∀ w0, timers w0 !! chatID = None → cancelled chatID w0 = w0).
  { intros w0 H0. unfold cancelled. by rewrite H0. }
  assert (Hdel : timers (cancelled chatID w) !! chatID = None).
  { rewrite cancelled_timers. apply lookup_delete_eq. }
  split.
  - intros H0. by rewrite CancelUser_run, Hnone.
  - exists (cancelled chatID w). split; [apply CancelUser_run |].
    split; [exact Hdel |].
    assert (H2 : CancelUser chatID (cancelled chatID w) = Some (tt, cancelled chatID w)).
    { by rewrite CancelUser_run, Hnone. }
    split; [exact H2 |].
    unfold mbind, M_bind. rewrite (CancelUser_run chatID w). exact H2.
Qed.

(** Cancelling chat 8 in a scheduler that only has an entry for chat 7. *)
Example CancelUser_idempotent_witness :
  let w := {| heap := []; timers := {[ 7%Z := UserTimers_zero ]}; outbox := []; tick := 0 |} in
  CancelUser 8 w = Some (tt, w).
Proof.
  intros w. apply (proj1 (CancelUser_idempotent 8 w)). reflexivity.
Defined.

(** ** ScheduleUser on a user that cannot be read *)

(** C5: when the lookup of the user returns an error or a nil record,
    ScheduleUser returns without a panic and the world is as before but for
    the count of interactions: no timer is created or stopped, the map is
    the same (an entry the identity had is still there, its timers as they
    were), and nothing is sent. *)
Theorem ScheduleUser_unreadable_noop (env : Env) (chatID : Z) (w : World) :
  (db_GetUser env (tick w) chatID).2 ≠ None ∨ (db_GetUser env (tick w) chatID).1 = None →
  ScheduleUser env chatID w = Some (tt, next_tick w) ∧
  heap (next_tick w) = heap w ∧
  timers (next_tick w) = timers w ∧
  outbox (next_tick w) = outbox w.
Proof.
  intros Hr. split; [|done].
  unfold ScheduleUser, ScheduleUser_lookup. unfold_M.
  destruct (db_GetUser env (tick w) chatID) as [[user|] [err|]]; simpl in *;
    try reflexivity.
  destruct Hr as [Hr|Hr]; congruence.
Qed.

(** The lookup of chat 9 fails while chat 7 is scheduled. *)
Example ScheduleUser_unreadable_noop_witness :
  let w := {| heap := []; timers := {[ 7%Z := UserTimers_zero ]}; outbox := []; tick := 3 |} in
  ScheduleUser sample_env 9 w = Some (tt, next_tick w) ∧
  heap (next_tick w) = heap w ∧
  timers (next_tick w) = timers w ∧
  outbox (next_tick w) = outbox w.
Proof.
  intros w. apply (ScheduleUser_unreadable_noop sample_env 9 w).
  left. simpl. discriminate.
Defined.

(** ** The digest senders *)

Lemma sendMessage_run chatID text w :
  sendMessage chatID text w = Some (tt, set_outbox (outbox w ++ [(chatID, text)]) w).
Proof. reflexivity. Qed.

Ltac sender_cases :=
  repeat match goal with
  | |- context [match ?x with _ => _ end] => destruct x eqn:?; simpl
  | |- context [if ?x then _ else _] => destruct x eqn:?; simpl
  end.

Lemma sendDailyTimetable_only_sends env chatID w :
  only_sends chatID w (sendDailyTimetable env chatID w).
Proof.
  unfold only_sends, sendDailyTimetable, sendMessage. unfold_M.
  sender_cases; eexists _, _; (split; [reflexivity |]); done.
Qed.

Lemma sendWeeklyTimetable_only_sends env chatID w :
  only_sends chatID w (sendWeeklyTimetable env chatID w).
Proof.
  unfold only_sends, sendWeeklyTimetable, sendMessage. unfold_M.
  sender_cases; eexists _, _; (split; [reflexivity |]); done.
Qed.

(** C8: the digest senders only read the scheduler.  Whatever the user
    record, the calendar and the lectures are, each of them returns, having
    handed one message for the chat to the API, with the list of timers
    (so the state of every timer) and the map of timer sets as they were. *)
Theorem digest_senders_read_only (env : Env) (chatID : Z) (w : World) :
  (∃ w' text, sendDailyTimetable env chatID w = Some (tt, w') ∧
     heap w' = heap w ∧ timers w' = timers w ∧
     outbox w' = outbox w ++ [(chatID, text)]) ∧
  (∃ w' text, sendWeeklyTimetable env chatID w = Some (tt, w') ∧
     heap w' = heap w ∧ timers w' = timers w ∧
     outbox w' = outbox w ++ [(chatID, text)]).
Proof.
  split.
  - apply sendDailyTimetable_only_sends.
  - apply sendWeeklyTimetable_only_sends.
Qed.

(** ** The lecture replan *)

Lemma update_UserTimers_run chatID f w ut :
  timers w !! chatID = Some ut →
  update_UserTimers chatID f w = Some (tt, set_timers (<[chatID := f ut]> (timers w)) w).
Proof. intros H. unfold update_UserTimers. by rewrite H. Qed.

Lemma cancel_lectureTimers_run chatID w :
  cancel_lectureTimers chatID w = Some (tt, lectures_cleared chatID w).
Proof.
  unfold cancel_lectureTimers, lectures_cleared, mbind, M_bind, get.
  destruct (timers w !! chatID) as [ut|] eqn:E; [|reflexivity].
  rewrite for_each_Stop.
  by rewrite (update_UserTimers_run _ _ _ ut).
Qed.

Lemma lectures_cleared_outbox chatID w : outbox (lectures_cleared chatID w) = outbox w.
Proof. unfold lectures_cleared. by destruct (timers w !! chatID). Qed.

Lemma lectures_cleared_tick chatID w : tick (lectures_cleared chatID w) = tick w.
Proof. unfold lectures_cleared. by destruct (timers w !! chatID). Qed.

Lemma lectures_cleared_heap chatID w :
  heap (lectures_cleared chatID w) =
  stop_list (from_option lectureTimers [] (timers w !! chatID)) (heap w).
Proof. unfold lectures_cleared. by destruct (timers w !! chatID). Qed.

Lemma lectures_cleared_timers chatID w :
  timers (lectures_cleared chatID w) = alter (with_lectureTimers []) chatID (timers w).
Proof.
  unfold lectures_cleared. destruct (timers w !! chatID) as [ut|] eqn:E; simpl.
  - apply map_eq. intros i. rewrite lookup_alter, lookup_insert.
    case_decide; subst; by rewrite ?E.
  - apply map_eq. intros i. rewrite lookup_alter.
    case_decide; subst; by rewrite ?E.
Qed.

Lemma filter_length_zero {A} (f : A → bool) (l : list A) :
  (∀ i x, l !! i = Some x → f x = false) → length (List.filter f l) = 0.
Proof.
  induction l as [|a l IH]; intros H; simpl; [done |].
  rewrite (H 0 a eq_refl). apply IH. intros i x Hi. apply (H (S i) x Hi).
Qed.

Lemma armed_count_zero p w :
  (∀ h t, heap w !! h = Some t → t_state t = Armed → p (t_callback t) = false) →
  armed_count p w = 0.
Proof.
  intros H. apply filter_length_zero. intros h t Ht.
  unfold is_armed. case_bool_decide as Ha; simpl; [|done]. by apply (H h t).
Qed.

(** After lines 91 to 96 no reminder of the chat is armed, if none was
    leaked before. *)
Lemma lectures_cleared_no_reminder chatID w h t :
  no_leak w →
  heap (lectures_cleared chatID w) !! h = Some t → t_state t = Armed →
  is_reminder_of chatID (t_callback t) = false.
Proof.
  intros Hnl Ht Ha. rewrite lectures_cleared_heap in Ht.
  destruct (stop_list_armed _ _ _ _ Ht Ha) as [Ht0 Hnin].
  specialize (Hnl h t Ht0 Ha).
  destruct (t_callback t) as [| | |i l o]; simpl; try done.
  case_bool_decide as Hi; [|done]. subst i.
  destruct Hnl as (ut & Hut & Hin). rewrite Hut in Hnin. simpl in Hnin. done.
Qed.

(** C10: an identity whose lookup yields no record, with or without an
    error, is treated as a user without a calendar link.  Both digest
    senders hand the [/set_calendar] prompt, and nothing else, to the API
    (the world they end in is the same in the two cases), and the lecture
    replan returns having created no timer and leaving the identity's list
    of lecture timers empty. *)
Theorem unreadable_user_as_no_calendar (env : Env) (chatID : Z) (w : World) :
  (db_GetUser env (tick w) chatID).1 = None ∨
  (∃ user, (db_GetUser env (tick w) chatID).1 = Some user ∧ WebCalURL user = "") →
  sendDailyTimetable env chatID w = Some (tt, prompted chatID w) ∧
  sendWeeklyTimetable env chatID w = Some (tt, prompted chatID w) ∧
  outbox (prompted chatID w) = outbox w ++ [(chatID, set_calendar_prompt)] ∧
  scheduleLectureReminders env chatID w =
    Some (tt, next_tick (lectures_cleared chatID w)) ∧
  length (heap (lectures_cleared chatID w)) = length (heap w) ∧
  (∀ ut, timers (lectures_cleared chatID w) !! chatID = Some ut → lectureTimers ut = []).
Proof.
  intros Hr.
  assert (Hnc : no_calendar (db_GetUser env (tick w) chatID).1 = true).
  { destruct Hr as [->|(user & -> & Hurl)]; simpl; [done |].
    by apply bool_decide_eq_true_2. }
  split; [|split; [|split; [|split; [|split]]]].
  - unfold sendDailyTimetable. unfold_M. by rewrite Hnc.
  - unfold sendWeeklyTimetable. unfold_M. by rewrite Hnc.
  - reflexivity.
  - unfold scheduleLectureReminders, mbind, M_bind.
    rewrite cancel_lectureTimers_run. unfold ask.
    rewrite lectures_cleared_tick.
    destruct ((db_GetUser env (tick w) chatID).1) as [user|]; [|reflexivity].
    simpl in Hnc. by rewrite Hnc.
  - rewrite lectures_cleared_heap. apply stop_list_length.
  - intros ut. rewrite lectures_cleared_timers, lookup_alter_eq.
    destruct (timers w !! chatID); simpl; [|done]. by intros [= <-].
Qed.

(** Chat 9, whose lookup fails, in a fresh scheduler. *)
Example unreadable_user_as_no_calendar_witness :
  sendDailyTimetable sample_env 9 NewScheduler = Some (tt, prompted 9 NewScheduler) ∧
  sendWeeklyTimetable sample_env 9 NewScheduler = Some (tt, prompted 9 NewScheduler) ∧
  outbox (prompted 9 NewScheduler) = outbox NewScheduler ++ [(9%Z, set_calendar_prompt)] ∧
  scheduleLectureReminders sample_env 9 NewScheduler =
    Some (tt, next_tick (lectures_cleared 9 NewScheduler)) ∧
  length (heap (lectures_cleared 9 NewScheduler)) = length (heap NewScheduler) ∧
  (∀ ut, timers (lectures_cleared 9 NewScheduler) !! 9%Z = Some ut → lectureTimers ut = []).
Proof.
  apply (unreadable_user_as_no_calendar sample_env 9 NewScheduler).
  left. reflexivity.
Defined.

Example ScheduleUser_sample :
  ScheduleUser sample_env 7 NewScheduler = Some (tt, sample_scheduled).
Proof. vm_compute. reflexivity. Qed.

Lemma sample_scheduled_no_leak : no_leak sample_scheduled.
Proof.
  intros h t Ht Ha.
  destruct h as [|[|[|[|[|h]]]]]; simpl in Ht; try discriminate Ht;
    injection Ht as <-; simpl;
    (eexists; split; [apply lookup_singleton_eq | simpl]);
    try reflexivity; set_solver.
Qed.

Lemma replan_stops_run env chatID w :
  replan_stops env chatID (tick w) →
  ∃ k, scheduleLectureReminders env chatID w =
         Some (tt, Nat.iter k next_tick (lectures_cleared chatID w)).
Proof.
  intros Hs. unfold scheduleLectureReminders, mbind, M_bind.
  rewrite cancel_lectureTimers_run. unfold ask. simpl.
  rewrite lectures_cleared_tick.
  destruct Hs as [Hnc|(user & Hu & Hurl & Hs)].
  - exists 1. destruct ((db_GetUser env (tick w) chatID).1) as [user|]; [|done].
    simpl in Hnc. by rewrite Hnc.
  - rewrite Hu. rewrite bool_decide_eq_false_2 by exact Hurl.
    cbn [tick next_tick]. rewrite lectures_cleared_tick.
    destruct Hs as [[err Hf]|(cal & Hf & Hs)]; rewrite Hf.
    + by exists 2.
    + exists 4. cbn [tick next_tick]. rewrite lectures_cleared_tick.
      destruct Hs as [[err Hl]|Hl]; by rewrite Hl.
Qed.

Lemma iter_next_tick_fields k w :
  heap (Nat.iter k next_tick w) = heap w ∧
  timers (Nat.iter k next_tick w) = timers w ∧
  outbox (Nat.iter k next_tick w) = outbox w.
Proof. induction k as [|k IH]; simpl; [done | exact IH]. Qed.

(** C4: when the user has no calendar link, or the calendar cannot be
    fetched or read, or it has no lecture, the replan returns without a
    panic, having stopped every timer of the identity's list of lecture
    timers and emptied that list, which is its first step; the timers and
    the map are then as that step left them: no timer is created and
    nothing is sent.
    If no armed timer was leaked before, no reminder of the identity is
    armed afterwards. *)
Theorem replan_stops_silently (env : Env) (chatID : Z) (w : World) :
  replan_stops env chatID (tick w) →
  ∃ w', scheduleLectureReminders env chatID w = Some (tt, w') ∧
    cancel_lectureTimers chatID w = Some (tt, lectures_cleared chatID w) ∧
    heap w' = heap (lectures_cleared chatID w) ∧
    timers w' = timers (lectures_cleared chatID w) ∧
    length (heap w') = length (heap w) ∧
    (∀ ut h t, timers w !! chatID = Some ut → h ∈ lectureTimers ut →
       heap w' !! h = Some t → t_state t ≠ Armed) ∧
    (∀ h t, heap w' !! h = Some t → t_state t = Armed → heap w !! h = Some t) ∧
    (∀ ut, timers w' !! chatID = Some ut → lectureTimers ut = []) ∧
    outbox w' = outbox w ∧
    (no_leak w → armed_count (is_reminder_of chatID) w' = 0).
Proof.
  intros Hs. destruct (replan_stops_run env chatID w Hs) as [k Hk].
  destruct (iter_next_tick_fields k (lectures_cleared chatID w)) as (Hh & Ht & Ho).
  eexists. split; [exact Hk |].
  rewrite Ho, lectures_cleared_outbox.
  split; [apply cancel_lectureTimers_run |].
  split; [exact Hh |]. split; [exact Ht |].
  split; [|split; [|split; [|split; [|split]]]].
  - rewrite Hh, lectures_cleared_heap. apply stop_list_length.
  - intros ut h t Hut Hin. rewrite Hh, lectures_cleared_heap, Hut. simpl.
    by apply stop_list_not_armed.
  - intros h t Hl Ha. rewrite Hh, lectures_cleared_heap in Hl.
    by destruct (stop_list_armed _ _ _ _ Hl Ha).
  - intros ut. rewrite Ht, lectures_cleared_timers, lookup_alter_eq.
    destruct (timers w !! chatID); simpl; [|done]. by intros [= <-].
  - reflexivity.
  - intros Hnl. apply armed_count_zero. intros h t Hl Ha.
    rewrite Hh in Hl. by apply (lectures_cleared_no_reminder chatID w h t).
Qed.

(** Chat 7 has two reminders armed when the calendar feed goes offline. *)
Example replan_stops_silently_witness :
  ∃ w', scheduleLectureReminders offline_env 7 sample_scheduled = Some (tt, w') ∧
    length (heap w') = length (heap sample_scheduled) ∧
    armed_count (is_reminder_of 7) sample_scheduled = 2 ∧
    armed_count (is_reminder_of 7) w' = 0.
Proof.
  destruct (replan_stops_silently offline_env 7 sample_scheduled)
    as (w' & Hrun & _ & _ & _ & Hlen & _ & _ & _ & _ & Hzero).
  - right. exists alice. split; [reflexivity |]. split; [discriminate |].
    left. by exists "connection refused".
  - exists w'. split; [exact Hrun |]. split; [exact Hlen |].
    split; [reflexivity |]. apply Hzero. exact sample_scheduled_no_leak.
Defined.

(** ** The loop that arms the reminders *)

Lemma arm_reminders_run env chatID off now lectures acc w :
  arm_reminders env chatID off now lectures acc w =
  Some (acc ++ seq (length (heap w))
                 (length (reminder_timers env chatID off now (tick w) lectures)),
        {| heap := heap w ++ reminder_timers env chatID off now (tick w) lectures;
           timers := timers w;
           outbox := outbox w;
           tick := tick w + length (reminder_timers env chatID off now (tick w) lectures) |}).
Proof.
  revert acc w. induction lectures as [|lecture rest IH]; intros acc w.
  - simpl. unfold mret, M_ret. rewrite !app_nil_r, Nat.add_0_r. by destruct w.
  - simpl. destruct (Time_After (reminderTime_of lecture off) now).
    + unfold time_Until, AfterFunc. unfold_M. rewrite IH. simpl.
      rewrite length_app. simpl. rewrite Nat.add_1_r.
      rewrite <- !app_assoc. simpl. do 3 f_equal. lia.
    + apply IH.
Qed.

Lemma reminder_timers_callbacks env chatID off now n lectures :
  map t_callback (reminder_timers env chatID off now n lectures) =
  map (λ lecture, ReminderCb chatID lecture off)
    (List.filter (λ lecture, Time_After (reminderTime_of lecture off) now) lectures).
Proof.
  revert n. induction lectures as [|lecture rest IH]; intros n; simpl; [done |].
  destruct (Time_After (reminderTime_of lecture off) now); simpl; by rewrite IH.
Qed.

Lemma reminder_timers_armed env chatID off now n lectures :
  Forall (λ t, t_state t = Armed) (reminder_timers env chatID off now n lectures).
Proof.
  revert n. induction lectures as [|lecture rest IH]; intros n; simpl; [constructor |].
  destruct (Time_After (reminderTime_of lecture off) now); [constructor |]; done.
Qed.

(** When the lead time fits a [time.Duration], the reminder moment is the
    start minus the lead time. *)
Lemma reminderTime_of_exact lecture off :
  in_int64 (off * Minute) →
  reminderTime_of lecture off = (Start lecture - off * Minute)%Z.
Proof.
  unfold in_int64, int64_min, int64_max, reminderTime_of, Time_Add, wrap64, Minute.
  intros H.
  assert (H1 : ((- off + 2 ^ 63) `mod` 2 ^ 64 - 2 ^ 63 = - off)%Z).
  { rewrite Z.mod_small; lia. }
  rewrite H1.
  rewrite Z.mod_small; lia.
Qed.

(** A replan that finds lectures for an identity without an entry stores
    through a nil pointer. *)
Example replan_without_entry_panics :
  scheduleLectureReminders sample_env 7 NewScheduler = None.
Proof. reflexivity. Qed.

(** The replan when the calendar has been read: the timers of the last
    replan are stopped, the reminders of [reminder_timers] are created, and
    their handles are stored.  Without an entry for the identity, the store
    panics. *)
Lemma replan_fetched_run env chatID w user cal lectures :
  (db_GetUser env (tick w) chatID).1 = Some user →
  WebCalURL user ≠ "" →
  timetable_FetchCalendar env (S (tick w)) (WebCalURL user) = Ok cal →
  timetable_GetLectures env (S (S (S (tick w)))) cal (time_Now env (S (S (tick w))))
    = Ok lectures →
  lectures ≠ [] →
  scheduleLectureReminders env chatID w =
  let w0 := lectures_cleared chatID w in
  let off := default 15%Z (Atoi (ReminderOffset user)) in
  let now := time_Now env (S (S (S (S (tick w))))) in
  let new := reminder_timers env chatID off now (S (S (S (S (S (tick w)))))) lectures in
  update_UserTimers chatID (with_lectureTimers (seq (length (heap w0)) (length new)))
    {| heap := heap w0 ++ new; timers := timers w0; outbox := outbox w0;
       tick := S (S (S (S (S (tick w))))) + length new |}.
Proof.
  intros Hu Hurl Hf Hl Hne.
  unfold scheduleLectureReminders, mbind, M_bind.
  rewrite cancel_lectureTimers_run. unfold ask.
  simpl. rewrite lectures_cleared_tick.
  rewrite Hu. rewrite bool_decide_eq_false_2 by exact Hurl.
  cbn [tick next_tick]. rewrite lectures_cleared_tick.
  rewrite Hf. cbn [tick next_tick]. rewrite lectures_cleared_tick. rewrite Hl.
  rewrite bool_decide_eq_false_2 by (by destruct lectures).
  cbn [tick next_tick]. rewrite lectures_cleared_tick.
  rewrite arm_reminders_run.
  cbn [tick next_tick heap timers outbox app]. rewrite !lectures_cleared_tick.
  reflexivity.
Qed.

(** C3: a replan that has read the lectures of the day creates one armed
    timer, running the reminder of that lecture, for each lecture whose
    start minus the lead time is strictly after the clock reading [now] of
    line 120, in the order of the lectures, and no other timer; the handles
    of these timers become the identity's list of lecture timers.  The lead
    time is the configured number of minutes (15 when it does not parse),
    and is taken to fit a [time.Duration]. *)
Theorem replan_arms_future_reminders (env : Env) (chatID : Z) (w : World)
    (ut : UserTimers) (user : User) (cal : Calendar env) (lectures : list Lecture) :
  timers w !! chatID = Some ut →
  (db_GetUser env (tick w) chatID).1 = Some user →
  WebCalURL user ≠ "" →
  timetable_FetchCalendar env (S (tick w)) (WebCalURL user) = Ok cal →
  timetable_GetLectures env (S (S (S (tick w)))) cal (time_Now env (S (S (tick w))))
    = Ok lectures →
  let leadMinutes := default 15%Z (Atoi (ReminderOffset user)) in
  let now := time_Now env (S (S (S (S (tick w))))) in
  in_int64 (leadMinutes * Minute) →
  ∃ w' new,
    scheduleLectureReminders env chatID w = Some (tt, w') ∧
    heap w' = stop_list (lectureTimers ut) (heap w) ++ new ∧
    Forall (λ t, t_state t = Armed) new ∧
    map t_callback new =
      map (λ lecture, ReminderCb chatID lecture leadMinutes)
        (List.filter (λ lecture, bool_decide (now < Start lecture - leadMinutes * Minute)%Z)
           lectures) ∧
    timers w' =
      <[chatID := with_lectureTimers (seq (length (heap w)) (length new)) ut]> (timers w) ∧
    outbox w' = outbox w.
Proof.
  intros Hut Hu Hurl Hf Hl leadMinutes now Hfit.
  assert (Hc : lectures_cleared chatID w =
               set_timers (<[chatID := with_lectureTimers [] ut]> (timers w))
                 (set_heap (stop_list (lectureTimers ut) (heap w)) w)).
  { unfold lectures_cleared. by rewrite Hut. }
  destruct (decide (lectures = [])) as [->|Hne].
  - destruct (replan_stops_run env chatID w) as [k Hk].
    { right. exists user. split; [exact Hu |]. split; [exact Hurl |].
      right. exists cal. split; [exact Hf |]. by right. }
    destruct (iter_next_tick_fields k (lectures_cleared chatID w)) as (Hh & Ht & Ho).
    exists (Nat.iter k next_tick (lectures_cleared chatID w)), [].
    split; [exact Hk |]. rewrite Hh, Ht, Ho, Hc. simpl.
    rewrite app_nil_r. repeat split; constructor.
  - rewrite (replan_fetched_run env chatID w user cal lectures Hu Hurl Hf Hl Hne).
    cbv zeta. fold leadMinutes. fold now.
    set (new := reminder_timers env chatID leadMinutes now _ lectures).
    rewrite (update_UserTimers_run _ _ _ (with_lectureTimers [] ut)).
    2:{ simpl. rewrite Hc. simpl. apply lookup_insert_eq. }
    eexists _, new. split; [reflexivity |]. simpl. rewrite Hc. simpl.
    split; [reflexivity |].
    split; [apply reminder_timers_armed |].
    split; [|split; [|reflexivity]].
    + unfold new. rewrite reminder_timers_callbacks. f_equal.
      apply List.filter_ext. intros lecture.
      unfold Time_After. by rewrite reminderTime_of_exact.
    + rewrite insert_insert_eq. rewrite stop_list_length. reflexivity.
Qed.

(** The sample day: the replan of 10:30 arms the reminders of 11:00 (due at
    10:45) and of 14:00, and none for 09:00. *)
Example replan_arms_future_reminders_witness :
  ∃ w' new,
    scheduleLectureReminders sample_env 7 sample_scheduled = Some (tt, w') ∧
    heap w' = stop_list [3; 4] (heap sample_scheduled) ++ new ∧
    Forall (λ t, t_state t = Armed) new ∧
    map t_callback new =
      [ReminderCb 7 (lecture_at "Algebra" 11) 15; ReminderCb 7 (lecture_at "Compilers" 14) 15] ∧
    timers w' !! 7%Z =
      Some {| dailyTimer := Some 0; weeklyTimer := Some 1;
              lectureTimers := [5; 6]; lectureScheduler := Some 2 |} ∧
    outbox w' = [].
Proof.
  destruct (replan_arms_future_reminders sample_env 7 sample_scheduled
              {| dailyTimer := Some 0; weeklyTimer := Some 1;
                 lectureTimers := [3; 4]; lectureScheduler := Some 2 |}
              alice tt sample_lectures)
    as (w' & new & Hrun & Hheap & Harmed & Hcb & Htimers & Hout).
  - reflexivity.
  - reflexivity.
  - discriminate.
  - reflexivity.
  - reflexivity.
  - vm_compute. split; discriminate.
  - exists w', new. split; [exact Hrun |]. split; [exact Hheap |].
    split; [exact Harmed |]. split; [exact Hcb |]. split; [|exact Hout].
    rewrite Htimers, lookup_insert_eq.
    assert (Hlen : length new = 2) by (rewrite <- (length_map t_callback), Hcb; reflexivity).
    rewrite Hlen. reflexivity.
Defined.

(** ** The replan of an identity that has an entry never panics *)

Lemma reminder_timers_owned env chatID off now n lectures :
  Forall (armed_reminder_of chatID) (reminder_timers env chatID off now n lectures).
Proof.
  revert n. induction lectures as [|lecture rest IH]; intros n; simpl; [constructor |].
  destruct (Time_After (reminderTime_of lecture off) now); [constructor |]; try done.
  split; [reflexivity |]. simpl. by apply bool_decide_eq_true_2.
Qed.

Lemma replan_cases env chatID n :
  replan_stops env chatID n ∨
  ∃ user cal lectures,
    (db_GetUser env n chatID).1 = Some user ∧ WebCalURL user ≠ "" ∧
    timetable_FetchCalendar env (S n) (WebCalURL user) = Ok cal ∧
    timetable_GetLectures env (S (S (S n))) cal (time_Now env (S (S n))) = Ok lectures ∧
    lectures ≠ [].
Proof.
  unfold replan_stops.
  destruct ((db_GetUser env n chatID).1) as [user|] eqn:Hu; [|by left; left].
  destruct (decide (WebCalURL user = "")) as [Hurl|Hurl].
  { left. left. simpl. by apply bool_decide_eq_true_2. }
  destruct (timetable_FetchCalendar env (S n) (WebCalURL user)) as [cal|err] eqn:Hf.
  2:{ left. right. exists user. repeat split; try done. left. by exists err. }
  destruct (timetable_GetLectures env (S (S (S n))) cal (time_Now env (S (S n))))
    as [lectures|err] eqn:Hl.
  2:{ left. right. exists user. repeat split; try done. right. exists cal.
      split; [done |]. left. by exists err. }
  destruct (decide (lectures = [])) as [->|Hne].
  { left. right. exists user. repeat split; try done. right. exists cal.
    split; [done |]. by right. }
  right. by exists user, cal, lectures.
Qed.

Lemma lectures_cleared_entry chatID w ut :
  timers w !! chatID = Some ut →
  lectures_cleared chatID w =
  set_timers (<[chatID := with_lectureTimers [] ut]> (timers w))
    (set_heap (stop_list (lectureTimers ut) (heap w)) w).
Proof. intros Hut. unfold lectures_cleared. by rewrite Hut. Qed.

Lemma replan_shape env chatID w ut :
  timers w !! chatID = Some ut →
  ∃ w' new,
    scheduleLectureReminders env chatID w = Some (tt, w') ∧
    heap w' = stop_list (lectureTimers ut) (heap w) ++ new ∧
    Forall (armed_reminder_of chatID) new ∧
    timers w' =
      <[chatID := with_lectureTimers (seq (length (heap w)) (length new)) ut]> (timers w) ∧
    outbox w' = outbox w.
Proof.
  intros Hut. pose proof (lectures_cleared_entry chatID w ut Hut) as Hc.
  destruct (replan_cases env chatID (tick w))
    as [Hs|(user & cal & lectures & Hu & Hurl & Hf & Hl & Hne)].
  - destruct (replan_stops_run env chatID w Hs) as [k Hk].
    destruct (iter_next_tick_fields k (lectures_cleared chatID w)) as (Hh & Ht & Ho).
    exists (Nat.iter k next_tick (lectures_cleared chatID w)), [].
    split; [exact Hk |]. rewrite Hh, Ht, Ho, Hc. simpl.
    rewrite app_nil_r. repeat split; constructor.
  - rewrite (replan_fetched_run env chatID w user cal lectures Hu Hurl Hf Hl Hne).
    cbv zeta.
    set (new := reminder_timers env chatID _ _ _ lectures).
    rewrite (update_UserTimers_run _ _ _ (with_lectureTimers [] ut)).
    2:{ simpl. rewrite Hc. simpl. apply lookup_insert_eq. }
    eexists _, new. split; [reflexivity |]. simpl. rewrite Hc. simpl.
    split; [reflexivity |].
    split; [apply reminder_timers_owned |].
    split; [|reflexivity].
    rewrite insert_insert_eq. rewrite stop_list_length. reflexivity.
Qed.

(** Without an entry, a replan that returns has changed neither the timers
    nor the map. *)
Lemma replan_no_entry env chatID w w' :
  timers w !! chatID = None →
  scheduleLectureReminders env chatID w = Some (tt, w') →
  heap w' = heap w ∧ timers w' = timers w ∧ outbox w' = outbox w.
Proof.
  intros Hnone Hrun.
  assert (Hc : lectures_cleared chatID w = w).
  { unfold lectures_cleared. by rewrite Hnone. }
  destruct (replan_cases env chatID (tick w))
    as [Hs|(user & cal & lectures & Hu & Hurl & Hf & Hl & Hne)].
  - destruct (replan_stops_run env chatID w Hs) as [k Hk].
    rewrite Hk, Hc in Hrun. injection Hrun as <-.
    apply iter_next_tick_fields.
  - rewrite (replan_fetched_run env chatID w user cal lectures Hu Hurl Hf Hl Hne) in Hrun.
    cbv zeta in Hrun. unfold update_UserTimers in Hrun. simpl in Hrun.
    rewrite Hc, Hnone in Hrun. discriminate Hrun.
Qed.

(** ** Counting armed timers *)

Lemma count_armed_app p l1 l2 :
  count_armed p (l1 ++ l2) = count_armed p l1 + count_armed p l2.
Proof. unfold count_armed. by rewrite List.filter_app, length_app. Qed.

Lemma count_armed_zero p hp :
  (∀ h t, hp !! h = Some t → t_state t = Armed → p (t_callback t) = false) →
  count_armed p hp = 0.
Proof.
  intros H. apply filter_length_zero. intros h t Ht.
  unfold is_armed. case_bool_decide as Ha; simpl; [|done]. by apply (H h t).
Qed.

Lemma filter_length_le_one {A} (f : A → bool) (l : list A) :
  (∀ i j x y, l !! i = Some x → l !! j = Some y → f x = true → f y = true → i = j) →
  length (List.filter f l) ≤ 1.
Proof.
  induction l as [|a l IH]; intros H; simpl; [lia |].
  destruct (f a) eqn:Hfa; simpl.
  - rewrite filter_length_zero; [lia |].
    intros i x Hi. destruct (f x) eqn:Hfx; [|done].
    by specialize (H 0 (S i) a x eq_refl Hi Hfa Hfx).
  - apply IH. intros i j x y Hi Hj Hx Hy.
    by specialize (H (S i) (S j) x y Hi Hj Hx Hy) as [= ->].
Qed.

Lemma count_armed_reminders p chatID new :
  (∀ f, is_reminder_of chatID f = true → p f = false) →
  Forall (armed_reminder_of chatID) new → count_armed p new = 0.
Proof.
  intros Hp Hnew. apply count_armed_zero. intros h t Ht _.
  apply Hp. rewrite Forall_lookup in Hnew. by destruct (Hnew h t Ht).
Qed.

Lemma is_daily_of_owner chatID f : is_daily_of chatID f = true → owner f = chatID.
Proof. destruct f; simpl; try done. by intros ?%bool_decide_eq_true_1. Qed.
Lemma is_weekly_of_owner chatID f : is_weekly_of chatID f = true → owner f = chatID.
Proof. destruct f; simpl; try done. by intros ?%bool_decide_eq_true_1. Qed.
Lemma is_midnight_of_owner chatID f : is_midnight_of chatID f = true → owner f = chatID.
Proof. destruct f; simpl; try done. by intros ?%bool_decide_eq_true_1. Qed.
Lemma is_reminder_of_owner chatID f : is_reminder_of chatID f = true → owner f = chatID.
Proof. destruct f; simpl; try done. by intros ?%bool_decide_eq_true_1. Qed.

(** A timer that is held is held by the entry of its owner. *)
Lemma referenced_entry w h f : referenced w h f → is_Some (timers w !! owner f).
Proof. destruct f; simpl; intros (ut & Hut & _); by exists ut. Qed.

Lemma referenced_handle w h f ut :
  referenced w h f → timers w !! owner f = Some ut → h ∈ handles_of ut.
Proof.
  unfold handles_of.
  destruct f; simpl; intros (ut' & Hut' & Hh) Hut; simplify_eq;
    rewrite ?Hh; set_solver.
Qed.

(** Without leaks, at most one daily and one weekly timer of a chat are
    armed. *)
Lemma no_leak_daily_le_one chatID w :
  no_leak w → armed_count (is_daily_of chatID) w ≤ 1.
Proof.
  intros Hnl. apply filter_length_le_one. intros i j x y Hi Hj Hx Hy.
  apply andb_true_iff in Hx as [Hxa Hxp]. apply andb_true_iff in Hy as [Hya Hyp].
  apply bool_decide_eq_true_1 in Hxa, Hya.
  pose proof (Hnl i x Hi Hxa) as Hri. pose proof (Hnl j y Hj Hya) as Hrj.
  destruct (t_callback x); simpl in Hxp; try done.
  destruct (t_callback y); simpl in Hyp; try done.
  apply bool_decide_eq_true_1 in Hxp, Hyp. subst.
  destruct Hri as (ut & Hut & Hdi). destruct Hrj as (ut' & Hut' & Hdj).
  congruence.
Qed.

Lemma no_leak_weekly_le_one chatID w :
  no_leak w → armed_count (is_weekly_of chatID) w ≤ 1.
Proof.
  intros Hnl. apply filter_length_le_one. intros i j x y Hi Hj Hx Hy.
  apply andb_true_iff in Hx as [Hxa Hxp]. apply andb_true_iff in Hy as [Hya Hyp].
  apply bool_decide_eq_true_1 in Hxa, Hya.
  pose proof (Hnl i x Hi Hxa) as Hri. pose proof (Hnl j y Hj Hya) as Hrj.
  destruct (t_callback x); simpl in Hxp; try done.
  destruct (t_callback y); simpl in Hyp; try done.
  apply bool_decide_eq_true_1 in Hxp, Hyp. subst.
  destruct Hri as (ut & Hut & Hdi). destruct Hrj as (ut' & Hut' & Hdj).
  congruence.
Qed.

(** After [CancelUser], no timer of the chat is armed, if none was leaked. *)
Lemma cancelled_none_armed chatID w h t :
  no_leak w →
  heap (cancelled chatID w) !! h = Some t → t_state t = Armed →
  owner (t_callback t) ≠ chatID.
Proof.
  intros Hnl Ht Ha Hown. rewrite cancelled_heap in Ht.
  destruct (stop_list_armed _ _ _ _ Ht Ha) as [Ht0 Hnin].
  specialize (Hnl h t Ht0 Ha).
  destruct (referenced_entry _ _ _ Hnl) as [ut Hut].
  pose proof (referenced_handle _ _ _ _ Hnl Hut) as Hin.
  rewrite Hown in Hut. rewrite Hut in Hnin. simpl in Hnin. done.
Qed.

Lemma cancelled_count_zero p chatID w :
  (∀ f, p f = true → owner f = chatID) →
  no_leak w → count_armed p (heap (cancelled chatID w)) = 0.
Proof.
  intros Hp Hnl. apply count_armed_zero. intros h t Ht Ha.
  destruct (p (t_callback t)) eqn:Hpt; [|done].
  destruct (cancelled_none_armed chatID w h t Hnl Ht Ha). by apply Hp.
Qed.

(** ** The phases of ScheduleUser *)

Lemma arm_dailyTimer_run env chatID user w ut :
  timers w !! chatID = Some ut →
  ∃ d, arm_dailyTimer env chatID user w =
    Some (tt, {| heap := heap w ++ [armed_timer d (DailyCb chatID)];
                 timers := <[chatID := with_dailyTimer (length (heap w)) ut]> (timers w);
                 outbox := outbox w;
                 tick := S (S (tick w)) |}).
Proof.
  intros Hut. eexists. unfold arm_dailyTimer, time_Until, AfterFunc. unfold_M.
  unfold update_UserTimers. simpl. rewrite Hut. reflexivity.
Qed.

Lemma arm_weeklyTimer_run env chatID user w ut :
  timers w !! chatID = Some ut →
  ∃ d, arm_weeklyTimer env chatID user w =
    Some (tt, {| heap := heap w ++ [armed_timer d (WeeklyCb chatID)];
                 timers := <[chatID := with_weeklyTimer (length (heap w)) ut]> (timers w);
                 outbox := outbox w;
                 tick := S (S (tick w)) |}).
Proof.
  intros Hut. eexists. unfold arm_weeklyTimer, time_Until, AfterFunc. unfold_M.
  unfold update_UserTimers. simpl. rewrite Hut. reflexivity.
Qed.

Lemma midnight_run env chatID w ut :
  timers w !! chatID = Some ut →
  ∃ d, scheduleLectureRemindersAtMidnight env chatID w =
    scheduleLectureReminders env chatID
      {| heap := heap w ++ [armed_timer d (MidnightCb chatID)];
         timers := <[chatID := with_lectureScheduler (length (heap w)) ut]> (timers w);
         outbox := outbox w;
         tick := S (S (tick w)) |}.
Proof.
  intros Hut. eexists.
  unfold scheduleLectureRemindersAtMidnight, time_Until, AfterFunc. unfold_M.
  unfold update_UserTimers. simpl. rewrite Hut. reflexivity.
Qed.

(** Without an entry the midnight re-planner panics at its store. *)
Lemma midnight_no_entry env chatID w :
  timers w !! chatID = None →
  scheduleLectureRemindersAtMidnight env chatID w = None.
Proof.
  intros Hnone.
  unfold scheduleLectureRemindersAtMidnight, time_Until, AfterFunc. unfold_M.
  unfold update_UserTimers. simpl. by rewrite Hnone.
Qed.

Lemma ScheduleUser_lookup_readable env chatID w user :
  db_GetUser env (tick w) chatID = (Some user, None) →
  ScheduleUser_lookup env chatID w =
  Some (ScheduleUser_phases env chatID user, next_tick w).
Proof. intros Hu. unfold ScheduleUser_lookup. unfold_M. by rewrite Hu. Qed.

Lemma ScheduleUser_lookup_unreadable env chatID w :
  (db_GetUser env (tick w) chatID).2 ≠ None ∨ (db_GetUser env (tick w) chatID).1 = None →
  ScheduleUser_lookup env chatID w = Some ([], next_tick w).
Proof.
  intros Hr. unfold ScheduleUser_lookup. unfold_M.
  destruct (db_GetUser env (tick w) chatID) as [[user|] [err|]]; simpl in *;
    try reflexivity.
  destruct Hr as [Hr|Hr]; congruence.
Qed.

Lemma lookup_readable_or_not env chatID n :
  (∃ user, db_GetUser env n chatID = (Some user, None)) ∨
  ((db_GetUser env n chatID).2 ≠ None ∨ (db_GetUser env n chatID).1 = None).
Proof.
  destruct (db_GetUser env n chatID) as [[user|] [err|]]; simpl; eauto.
Qed.

(** The five phases, one after the other, from a world [w0]; the worlds in
    between. *)
Lemma ScheduleUser_phases_run env chatID user w0 :
  let n := length (heap w0) in
  let w1 := cancelled chatID w0 in
  let w2 := set_timers (<[chatID := UserTimers_zero]> (timers w1)) w1 in
  ∃ d1 d2 d3 new w3 w4 w5,
    CancelUser chatID w0 = Some (tt, w1) ∧
    install_UserTimers chatID w1 = Some (tt, w2) ∧
    arm_dailyTimer env chatID user w2 = Some (tt, w3) ∧
    arm_weeklyTimer env chatID user w3 = Some (tt, w4) ∧
    scheduleLectureRemindersAtMidnight env chatID w4 = Some (tt, w5) ∧
    heap w3 = heap w1 ++ [armed_timer d1 (DailyCb chatID)] ∧
    heap w4 = heap w1 ++ [armed_timer d1 (DailyCb chatID); armed_timer d2 (WeeklyCb chatID)] ∧
    heap w5 =
      heap w1
        ++ [armed_timer d1 (DailyCb chatID); armed_timer d2 (WeeklyCb chatID);
            armed_timer d3 (MidnightCb chatID)]
        ++ new ∧
    Forall (armed_reminder_of chatID) new ∧
    timers w5 = <[chatID := fresh_UserTimers n (length new)]> (timers w0) ∧
    outbox w5 = outbox w0.
Proof.
  intros n w1 w2.
  assert (Hlen1 : length (heap w1) = n).
  { unfold w1. rewrite cancelled_heap. apply stop_list_length. }
  assert (H2 : timers w2 !! chatID = Some UserTimers_zero) by apply lookup_insert_eq.
  destruct (arm_dailyTimer_run env chatID user w2 _ H2) as [d1 Hd].
  set (w3 := {| heap := heap w2 ++ [armed_timer d1 (DailyCb chatID)];
                timers := <[chatID := with_dailyTimer (length (heap w2)) UserTimers_zero]> (timers w2);
                outbox := outbox w2; tick := S (S (tick w2)) |}) in Hd.
  assert (H3 : timers w3 !! chatID = Some (with_dailyTimer (length (heap w2)) UserTimers_zero))
    by apply lookup_insert_eq.
  destruct (arm_weeklyTimer_run env chatID user w3 _ H3) as [d2 Hw].
  set (w4 := {| heap := heap w3 ++ [armed_timer d2 (WeeklyCb chatID)];
                timers := <[chatID := with_weeklyTimer (length (heap w3))
                                        (with_dailyTimer (length (heap w2)) UserTimers_zero)]> (timers w3);
                outbox := outbox w3; tick := S (S (tick w3)) |}) in Hw.
  assert (H4 : timers w4 !! chatID =
               Some (with_weeklyTimer (length (heap w3))
                       (with_dailyTimer (length (heap w2)) UserTimers_zero)))
    by apply lookup_insert_eq.
  destruct (midnight_run env chatID w4 _ H4) as [d3 Hm].
  match type of Hm with _ = scheduleLectureReminders _ _ ?w => set (w4' := w) in Hm end.
  assert (H4' : timers w4' !! chatID =
                Some (with_lectureScheduler (length (heap w4))
                        (with_weeklyTimer (length (heap w3))
                           (with_dailyTimer (length (heap w2)) UserTimers_zero))))
    by apply lookup_insert_eq.
  destruct (replan_shape env chatID w4' _ H4') as (w5 & new & Hr & Hh5 & Hnew & Ht5 & Ho5).
  exists d1, d2, d3, new, w3, w4, w5.
  split; [apply CancelUser_run |]. split; [reflexivity |].
  split; [exact Hd |]. split; [exact Hw |]. split; [by rewrite Hm |].
  split; [reflexivity |].
  split; [simpl; by rewrite <- app_assoc |].
  split; [rewrite Hh5; simpl; unfold stop_list; simpl; by rewrite <- !app_assoc |].
  split; [exact Hnew |].
  split.
  - rewrite Ht5. simpl. rewrite !insert_insert_eq.
    unfold w1. rewrite cancelled_timers, insert_delete_eq.
    f_equal. rewrite !length_app. simpl.
    fold w1. rewrite Hlen1.
    unfold fresh_UserTimers, with_lectureTimers, with_lectureScheduler,
      with_weeklyTimer, with_dailyTimer. simpl.
    rewrite !Nat.add_1_r. reflexivity.
  - rewrite Ho5. simpl. unfold w1. apply cancelled_outbox.
Qed.

Lemma ScheduleUser_readable_shape env chatID user w :
  db_GetUser env (tick w) chatID = (Some user, None) →
  ∃ w', ScheduleUser env chatID w = Some (tt, w') ∧ scheduled_shape chatID w w'.
Proof.
  intros Hu.
  destruct (ScheduleUser_phases_run env chatID user (next_tick w))
    as (d1 & d2 & d3 & new & w3 & w4 & w5 & Hc & Hi & Hd & Hw & Hm & _ & _ & Hh & Hnew & Ht & Ho).
  exists w5. split.
  - unfold ScheduleUser, mbind, M_bind.
    rewrite (ScheduleUser_lookup_readable env chatID w user Hu).
    unfold run_phases, ScheduleUser_phases. simpl. unfold mbind, M_bind, id.
    rewrite Hc, Hi, Hd, Hw, Hm. reflexivity.
  - exists d1, d2, d3, new. rewrite Hh, Ht, Ho, !cancelled_heap. done.
Qed.

Lemma count_armed_cons_armed p d f hp :
  count_armed p (armed_timer d f :: hp) = (if p f then 1 else 0) + count_armed p hp.
Proof. unfold count_armed. simpl. by destruct (p f). Qed.

Lemma count_armed_nil p : count_armed p [] = 0.
Proof. reflexivity. Qed.

Lemma is_daily_of_refl chatID : is_daily_of chatID (DailyCb chatID) = true.
Proof. simpl. by apply bool_decide_eq_true_2. Qed.
Lemma is_weekly_of_refl chatID : is_weekly_of chatID (WeeklyCb chatID) = true.
Proof. simpl. by apply bool_decide_eq_true_2. Qed.

Lemma referenced_ext w w' h f :
  timers w' !! owner f = timers w !! owner f → referenced w h f → referenced w' h f.
Proof. destruct f; simpl; intros ->; done. Qed.

(** A world of the shape [ScheduleUser] produces has no leak, when the
    world before had none. *)
Lemma scheduled_shape_no_leak chatID w w' :
  no_leak w → scheduled_shape chatID w w' → no_leak w'.
Proof.
  intros Hnl (d1 & d2 & d3 & new & Hh & Hnew & Ht & _) h t Hl Ha.
  assert (Hlen : length (heap (cancelled chatID w)) = length (heap w)).
  { rewrite cancelled_heap. apply stop_list_length. }
  assert (Hentry : timers w' !! chatID =
                   Some (fresh_UserTimers (length (heap w)) (length new))).
  { rewrite Ht. apply lookup_insert_eq. }
  rewrite Hh in Hl.
  destruct (decide (h < length (heap w))) as [Hlt|Hge].
  - rewrite lookup_app_l in Hl by lia.
    pose proof (cancelled_none_armed chatID w h t Hnl Hl Ha) as Hown.
    rewrite cancelled_heap in Hl.
    destruct (stop_list_armed _ _ _ _ Hl Ha) as [Hl0 _].
    apply (referenced_ext w); [|by apply Hnl].
    rewrite Ht. by apply lookup_insert_ne.
  - rewrite lookup_app_r in Hl by lia. rewrite Hlen in Hl.
    destruct (h - length (heap w)) as [|[|[|k]]] eqn:Hk; simpl in Hl.
    + injection Hl as <-. simpl. eexists. split; [exact Hentry |].
      simpl. f_equal. lia.
    + injection Hl as <-. simpl. eexists. split; [exact Hentry |].
      simpl. f_equal. lia.
    + injection Hl as <-. simpl. eexists. split; [exact Hentry |].
      simpl. f_equal. lia.
    + rewrite Forall_lookup in Hnew. destruct (Hnew k t Hl) as [_ Hrem].
      apply lookup_lt_Some in Hl.
      destruct (t_callback t) as [| | |i l o]; simpl in Hrem; try done.
      apply bool_decide_eq_true_1 in Hrem. subst i. simpl.
      eexists. split; [exact Hentry |]. simpl.
      apply elem_of_seq. lia.
Qed.

Lemma scheduled_shape_counts chatID w w' :
  no_leak w → scheduled_shape chatID w w' →
  armed_count (is_daily_of chatID) w' = 1 ∧ armed_count (is_weekly_of chatID) w' = 1.
Proof.
  intros Hnl (d1 & d2 & d3 & new & Hh & Hnew & _ & _).
  unfold armed_count. rewrite Hh. rewrite !count_armed_app.
  rewrite !count_armed_cons_armed, !count_armed_nil.
  rewrite !is_daily_of_refl, !is_weekly_of_refl. simpl.
  rewrite (cancelled_count_zero _ chatID w (is_daily_of_owner chatID) Hnl).
  rewrite (cancelled_count_zero _ chatID w (is_weekly_of_owner chatID) Hnl).
  rewrite (count_armed_reminders (is_daily_of chatID) chatID new); [|by intros []|done].
  rewrite (count_armed_reminders (is_weekly_of chatID) chatID new); [|by intros []|done].
  done.
Qed.

(** The instants between the phases: at none of them is more than one
    daily or more than one weekly timer of the chat armed. *)
Lemma ScheduleUser_instants env chatID user w0 k :
  no_leak w0 →
  ∃ wk, run_phases (take k (ScheduleUser_phases env chatID user)) w0 = Some (tt, wk) ∧
    armed_count (is_daily_of chatID) wk ≤ 1 ∧
    armed_count (is_weekly_of chatID) wk ≤ 1.
Proof.
  intros Hnl.
  destruct (ScheduleUser_phases_run env chatID user w0)
    as (d1 & d2 & d3 & new & w3 & w4 & w5 & Hc & Hi & Hd & Hw & Hm & Hh3 & Hh4 & Hh5 & Hnew & _ & _).
  pose proof (cancelled_count_zero _ chatID w0 (is_daily_of_owner chatID) Hnl) as Hcd.
  pose proof (cancelled_count_zero _ chatID w0 (is_weekly_of_owner chatID) Hnl) as Hcw.
  unfold run_phases, ScheduleUser_phases.
  destruct k as [|[|[|[|[|k]]]]]; simpl; unfold mbind, M_bind, id, mret, M_ret.
  - exists w0. split; [done |].
    split; [by apply no_leak_daily_le_one | by apply no_leak_weekly_le_one].
  - rewrite Hc. eexists. split; [done |]. unfold armed_count. lia.
  - rewrite Hc, Hi. eexists. split; [done |]. unfold armed_count. simpl. lia.
  - rewrite Hc, Hi, Hd. eexists. split; [done |]. unfold armed_count.
    rewrite Hh3, !count_armed_app, !count_armed_cons_armed, !count_armed_nil.
    rewrite is_daily_of_refl. simpl. lia.
  - rewrite Hc, Hi, Hd, Hw. eexists. split; [done |]. unfold armed_count.
    rewrite Hh4, !count_armed_app, !count_armed_cons_armed, !count_armed_nil.
    rewrite is_daily_of_refl, is_weekly_of_refl. simpl. lia.
  - rewrite Hc, Hi, Hd, Hw, Hm. rewrite take_nil. simpl.
    eexists. split; [done |]. unfold armed_count.
    rewrite Hh5, !count_armed_app, !count_armed_cons_armed, !count_armed_nil.
    rewrite is_daily_of_refl, is_weekly_of_refl. simpl.
    rewrite (count_armed_reminders (is_daily_of chatID) chatID new); [|by intros []|done].
    rewrite (count_armed_reminders (is_weekly_of chatID) chatID new); [|by intros []|done].
    lia.
Qed.

(** C1: for an identity whose user record is read (no error, a record),
    ScheduleUser returns without a panic, and then the identity has one
    entry, whose daily field holds an armed timer running the daily
    closure and whose weekly field holds an armed timer running the weekly
    closure, another timer.  If no armed timer was leaked before the call, these are the
    only armed daily and weekly timers of the identity among all timers
    (exactly one each), none is leaked after the call, and at every instant
    between two phases of the call at most one daily and at most one weekly
    timer of the identity is armed. *)
Theorem ScheduleUser_one_daily_one_weekly (env : Env) (chatID : Z) (user : User)
    (w : World) :
  db_GetUser env (tick w) chatID = (Some user, None) →
  ∃ w' ut d wk dd dw,
    ScheduleUser env chatID w = Some (tt, w') ∧
    timers w' !! chatID = Some ut ∧
    dailyTimer ut = Some d ∧
    heap w' !! d = Some (armed_timer dd (DailyCb chatID)) ∧
    weeklyTimer ut = Some wk ∧
    heap w' !! wk = Some (armed_timer dw (WeeklyCb chatID)) ∧
    d ≠ wk ∧
    (no_leak w →
       armed_count (is_daily_of chatID) w' = 1 ∧
       armed_count (is_weekly_of chatID) w' = 1 ∧
       no_leak w' ∧
       ∀ k, ∃ wk,
         run_phases (take k (ScheduleUser_phases env chatID user)) (next_tick w)
           = Some (tt, wk) ∧
         armed_count (is_daily_of chatID) wk ≤ 1 ∧
         armed_count (is_weekly_of chatID) wk ≤ 1).
Proof.
  intros Hu.
  destruct (ScheduleUser_readable_shape env chatID user w Hu) as (w' & Hrun & Hshape).
  pose proof (scheduled_shape_counts chatID w w') as Hcount.
  pose proof (scheduled_shape_no_leak chatID w w') as Hnl'.
  pose proof Hshape as (d1 & d2 & d3 & new & Hh & Hnew & Ht & _).
  assert (Hlen : length (heap (cancelled chatID w)) = length (heap w)).
  { rewrite cancelled_heap. apply stop_list_length. }
  exists w', (fresh_UserTimers (length (heap w)) (length new)),
    (length (heap w)), (S (length (heap w))), d1, d2.
  split; [exact Hrun |].
  split; [rewrite Ht; apply lookup_insert_eq |].
  split; [reflexivity |].
  split.
  { rewrite Hh, lookup_app_r by lia. rewrite Hlen, Nat.sub_diag. reflexivity. }
  split; [reflexivity |].
  split.
  { rewrite Hh, lookup_app_r by lia. rewrite Hlen.
    replace (S (length (heap w)) - length (heap w)) with 1 by lia. reflexivity. }
  split; [lia |].
  intros Hnl. destruct (Hcount Hnl Hshape) as [Hcd Hcw].
  split; [exact Hcd |]. split; [exact Hcw |]. split; [by apply Hnl' |].
  intros k. apply ScheduleUser_instants. exact Hnl.
Qed.

(** Chat 7 is scheduled again while all its timers are armed: the old
    daily and weekly timers are stopped, and one of each is armed. *)
Example ScheduleUser_one_daily_one_weekly_witness :
  ∃ w', ScheduleUser sample_env 7 sample_scheduled = Some (tt, w') ∧
    armed_count (is_daily_of 7) sample_scheduled = 1 ∧
    armed_count (is_daily_of 7) w' = 1 ∧
    armed_count (is_weekly_of 7) w' = 1 ∧
    no_leak w'.
Proof.
  destruct (ScheduleUser_one_daily_one_weekly sample_env 7 alice sample_scheduled)
    as (w' & ut & d & wk & dd & dw & Hrun & _ & _ & _ & _ & _ & _ & Hnl).
  - reflexivity.
  - destruct (Hnl sample_scheduled_no_leak) as (Hd & Hw & Hnl' & _).
    exists w'. split; [exact Hrun |]. split; [reflexivity |].
    split; [exact Hd |]. split; [exact Hw | exact Hnl'].
Defined.

(** ** StopAll *)

Lemma for_each_CancelUser keys w :
  for_each keys CancelUser w = Some (tt, cancel_all keys w).
Proof.
  revert w. induction keys as [|k keys IH]; intros w; [reflexivity |].
  simpl. unfold mbind, M_bind. rewrite CancelUser_run. apply IH.
Qed.

Lemma cancel_all_outbox keys w : outbox (cancel_all keys w) = outbox w.
Proof.
  revert w. induction keys as [|k keys IH]; intros w; [reflexivity |].
  change (cancel_all (k :: keys) w) with (cancel_all keys (cancelled k w)).
  by rewrite IH, cancelled_outbox.
Qed.

Lemma cancel_all_tick keys w : tick (cancel_all keys w) = tick w.
Proof.
  revert w. induction keys as [|k keys IH]; intros w; [reflexivity |].
  change (cancel_all (k :: keys) w) with (cancel_all keys (cancelled k w)).
  by rewrite IH, cancelled_tick.
Qed.

Lemma cancel_all_timers_lookup keys w k :
  timers (cancel_all keys w) !! k =
  if bool_decide (k ∈ keys) then None else timers w !! k.
Proof.
  revert w. induction keys as [|k0 keys IH]; intros w.
  - reflexivity.
  - change (cancel_all (k0 :: keys) w) with (cancel_all keys (cancelled k0 w)).
    rewrite IH, cancelled_timers.
    destruct (decide (k = k0)) as [->|Hne].
    + rewrite lookup_delete_eq.
      rewrite (bool_decide_eq_true_2 (k0 ∈ k0 :: keys)) by left.
      by case_bool_decide.
    + rewrite lookup_delete_ne by done.
      rewrite (bool_decide_ext (k ∈ k0 :: keys) (k ∈ keys)); [done |].
      rewrite elem_of_cons. split; [intros [?|?]; done | by right].
Qed.

Lemma elem_of_handles_in keys w h :
  h ∈ handles_in keys w ↔
  ∃ k ut, k ∈ keys ∧ timers w !! k = Some ut ∧ h ∈ handles_of ut.
Proof.
  unfold handles_in. rewrite list_elem_of_bind. split.
  - intros (k & Hh & Hk). destruct (timers w !! k) as [ut|] eqn:E; simpl in Hh.
    + by exists k, ut.
    + by apply not_elem_of_nil in Hh.
  - intros (k & ut & Hk & Hut & Hh). exists k. rewrite Hut. done.
Qed.

Lemma cancel_all_heap_lookup keys w h :
  heap (cancel_all keys w) !! h =
  (if bool_decide (h ∈ handles_in keys w) then stop_timer else id) <$> heap w !! h.
Proof.
  revert w. induction keys as [|k keys IH]; intros w.
  - simpl. by destruct (heap w !! h).
  - change (cancel_all (k :: keys) w) with (cancel_all keys (cancelled k w)).
    rewrite IH, cancelled_heap, stop_list_lookup.
    destruct (heap w !! h) as [t|]; simpl; [|done]. f_equal.
    assert (Hsplit : h ∈ handles_in (k :: keys) w ↔
                     h ∈ from_option handles_of [] (timers w !! k) ∨
                     h ∈ handles_in keys (cancelled k w)).
    { rewrite !elem_of_handles_in. split.
      - intros (k' & ut & Hk' & Hut & Hh).
        destruct (decide (k' = k)) as [->|Hne].
        + left. by rewrite Hut.
        + right. exists k', ut. apply elem_of_cons in Hk' as [?|Hk']; [done |].
          rewrite cancelled_timers, lookup_delete_ne by done. done.
      - intros [Hh|(k' & ut & Hk' & Hut & Hh)].
        + destruct (timers w !! k) as [ut|] eqn:E; simpl in Hh.
          * exists k, ut. split; [left |]; done.
          * by apply not_elem_of_nil in Hh.
        + rewrite cancelled_timers in Hut.
          apply lookup_delete_Some in Hut as [Hne Hut].
          exists k', ut. split; [by right | done]. }
    repeat case_bool_decide; simpl; rewrite ?stop_timer_idem; try done; tauto.
Qed.

Lemma cancel_all_length keys w : length (heap (cancel_all keys w)) = length (heap w).
Proof.
  revert w. induction keys as [|k keys IH]; intros w; [reflexivity |].
  change (cancel_all (k :: keys) w) with (cancel_all keys (cancelled k w)).
  rewrite IH, cancelled_heap. apply stop_list_length.
Qed.

(** Any two orders of the same keys give the same world. *)
Lemma cancel_all_order keys1 keys2 w :
  (∀ k, k ∈ keys1 ↔ k ∈ keys2) → cancel_all keys1 w = cancel_all keys2 w.
Proof.
  intros Hk.
  assert (Hh : heap (cancel_all keys1 w) = heap (cancel_all keys2 w)).
  { apply list_eq. intros h. rewrite !cancel_all_heap_lookup.
    rewrite (bool_decide_ext (h ∈ handles_in keys1 w) (h ∈ handles_in keys2 w)); [done |].
    rewrite !elem_of_handles_in. by setoid_rewrite Hk. }
  assert (Ht : timers (cancel_all keys1 w) = timers (cancel_all keys2 w)).
  { apply map_eq. intros k. rewrite !cancel_all_timers_lookup.
    by rewrite (bool_decide_ext (k ∈ keys1) (k ∈ keys2)). }
  pose proof (cancel_all_outbox keys1 w) as Ho1.
  pose proof (cancel_all_outbox keys2 w) as Ho2.
  pose proof (cancel_all_tick keys1 w) as Hc1.
  pose proof (cancel_all_tick keys2 w) as Hc2.
  destruct (cancel_all keys1 w), (cancel_all keys2 w). simpl in *. congruence.
Qed.

Lemma elem_of_map_keys (m : gmap Z UserTimers) k :
  k ∈ (map_to_list m).*1 ↔ is_Some (m !! k).
Proof.
  rewrite list_elem_of_fmap. split.
  - intros ([k' ut] & -> & Hin). apply elem_of_map_to_list in Hin. by exists ut.
  - intros [ut Hut]. exists (k, ut). split; [done |]. by apply elem_of_map_to_list.
Qed.

Lemma StopAll_run w :
  StopAll w = Some (tt, cancel_all ((map_to_list (timers w)).*1) w).
Proof. unfold StopAll, StopAll_in_order, mbind, M_bind, get. apply for_each_CancelUser. Qed.

(** [fire] needs an armed timer. *)
Lemma fire_none env h w :
  (∀ t, heap w !! h = Some t → t_state t ≠ Armed) → fire env h w = None.
Proof.
  intros H. unfold fire. destruct (heap w !! h) as [t|] eqn:E; [|done].
  unfold is_armed. by rewrite bool_decide_eq_false_2 by by apply H.
Qed.


(** ** Two invocations of ScheduleUser *)

Lemma next_tick_no_leak w : no_leak w → no_leak (next_tick w).
Proof. intros Hnl h t Ht Ha. apply (referenced_ext w); [done |]. by apply Hnl. Qed.

(** ScheduleUser returns and leaks nothing. *)
Lemma ScheduleUser_no_leak env chatID w :
  no_leak w → ∃ w', ScheduleUser env chatID w = Some (tt, w') ∧ no_leak w'.
Proof.
  intros Hnl.
  destruct (lookup_readable_or_not env chatID (tick w)) as [[user Hu]|Hr].
  - destruct (ScheduleUser_readable_shape env chatID user w Hu) as (w' & Hrun & Hshape).
    exists w'. split; [exact Hrun |]. by apply (scheduled_shape_no_leak chatID w).
  - exists (next_tick w). split; [|by apply next_tick_no_leak].
    unfold ScheduleUser, mbind, M_bind.
    by rewrite (ScheduleUser_lookup_unreadable env chatID w Hr).
Qed.

Lemma interleave_app env s1 s2 g1 g2 w :
  interleave env (s1 ++ s2) g1 g2 w =
  match interleave env s1 g1 g2 w with
  | Some ((g1', g2'), w') => interleave env s2 g1' g2' w'
  | None => None
  end.
Proof.
  revert g1 g2 w. induction s1 as [|[] s1 IH]; intros g1 g2 w; simpl.
  - reflexivity.
  - unfold mbind, M_bind. destruct (goroutine_step env g1 w) as [[g1' w1]|]; [|done].
    apply IH.
  - unfold mbind, M_bind. destruct (goroutine_step env g2 w) as [[g2' w1]|]; [|done].
    apply IH.
Qed.

(** A goroutine that is alone runs its phases as [run_phases] does. *)
Lemma interleave_left_phases env phases n g2 w w' :
  run_phases phases w = Some (tt, w') →
  length phases ≤ n →
  interleave env (replicate n true) (Running phases) g2 w = Some ((Running [], g2), w').
Proof.
  revert phases w. induction n as [|n IH]; intros phases w Hrun Hlen.
  - destruct phases; [|simpl in Hlen; lia]. simpl.
    unfold run_phases in Hrun. simpl in Hrun. unfold_M. congruence.
  - destruct phases as [|phase rest].
    + unfold run_phases in Hrun. simpl in Hrun. unfold mret, M_ret in Hrun.
      injection Hrun as <-. simpl. unfold_M. by apply (IH []); [|simpl; lia].
    + unfold run_phases in Hrun. simpl in Hrun. unfold mbind, M_bind, id in Hrun.
      simpl. unfold mbind, M_bind. simpl.
      destruct (phase w) as [[[] w1]|]; [|done]. unfold mret, M_ret.
      apply IH; [exact Hrun | simpl in Hlen; lia].
Qed.

Lemma interleave_right_phases env phases n g1 w w' :
  run_phases phases w = Some (tt, w') →
  length phases ≤ n →
  interleave env (replicate n false) g1 (Running phases) w = Some ((g1, Running []), w').
Proof.
  revert phases w. induction n as [|n IH]; intros phases w Hrun Hlen.
  - destruct phases; [|simpl in Hlen; lia]. simpl.
    unfold run_phases in Hrun. simpl in Hrun. unfold_M. congruence.
  - destruct phases as [|phase rest].
    + unfold run_phases in Hrun. simpl in Hrun. unfold mret, M_ret in Hrun.
      injection Hrun as <-. simpl. unfold_M. by apply (IH []); [|simpl; lia].
    + unfold run_phases in Hrun. simpl in Hrun. unfold mbind, M_bind, id in Hrun.
      simpl. unfold mbind, M_bind. simpl.
      destruct (phase w) as [[[] w1]|]; [|done]. unfold mret, M_ret.
      apply IH; [exact Hrun | simpl in Hlen; lia].
Qed.

Lemma ScheduleUser_lookup_length env chatID w phases w1 :
  ScheduleUser_lookup env chatID w = Some (phases, w1) → length phases ≤ 5.
Proof.
  unfold ScheduleUser_lookup. unfold_M.
  destruct (db_GetUser env (tick w) chatID) as [[user|] [err|]];
    intros [= <- <-]; simpl; lia.
Qed.

(** An invocation that is alone from its start to its end is
    [ScheduleUser]. *)
Lemma interleave_left_alone env chatID g2 w w' :
  ScheduleUser env chatID w = Some (tt, w') →
  interleave env (replicate 6 true) (NotStarted chatID) g2 w = Some ((Running [], g2), w').
Proof.
  unfold ScheduleUser, mbind, M_bind. intros Hrun.
  destruct (ScheduleUser_lookup env chatID w) as [[phases w1]|] eqn:Hl; [|done].
  change (replicate 6 true) with ([true] ++ replicate 5 true). rewrite interleave_app.
  assert (Hstep : interleave env [true] (NotStarted chatID) g2 w = Some ((Running phases, g2), w1)).
  { simpl. unfold mbind, M_bind. simpl. unfold mbind, M_bind. by rewrite Hl. }
  rewrite Hstep.
  apply interleave_left_phases; [exact Hrun |].
  by apply (ScheduleUser_lookup_length env chatID w phases w1).
Qed.

Lemma interleave_right_alone env chatID g1 w w' :
  ScheduleUser env chatID w = Some (tt, w') →
  interleave env (replicate 6 false) g1 (NotStarted chatID) w = Some ((g1, Running []), w').
Proof.
  unfold ScheduleUser, mbind, M_bind. intros Hrun.
  destruct (ScheduleUser_lookup env chatID w) as [[phases w1]|] eqn:Hl; [|done].
  change (replicate 6 false) with ([false] ++ replicate 5 false). rewrite interleave_app.
  assert (Hstep : interleave env [false] g1 (NotStarted chatID) w = Some ((g1, Running phases), w1)).
  { simpl. unfold mbind, M_bind. simpl. unfold mbind, M_bind. by rewrite Hl. }
  rewrite Hstep.
  apply interleave_right_phases; [exact Hrun |].
  by apply (ScheduleUser_lookup_length env chatID w phases w1).
Qed.

(** C9, as the code has it: [Scheduler] holds no lock.  Two invocations of
    ScheduleUser for one identity of which the second starts when the first
    has returned both return; then at most one daily and at most one weekly
    timer of the identity are armed and no armed timer is leaked, if none
    was before. *)
Theorem ScheduleUser_one_after_the_other (env : Env) (chatID : Z) (w : World) :
  no_leak w →
  ∃ w',
    interleave env serial_schedule (NotStarted chatID) (NotStarted chatID) w
      = Some ((Running [], Running []), w') ∧
    (ScheduleUser env chatID;; ScheduleUser env chatID) w = Some (tt, w') ∧
    armed_count (is_daily_of chatID) w' ≤ 1 ∧
    armed_count (is_weekly_of chatID) w' ≤ 1 ∧
    no_leak w'.
Proof.
  intros Hnl.
  destruct (ScheduleUser_no_leak env chatID w Hnl) as (w1 & Hrun1 & Hnl1).
  destruct (ScheduleUser_no_leak env chatID w1 Hnl1) as (w2 & Hrun2 & Hnl2).
  exists w2. split; [|split; [|split; [|split]]].
  - unfold serial_schedule. rewrite interleave_app.
    rewrite (interleave_left_alone env chatID _ w w1 Hrun1).
    by apply interleave_right_alone.
  - unfold mbind, M_bind. by rewrite Hrun1.
  - by apply no_leak_daily_le_one.
  - by apply no_leak_weekly_le_one.
  - exact Hnl2.
Qed.

(** Chat 7 is scheduled twice in a row on a new scheduler. *)
Example ScheduleUser_one_after_the_other_witness :
  ∃ w',
    interleave sample_env serial_schedule (NotStarted 7) (NotStarted 7) NewScheduler
      = Some ((Running [], Running []), w') ∧
    armed_count (is_daily_of 7) w' ≤ 1 ∧
    no_leak w'.
Proof.
  destruct (ScheduleUser_one_after_the_other sample_env 7 NewScheduler)
    as (w' & Hrun & _ & Hd & _ & Hnl).
  - intros h t Ht. simpl in Ht. discriminate Ht.
  - exists w'. split; [exact Hrun |]. split; [exact Hd | exact Hnl].
Defined.

(** C9, counterexample: in the sample environment, with the schedule
    [racy_schedule], both invocations for chat 7 return, and then two
    daily timers of chat 7 are armed (ten timers in all), of which the
    entry holds one: the timers of the invocation that finished first are
    leaked. *)
Lemma interleaved_ScheduleUser_not_serialized :
  (∃ w', interleave sample_env racy_schedule (NotStarted 7) (NotStarted 7) NewScheduler
           = Some ((Running [], Running []), w') ∧
         armed_count (is_daily_of 7) w' = 2 ∧
         armed_count (λ _, true) w' = 10 ∧
         (timers w' !! 7%Z) ≫= dailyTimer = Some 5 ∧
         ¬ no_leak w') ∧
  ¬ serialized sample_env 7.
Proof.
  destruct (interleave sample_env racy_schedule (NotStarted 7) (NotStarted 7) NewScheduler)
    as [[[g1 g2] w']|] eqn:E; vm_compute in E; [|discriminate E].
  injection E as <- <- <-.
  assert (Hcount : armed_count (is_daily_of 7)
            {| heap := heap (default NewScheduler
                 (exec (interleave sample_env racy_schedule (NotStarted 7) (NotStarted 7))
                    NewScheduler));
               timers := ∅; outbox := []; tick := 0 |} = 2) by (vm_compute; reflexivity).
  split.
  - eexists. split; [reflexivity |].
    split; [vm_compute; reflexivity |].
    split; [vm_compute; reflexivity |].
    split; [vm_compute; reflexivity |].
    intros Hnl.
    specialize (Hnl 0 (armed_timer 73800000000000 (DailyCb 7)) eq_refl eq_refl).
    destruct Hnl as (ut & Hut & Hd). vm_compute in Hut.
    injection Hut as <-. discriminate Hd.
  - intros Hser.
    destruct (Hser racy_schedule NewScheduler (Running []) (Running [])
                (default NewScheduler
                   (exec (interleave sample_env racy_schedule (NotStarted 7) (NotStarted 7))
                      NewScheduler))) as [Hle _].
    + intros h t Ht. simpl in Ht. discriminate Ht.
    + vm_compute. reflexivity.
    + vm_compute in Hle. lia.
Qed.

(** Beyond the range of [time.Duration] the lead time wraps around: with a
    lead of 153722868 minutes (about 292 years) the reminder moment of the
    code lies after the start of the lecture. *)
Example reminderTime_of_wraps :
  reminderTime_of (lecture_at "Logic" 9) 153722868 =
    (Start (lecture_at "Logic" 9) + 9223371993709551616)%Z.
Proof. reflexivity. Qed.

(** ** No operation leaks a timer

    From a world without leaked timers, no operation of the scheduler and
    no firing timer panics, and each ends in a world without leaked timers.
    So every world a sequential run reaches from [NewScheduler] is without
    leaks. *)

Lemma same_state_no_leak w w' :
  heap w' = heap w → timers w' = timers w → no_leak w → no_leak w'.
Proof.
  intros Hh Ht Hnl h t Hl Ha. rewrite Hh in Hl.
  apply (referenced_ext w); [by rewrite Ht |]. by apply Hnl.
Qed.

Lemma cancelled_no_leak chatID w : no_leak w → no_leak (cancelled chatID w).
Proof.
  intros Hnl h t Hl Ha.
  pose proof (cancelled_none_armed chatID w h t Hnl Hl Ha) as Hown.
  rewrite cancelled_heap in Hl.
  destruct (stop_list_armed _ _ _ _ Hl Ha) as [Hl0 _].
  apply (referenced_ext w); [|by apply Hnl].
  rewrite cancelled_timers. by apply lookup_delete_ne.
Qed.

Lemma cancel_all_no_leak keys w : no_leak w → no_leak (cancel_all keys w).
Proof.
  revert w. induction keys as [|k keys IH]; intros w Hnl; [exact Hnl |].
  change (cancel_all (k :: keys) w) with (cancel_all keys (cancelled k w)).
  apply IH. by apply cancelled_no_leak.
Qed.

Lemma only_sends_no_leak chatID w r :
  only_sends chatID w r → no_leak w → ∃ w', r = Some (tt, w') ∧ no_leak w'.
Proof.
  intros (w' & text & -> & Hh & Ht & _) Hnl. exists w'. split; [done |].
  by apply (same_state_no_leak w).
Qed.

Lemma replan_no_leak env chatID w ut :
  timers w !! chatID = Some ut → no_leak w →
  ∃ w' new,
    scheduleLectureReminders env chatID w = Some (tt, w') ∧ no_leak w' ∧
    heap w' = stop_list (lectureTimers ut) (heap w) ++ new ∧
    timers w' =
      <[chatID := with_lectureTimers (seq (length (heap w)) (length new)) ut]> (timers w).
Proof.
  intros Hut Hnl.
  destruct (replan_shape env chatID w ut Hut) as (w' & new & Hrun & Hh & Hnew & Ht & _).
  exists w', new. split; [exact Hrun |]. split; [|done].
  assert (Hentry : timers w' !! chatID =
            Some (with_lectureTimers (seq (length (heap w)) (length new)) ut)).
  { rewrite Ht. apply lookup_insert_eq. }
  intros h t Hl Ha. rewrite Hh in Hl.
  destruct (decide (h < length (heap w))) as [Hlt|Hge].
  - rewrite lookup_app_l in Hl by (rewrite stop_list_length; lia).
    destruct (stop_list_armed _ _ _ _ Hl Ha) as [Hl0 Hnin].
    pose proof (Hnl h t Hl0 Ha) as Hr.
    destruct (decide (owner (t_callback t) = chatID)) as [Hown|Hown].
    + destruct (t_callback t) as [i|i|i|i l o]; simpl in Hown; subst i;
        destruct Hr as (ut' & Hut' & Hf); simplify_eq; simpl;
        try (by eexists; split; [exact Hentry |]).
    + apply (referenced_ext w); [|exact Hr]. rewrite Ht. by apply lookup_insert_ne.
  - rewrite lookup_app_r in Hl by (rewrite stop_list_length; lia).
    rewrite stop_list_length in Hl.
    rewrite Forall_lookup in Hnew. destruct (Hnew _ t Hl) as [_ Hrem].
    apply lookup_lt_Some in Hl.
    destruct (t_callback t) as [| | |i l o]; simpl in Hrem; try done.
    apply bool_decide_eq_true_1 in Hrem. subst i. simpl.
    eexists. split; [exact Hentry |]. simpl. apply elem_of_seq. lia.
Qed.

(** The midnight re-planner, called when the timer its field holds is no
    longer armed. *)
Lemma midnight_no_leak env chatID w ut :
  timers w !! chatID = Some ut →
  (∀ h0 t0, lectureScheduler ut = Some h0 → heap w !! h0 = Some t0 → t_state t0 ≠ Armed) →
  no_leak w →
  ∃ w', scheduleLectureRemindersAtMidnight env chatID w = Some (tt, w') ∧ no_leak w'.
Proof.
  intros Hut Hfree Hnl.
  destruct (midnight_run env chatID w ut Hut) as [d Hm]. rewrite Hm.
  match goal with |- context [scheduleLectureReminders _ _ ?w0] => set (w1 := w0) end.
  assert (Hentry : timers w1 !! chatID = Some (with_lectureScheduler (length (heap w)) ut))
    by apply lookup_insert_eq.
  assert (Hnl1 : no_leak w1).
  { intros h t Hl Ha. simpl in Hl.
    destruct (decide (h < length (heap w))) as [Hlt|Hge].
    - rewrite lookup_app_l in Hl by lia.
      pose proof (Hnl h t Hl Ha) as Hr.
      destruct (decide (owner (t_callback t) = chatID)) as [Hown|Hown].
      + destruct (t_callback t) as [i|i|i|i l o]; simpl in Hown; subst i;
          destruct Hr as (ut' & Hut' & Hf); simplify_eq; simpl;
          try (by eexists; split; [exact Hentry |]).
        by destruct (Hfree h t Hf Hl).
      + apply (referenced_ext w); [|exact Hr]. simpl. by apply lookup_insert_ne.
    - rewrite lookup_app_r in Hl by lia.
      destruct (h - length (heap w)) as [|k] eqn:Hk; simpl in Hl; [|done].
      injection Hl as <-. simpl. eexists. split; [exact Hentry |].
      simpl. f_equal. lia. }
  destruct (replan_no_leak env chatID w1 _ Hentry Hnl1) as (w' & new & Hrun & Hnl' & _).
  by exists w'.
Qed.

Lemma ScheduleAll_no_leak env w :
  no_leak w → ∃ w', ScheduleAll env w = Some (tt, w') ∧ no_leak w'.
Proof.
  intros Hnl. unfold ScheduleAll. unfold_M.
  pose proof (next_tick_no_leak w Hnl) as Hnl0.
  generalize dependent (next_tick w). clear Hnl.
  induction (db_GetAllUsers env (tick w)) as [|user users IH]; intros w0 Hnl0.
  - by exists w0.
  - simpl. unfold mbind, M_bind.
    destruct (ScheduleUser_no_leak env (ChatID user) w0 Hnl0) as (w1 & Hrun & Hnl1).
    rewrite Hrun. by apply IH.
Qed.

Lemma fire_no_leak env h w :
  no_leak w → fire env h w = None ∨ ∃ w', fire env h w = Some (Some w') ∧ no_leak w'.
Proof.
  intros Hnl. unfold fire.
  destruct (heap w !! h) as [t|] eqn:Hl; [|by left].
  unfold is_armed. case_bool_decide as Ha; [|by left]. right.
  pose proof (Hnl h t Hl Ha) as Hr.
  set (wf := set_heap (alter mark_fired h (heap w)) w).
  assert (Hwf : ∀ h' t', heap wf !! h' = Some t' → t_state t' = Armed →
                  heap w !! h' = Some t' ∧ h' ≠ h).
  { intros h' t' Hl' Ha'. simpl in Hl'.
    destruct (decide (h' = h)) as [->|Hne].
    - rewrite list_lookup_alter_eq, Hl in Hl'. simpl in Hl'.
      injection Hl' as <-. discriminate Ha'.
    - by rewrite list_lookup_alter_ne in Hl'. }
  assert (Hnlf : no_leak wf).
  { intros h' t' Hl' Ha'. destruct (Hwf h' t' Hl' Ha') as [Hl0 _].
    apply (referenced_ext w); [done |]. by apply Hnl. }
  unfold exec.
  destruct (t_callback t) as [chatID|chatID|chatID|chatID lecture off] eqn:Hcb;
    simpl; unfold mbind, M_bind.
  - destruct (only_sends_no_leak chatID wf _ (sendDailyTimetable_only_sends env chatID wf) Hnlf)
      as (w1 & -> & Hnl1).
    destruct (ScheduleUser_no_leak env chatID w1 Hnl1) as (w2 & -> & Hnl2).
    by exists w2.
  - destruct (only_sends_no_leak chatID wf _ (sendWeeklyTimetable_only_sends env chatID wf) Hnlf)
      as (w1 & -> & Hnl1).
    destruct (ScheduleUser_no_leak env chatID w1 Hnl1) as (w2 & -> & Hnl2).
    by exists w2.
  - destruct Hr as (ut & Hut & Hsched).
    destruct (replan_no_leak env chatID wf ut Hut Hnlf) as (w1 & new & -> & Hnl1 & Hh1 & Ht1).
    assert (Hentry : timers w1 !! chatID =
              Some (with_lectureTimers (seq (length (heap wf)) (length new)) ut)).
    { rewrite Ht1. apply lookup_insert_eq. }
    destruct (midnight_no_leak env chatID w1 _ Hentry) as (w2 & -> & Hnl2);
      [|exact Hnl1|by exists w2].
    intros h0 t0 Hh0 Hl0 Ha0. simpl in Hh0. rewrite Hsched in Hh0.
    injection Hh0 as <-. rewrite Hh1 in Hl0.
    assert (Hlt : h < length (heap w)) by by apply lookup_lt_Some in Hl.
    rewrite lookup_app_l in Hl0
      by (rewrite stop_list_length; simpl; rewrite length_alter; lia).
    destruct (stop_list_armed _ _ _ _ Hl0 Ha0) as [Hl1 _].
    by destruct (Hwf h t0 Hl1 Ha0).
  - eexists. split; [reflexivity |]. by apply (same_state_no_leak wf).
Qed.

Lemma run_op_no_leak env o w :
  no_leak w →
  run_op env o w = None ∨ ∃ w', run_op env o w = Some (Some w') ∧ no_leak w'.
Proof.
  intros Hnl. destruct o as [|chatID|chatID| |h]; simpl.
  - right. destruct (ScheduleAll_no_leak env w Hnl) as (w' & Hrun & Hnl').
    exists w'. unfold exec. by rewrite Hrun.
  - right. destruct (ScheduleUser_no_leak env chatID w Hnl) as (w' & Hrun & Hnl').
    exists w'. unfold exec. by rewrite Hrun.
  - right. exists (cancelled chatID w). unfold exec. rewrite CancelUser_run.
    split; [done |]. by apply cancelled_no_leak.
  - right. eexists. unfold exec. rewrite StopAll_run.
    split; [done |]. by apply cancel_all_no_leak.
  - by apply fire_no_leak.
Qed.

Lemma NewScheduler_no_leak : no_leak NewScheduler.
Proof. intros h t Ht. simpl in Ht. discriminate Ht. Qed.

(** The invariant of the sequential scheduler. *)
Lemma reachable_no_leak env w : reachable env w → no_leak w.
Proof.
  induction 1 as [|o w w' Hreach IH Hop]; [apply NewScheduler_no_leak |].
  destruct (run_op_no_leak env o w IH) as [Hnone|(w1 & Hrun & Hnl)].
  - rewrite Hop in Hnone. discriminate Hnone.
  - rewrite Hop in Hrun. by injection Hrun as <-.
Qed.

(** No operation panics in a world a sequential run reaches. *)
Lemma reachable_no_panic env o w : reachable env w → run_op env o w ≠ Some None.
Proof.
  intros Hreach%reachable_no_leak.
  destruct (run_op_no_leak env o w Hreach) as [Hnone|(w1 & Hrun & _)]; congruence.
Qed.

(** ** The loop of the weekly message terminates

    The bound [weekly_bound] never cuts the loop: any larger bound gives the
    same text. *)
Lemma weekly_days_enough env n k day weekEnd lecturesMap :
  weekly_bound (ukLocation env) day weekEnd ≤ n →
  weekly_days env (n + k) day weekEnd lecturesMap =
  weekly_days env n day weekEnd lecturesMap.
Proof.
  unfold weekly_bound. revert day.
  induction n as [|n IH]; intros day Hb.
  - assert (Hafter : Time_After day weekEnd = true).
    { apply bool_decide_eq_true_2.
      destruct (Z.lt_ge_cases weekEnd day) as [Hlt|Hge]; [exact Hlt |].
      pose proof (civil_day_mono (ukLocation env) day weekEnd Hge). lia. }
    destruct k as [|k]; simpl; [done |]. by rewrite Hafter.
  - simpl. destruct (Time_After day weekEnd) eqn:Hafter; [done |].
    rewrite IH; [done |].
    apply bool_decide_eq_false_1 in Hafter.
    pose proof (civil_day_mono (ukLocation env) day weekEnd ltac:(lia)).
    unfold Time_AddDate_days.
    rewrite civil_day_Date by apply civil_nanos_range. lia.
Qed.

Lemma weekly_message_bound_irrelevant env k weekStart weekEnd lecturesMap :
  weekly_message env weekStart weekEnd lecturesMap =
  ("*" +:+ Time_Format env weekStart "Mon, 02 Jan" +:+ " - "
     +:+ Time_Format env weekEnd "Fri, 02 Jan" +:+ ":*" +:+ nl +:+ nl)
  +:+ weekly_days env (weekly_bound (ukLocation env) weekStart weekEnd + k)
        weekStart weekEnd lecturesMap.
Proof. unfold weekly_message. by rewrite weekly_days_enough. Qed.

(** ** A timer is never armed again *)

Lemma evolves_refl w : evolves w w.
Proof. intros h t Ht. by exists t. Qed.

Lemma evolves_trans w1 w2 w3 : evolves w1 w2 → evolves w2 w3 → evolves w1 w3.
Proof.
  intros H12 H23 h t Ht. destruct (H12 h t Ht) as (t2 & Ht2 & Hs2).
  destruct (H23 h t2 Ht2) as (t3 & Ht3 & Hs3). exists t3. split; [done |]. auto.
Qed.

Lemma evolves_same_heap w w' : heap w' = heap w → evolves w w'.
Proof. intros Hh h t Ht. exists t. by rewrite Hh. Qed.

Lemma monotone_ret {A} (a : A) : monotone (mret a).
Proof. intros w a' w' [= <- <-]. apply evolves_refl. Qed.

Lemma monotone_bind {A B} (m : M A) (k : A → M B) :
  monotone m → (∀ a, monotone (k a)) → monotone (m ≫= k).
Proof.
  intros Hm Hk w b w'. unfold mbind, M_bind.
  destruct (m w) as [[a w1]|] eqn:E; [|done]. intros Hkw.
  eapply evolves_trans; [by eapply Hm | by eapply Hk].
Qed.

Lemma monotone_ask {A} (f : nat → A) : monotone (ask f).
Proof. intros w a w' [= <- <-]. by apply evolves_same_heap. Qed.

Lemma monotone_get : monotone get.
Proof. intros w a w' [= <- <-]. apply evolves_refl. Qed.

Lemma monotone_sendMessage chatID text : monotone (sendMessage chatID text).
Proof. intros w a w' [= <- <-]. by apply evolves_same_heap. Qed.

Lemma monotone_update_UserTimers chatID f : monotone (update_UserTimers chatID f).
Proof.
  intros w a w'. unfold update_UserTimers.
  destruct (timers w !! chatID); [|done]. intros [= <- <-]. by apply evolves_same_heap.
Qed.

Lemma monotone_install chatID : monotone (install_UserTimers chatID).
Proof. intros w a w' [= <- <-]. by apply evolves_same_heap. Qed.

Lemma monotone_AfterFunc d f : monotone (AfterFunc d f).
Proof.
  intros w a w' [= <- <-] h t Ht. exists t. split; [|done].
  simpl. by apply lookup_app_l_Some.
Qed.

Lemma evolves_stop_list hs w w' :
  heap w' = stop_list hs (heap w) → evolves w w'.
Proof.
  intros Hh h t Ht. rewrite Hh, stop_list_lookup, Ht. simpl.
  eexists. split; [reflexivity |].
  case_bool_decide; [intros _; apply stop_timer_not_armed | done].
Qed.

Lemma monotone_CancelUser chatID : monotone (CancelUser chatID).
Proof.
  intros w a w'. rewrite CancelUser_run. intros [= <- <-].
  eapply evolves_stop_list. apply cancelled_heap.
Qed.

Lemma monotone_cancel_lectureTimers chatID : monotone (cancel_lectureTimers chatID).
Proof.
  intros w a w'. rewrite cancel_lectureTimers_run. intros [= <- <-].
  eapply evolves_stop_list. apply lectures_cleared_heap.
Qed.

Lemma monotone_for_each {A} (l : list A) (body : A → M unit) :
  (∀ x, monotone (body x)) → monotone (for_each l body).
Proof.
  intros Hb. induction l as [|x l IH]; simpl.
  - apply monotone_ret.
  - apply monotone_bind; [apply Hb | intros _; apply IH].
Qed.

Lemma monotone_arm_reminders env chatID off now lectures acc :
  monotone (arm_reminders env chatID off now lectures acc).
Proof.
  intros w a w'. rewrite arm_reminders_run. intros [= <- <-] h t Ht.
  exists t. split; [|done]. simpl. by apply lookup_app_l_Some.
Qed.

Ltac monotone_step :=
  first
    [ apply monotone_ret
    | apply monotone_ask
    | apply monotone_get
    | apply monotone_sendMessage
    | apply monotone_update_UserTimers
    | apply monotone_install
    | apply monotone_AfterFunc
    | apply monotone_CancelUser
    | apply monotone_cancel_lectureTimers
    | apply monotone_arm_reminders
    | apply monotone_bind; [|intros ?]
    | match goal with
      | |- monotone (match ?x with _ => _ end) => destruct x
      | |- monotone (let '(_, _) := ?x in _) => destruct x
      end ].

Lemma monotone_scheduleLectureReminders env chatID :
  monotone (scheduleLectureReminders env chatID).
Proof. unfold scheduleLectureReminders. repeat monotone_step. Qed.

Lemma monotone_midnight env chatID :
  monotone (scheduleLectureRemindersAtMidnight env chatID).
Proof.
  unfold scheduleLectureRemindersAtMidnight, time_Until.
  repeat monotone_step.
Qed.

Lemma monotone_arm_dailyTimer env chatID user : monotone (arm_dailyTimer env chatID user).
Proof. unfold arm_dailyTimer, time_Until. repeat monotone_step. Qed.

Lemma monotone_arm_weeklyTimer env chatID user : monotone (arm_weeklyTimer env chatID user).
Proof. unfold arm_weeklyTimer, time_Until. repeat monotone_step. Qed.

Lemma monotone_run_phases phases : Forall monotone phases → monotone (run_phases phases).
Proof.
  unfold run_phases. induction 1 as [|phase phases Hp _ IH]; simpl.
  - apply monotone_ret.
  - apply monotone_bind; [exact Hp | intros _; exact IH].
Qed.

Lemma monotone_ScheduleUser env chatID : monotone (ScheduleUser env chatID).
Proof.
  intros w a w'. unfold ScheduleUser, mbind, M_bind.
  destruct (lookup_readable_or_not env chatID (tick w)) as [[user Hu]|Hr].
  - rewrite (ScheduleUser_lookup_readable env chatID w user Hu). intros Hrun.
    apply (evolves_trans _ (next_tick w)); [by apply evolves_same_heap |].
    revert Hrun. apply monotone_run_phases.
    repeat constructor.
    + apply monotone_CancelUser.
    + apply monotone_install.
    + apply monotone_arm_dailyTimer.
    + apply monotone_arm_weeklyTimer.
    + apply monotone_midnight.
  - rewrite (ScheduleUser_lookup_unreadable env chatID w Hr).
    intros [= <- <-]. by apply evolves_same_heap.
Qed.

Lemma monotone_sendDailyTimetable env chatID : monotone (sendDailyTimetable env chatID).
Proof.
  intros w a w' Hrun.
  destruct (sendDailyTimetable_only_sends env chatID w) as (w1 & text & Hr & Hh & _).
  rewrite Hr in Hrun. injection Hrun as <- <-. by apply evolves_same_heap.
Qed.

Lemma monotone_sendWeeklyTimetable env chatID : monotone (sendWeeklyTimetable env chatID).
Proof.
  intros w a w' Hrun.
  destruct (sendWeeklyTimetable_only_sends env chatID w) as (w1 & text & Hr & Hh & _).
  rewrite Hr in Hrun. injection Hrun as <- <-. by apply evolves_same_heap.
Qed.

Lemma monotone_run_callback env f : monotone (run_callback env f).
Proof.
  destruct f; simpl.
  - apply monotone_bind; [apply monotone_sendDailyTimetable |].
    intros _. apply monotone_ScheduleUser.
  - apply monotone_bind; [apply monotone_sendWeeklyTimetable |].
    intros _. apply monotone_ScheduleUser.
  - apply monotone_bind; [apply monotone_scheduleLectureReminders |].
    intros _. apply monotone_midnight.
  - apply monotone_sendMessage.
Qed.

Lemma exec_monotone {A} (m : M A) w w' : monotone m → exec m w = Some w' → evolves w w'.
Proof.
  intros Hm. unfold exec. destruct (m w) as [[a w1]|] eqn:E; [|done].
  intros [= <-]. by eapply Hm.
Qed.

Lemma run_op_evolves env o w w' : run_op env o w = Some (Some w') → evolves w w'.
Proof.
  destruct o as [|chatID|chatID| |h]; simpl.
  - intros [= Hrun]. revert Hrun. apply exec_monotone.
    unfold ScheduleAll. apply monotone_bind; [apply monotone_ask |].
    intros users. apply monotone_for_each. intros user. apply monotone_ScheduleUser.
  - intros [= Hrun]. revert Hrun. apply exec_monotone, monotone_ScheduleUser.
  - intros [= Hrun]. revert Hrun. apply exec_monotone, monotone_CancelUser.
  - intros [= Hrun]. revert Hrun. apply exec_monotone.
    unfold StopAll, StopAll_in_order. apply monotone_bind; [apply monotone_get |].
    intros w0. apply monotone_for_each. intros k. apply monotone_CancelUser.
  - unfold fire. destruct (heap w !! h) as [t|] eqn:Hl; [|done].
    destruct (is_armed t); [|done]. intros [= Hrun].
    apply (evolves_trans _ (set_heap (alter mark_fired h (heap w)) w)).
    + intros h' t' Hl'. simpl.
      destruct (decide (h' = h)) as [->|Hne].
      * rewrite list_lookup_alter_eq, Hl'. simpl. eexists. split; [done |]. done.
      * rewrite list_lookup_alter_ne by done. by exists t'.
    + revert Hrun. apply exec_monotone, monotone_run_callback.
Qed.

Lemma run_ops_evolves env ops w w' : run_ops env ops w = Some w' → evolves w w'.
Proof.
  revert w. induction ops as [|o ops IH]; intros w; simpl.
  - intros [= <-]. apply evolves_refl.
  - destruct (run_op env o w) as [[w1|]|] eqn:E; try done. intros Hrun.
    eapply evolves_trans; [by eapply run_op_evolves | by apply IH].
Qed.

(** Whatever the bot does after StopAll, a timer that existed before never
    fires, if none was leaked. *)
Lemma StopAll_timers_never_fire env ops w w1 w2 h :
  no_leak w →
  StopAll w = Some (tt, w1) →
  run_ops env ops w1 = Some w2 →
  h < length (heap w) →
  fire env h w2 = None.
Proof.
  intros Hnl Hstop Hops Hlt.
  rewrite StopAll_run in Hstop. injection Hstop as <-.
  set (keys := (map_to_list (timers w)).*1) in *.
  apply fire_none. intros t2 Ht2.
  destruct (lookup_lt_is_Some_2 (heap (cancel_all keys w)) h) as [t1 Ht1].
  { by rewrite cancel_all_length. }
  destruct (run_ops_evolves env ops _ _ Hops h t1 Ht1) as (t2' & Ht2' & Hs).
  rewrite Ht2 in Ht2'. injection Ht2' as <-. apply Hs.
  intros Ha.
  assert (Hl0 : heap w !! h = Some t1).
  { revert Ht1. rewrite cancel_all_heap_lookup.
    destruct (heap w !! h) as [t0|]; simpl; [|done].
    case_bool_decide; intros [= <-]; [|done].
    by apply stop_timer_not_armed in Ha. }
  pose proof (Hnl h t1 Hl0 Ha) as Hr.
  destruct (referenced_entry _ _ _ Hr) as [ut Hut].
  pose proof (referenced_handle _ _ _ _ Hr Hut) as Hin.
  revert Ht1. rewrite cancel_all_heap_lookup, Hl0. simpl.
  rewrite bool_decide_eq_true_2.
  - intros [= Heq]. rewrite <- Heq in Ha. by apply stop_timer_not_armed in Ha.
  - apply elem_of_handles_in. exists (owner (t_callback t1)), ut.
    split; [|done]. apply elem_of_map_keys. by exists ut.
Qed.

(** C7: StopAll returns without a panic, whatever the order in which the
    keys of the map are visited, and then: the map is empty; every timer
    that any timer set held is not armed; no timer has been created or
    armed, and nothing has been sent.  If no armed timer was leaked before,
    no timer at all is armed afterwards, so none can fire; and whatever
    operations run later, no timer that existed before StopAll fires. *)
Theorem StopAll_stops_everything (w : World) :
  ∃ w', StopAll w = Some (tt, w') ∧
    (∀ keys, (∀ k, k ∈ keys ↔ is_Some (timers w !! k)) →
       StopAll_in_order keys w = Some (tt, w')) ∧
    timers w' = ∅ ∧
    (∀ chatID ut h t, timers w !! chatID = Some ut → h ∈ handles_of ut →
       heap w' !! h = Some t → t_state t ≠ Armed) ∧
    length (heap w') = length (heap w) ∧
    (∀ h t, heap w' !! h = Some t → t_state t = Armed → heap w !! h = Some t) ∧
    outbox w' = outbox w ∧
    (no_leak w →
       (∀ h t, heap w' !! h = Some t → t_state t ≠ Armed) ∧
       (∀ env h, fire env h w' = None) ∧
       (∀ env ops w2 h, run_ops env ops w' = Some w2 → h < length (heap w) →
          fire env h w2 = None)).
Proof.
  set (keys0 := (map_to_list (timers w)).*1).
  assert (Hheld : ∀ chatID ut h t, timers w !! chatID = Some ut → h ∈ handles_of ut →
            heap (cancel_all keys0 w) !! h = Some t → t_state t ≠ Armed).
  { intros chatID ut h t Hut Hh. rewrite cancel_all_heap_lookup.
    rewrite bool_decide_eq_true_2.
    - destruct (heap w !! h) as [t0|]; simpl; [|done].
      intros [= <-]. apply stop_timer_not_armed.
    - apply elem_of_handles_in. exists chatID, ut. split; [|done].
      apply elem_of_map_keys. by exists ut. }
  assert (Hwas : ∀ h t, heap (cancel_all keys0 w) !! h = Some t → t_state t = Armed →
            heap w !! h = Some t).
  { intros h t. rewrite cancel_all_heap_lookup.
    destruct (heap w !! h) as [t0|]; simpl; [|done].
    case_bool_decide; intros [= <-] Ha; [|done].
    by apply stop_timer_not_armed in Ha. }
  exists (cancel_all keys0 w).
  split; [apply StopAll_run |].
  split.
  { intros keys Hkeys. unfold StopAll_in_order. rewrite for_each_CancelUser.
    do 2 f_equal. apply cancel_all_order. intros k.
    rewrite Hkeys. symmetry. apply elem_of_map_keys. }
  split.
  { apply map_eq. intros k. rewrite cancel_all_timers_lookup, lookup_empty.
    case_bool_decide as Hk; [done |].
    destruct (timers w !! k) as [ut|] eqn:E; [|done].
    destruct Hk. apply elem_of_map_keys. by exists ut. }
  split; [exact Hheld |].
  split; [apply cancel_all_length |].
  split; [exact Hwas |].
  split; [apply cancel_all_outbox |].
  intros Hnl.
  assert (Hnone : ∀ h t, heap (cancel_all keys0 w) !! h = Some t → t_state t ≠ Armed).
  { intros h t Ht Ha. pose proof (Hwas h t Ht Ha) as Ht0.
    pose proof (Hnl h t Ht0 Ha) as Hr.
    destruct (referenced_entry _ _ _ Hr) as [ut Hut].
    pose proof (referenced_handle _ _ _ _ Hr Hut) as Hin.
    exact (Hheld _ ut h t Hut Hin Ht Ha). }
  split; [exact Hnone |].
  split; [intros env h; apply fire_none; intros t; apply Hnone |].
  intros env ops w2 h Hops Hlt.
  by apply (StopAll_timers_never_fire env ops w (cancel_all keys0 w) w2 h Hnl (StopAll_run w)).
Qed.

(** Chat 7 with its five armed timers: after StopAll none can fire, also
    not after chat 7 has been scheduled anew. *)
Example StopAll_stops_everything_witness :
  ∃ w', StopAll sample_scheduled = Some (tt, w') ∧
    timers w' = ∅ ∧
    armed_count (λ _, true) sample_scheduled = 5 ∧
    (∀ h t, heap w' !! h = Some t → t_state t ≠ Armed) ∧
    (∀ env h, fire env h w' = None) ∧
    (∀ w2 h, run_ops sample_env [OpScheduleUser 7] w' = Some w2 → h < 5 →
       fire sample_env h w2 = None).
Proof.
  destruct (StopAll_stops_everything sample_scheduled)
    as (w' & Hrun & _ & Hempty & _ & _ & _ & _ & Hnl).
  destruct (Hnl sample_scheduled_no_leak) as (Hnone & Hfire & Hlater).
  exists w'. split; [exact Hrun |]. split; [exact Hempty |].
  split; [reflexivity |]. split; [exact Hnone |]. split; [exact Hfire |].
  intros w2 h. apply Hlater.
Defined.

(** * Further properties of the scheduler *)

(** ** The midnight re-planner *)

(** X1: the instant the midnight re-planner is armed for (lines 77 to 79)
    falls on the day after the current date, and is strictly later than
    the clock reading it is computed from. *)
Theorem next_midnight_is_tomorrow (loc : Location) (now : Time) :
  civil_day loc (next_midnight loc now) = (civil_day loc now + 1)%Z ∧
  (now < next_midnight loc now)%Z.
Proof.
  assert (Hday : civil_day loc (next_midnight loc now) = (civil_day loc now + 1)%Z).
  { unfold next_midnight, Time_AddDate_days.
    rewrite civil_day_Date by apply civil_nanos_range.
    rewrite civil_day_Date by (unfold Second, nanosPerDay; lia).
    reflexivity. }
  split; [exact Hday |].
  destruct (Z.lt_ge_cases now (next_midnight loc now)) as [Hlt|Hge]; [exact Hlt |].
  pose proof (civil_day_mono loc _ _ Hge). lia.
Qed.

(** X2: the midnight re-planner panics (a store through the nil entry, line
    85) exactly when the identity has no entry in the map; with an entry it
    returns, whatever the user record and the calendar are. *)
Theorem midnight_panics_iff_no_entry (env : Env) (chatID : Z) (w : World) :
  scheduleLectureRemindersAtMidnight env chatID w = None ↔ timers w !! chatID = None.
Proof.
  split.
  - intros Hnone. destruct (timers w !! chatID) as [ut|] eqn:Hut; [|done].
    destruct (midnight_run env chatID w ut Hut) as [d Hm].
    rewrite Hm in Hnone.
    match type of Hnone with scheduleLectureReminders _ _ ?w0 = _ => set (w1 := w0) in * end.
    assert (Hentry : timers w1 !! chatID = Some (with_lectureScheduler (length (heap w)) ut))
      by apply lookup_insert_eq.
    destruct (replan_shape env chatID w1 _ Hentry) as (w' & new & Hrun & _).
    rewrite Hrun in Hnone. discriminate Hnone.
  - apply midnight_no_entry.
Qed.

(** X3: the lecture replan panics (the store of line 138) exactly when the
    identity has no entry in the map and the calendar yields at least one
    lecture; in every other case it returns. *)
Theorem replan_panics_iff (env : Env) (chatID : Z) (w : World) :
  scheduleLectureReminders env chatID w = None ↔
  timers w !! chatID = None ∧
  ∃ user cal lectures,
    (db_GetUser env (tick w) chatID).1 = Some user ∧ WebCalURL user ≠ "" ∧
    timetable_FetchCalendar env (S (tick w)) (WebCalURL user) = Ok cal ∧
    timetable_GetLectures env (S (S (S (tick w)))) cal (time_Now env (S (S (tick w))))
      = Ok lectures ∧
    lectures ≠ [].
Proof.
  split.
  - intros Hnone. destruct (timers w !! chatID) as [ut|] eqn:Hut.
    { destruct (replan_shape env chatID w ut Hut) as (w' & new & Hrun & _).
      rewrite Hrun in Hnone. discriminate Hnone. }
    split; [reflexivity |].
    destruct (replan_cases env chatID (tick w)) as [Hs|Hfetched]; [|exact Hfetched].
    destruct (replan_stops_run env chatID w Hs) as [k Hk].
    rewrite Hk in Hnone. discriminate Hnone.
  - intros (Hut & user & cal & lectures & Hu & Hurl & Hf & Hl & Hne).
    assert (Hc : lectures_cleared chatID w = w).
    { unfold lectures_cleared. by rewrite Hut. }
    rewrite (replan_fetched_run env chatID w user cal lectures Hu Hurl Hf Hl Hne).
    cbv zeta. unfold update_UserTimers. simpl.
    rewrite Hc, Hut. reflexivity.
Qed.

(** ** The loop of the weekly digest *)

(** X4: for the window the weekly digest computes, the loop over the days
    (line 203) ends after at most five iterations: five bound it, and no
    larger bound changes the text it builds. *)
Theorem weekly_loop_five_iterations (env : Env) (now : Time) (k : nat)
    (lecturesMap : gmap string (list Lecture)) :
  let weekStart := (weekWindow (ukLocation env) now).1 in
  let weekEnd := (weekWindow (ukLocation env) now).2 in
  weekly_bound (ukLocation env) weekStart weekEnd = 5 ∧
  weekly_days env (5 + k) weekStart weekEnd lecturesMap =
    weekly_days env 5 weekStart weekEnd lecturesMap.
Proof.
  intros weekStart weekEnd.
  assert (Hb : weekly_bound (ukLocation env) weekStart weekEnd = 5).
  { unfold weekly_bound, weekStart, weekEnd.
    destruct (weekWindow_days (ukLocation env) now) as [Hs He].
    rewrite Hs, He. lia. }
  split; [exact Hb |].
  apply weekly_days_enough. by rewrite Hb.
Qed.

(** ** The invariant of sequential runs *)

Lemma no_leak_midnight_le_one chatID w :
  no_leak w → armed_count (is_midnight_of chatID) w ≤ 1.
Proof.
  intros Hnl. apply filter_length_le_one. intros i j x y Hi Hj Hx Hy.
  apply andb_true_iff in Hx as [Hxa Hxp]. apply andb_true_iff in Hy as [Hya Hyp].
  apply bool_decide_eq_true_1 in Hxa, Hya.
  pose proof (Hnl i x Hi Hxa) as Hri. pose proof (Hnl j y Hj Hya) as Hrj.
  destruct (t_callback x); simpl in Hxp; try done.
  destruct (t_callback y); simpl in Hyp; try done.
  apply bool_decide_eq_true_1 in Hxp, Hyp. subst.
  destruct Hri as (ut & Hut & Hdi). destruct Hrj as (ut' & Hut' & Hdj).
  congruence.
Qed.

Lemma no_leak_no_entry_none_armed chatID w :
  no_leak w → timers w !! chatID = None → armed_count (is_owned_by chatID) w = 0.
Proof.
  intros Hnl Hnone. apply armed_count_zero. intros h t Ht Ha.
  unfold is_owned_by. case_bool_decide as Hown; [|done].
  destruct (referenced_entry _ _ _ (Hnl h t Ht Ha)) as [ut Hut].
  rewrite Hown, Hnone in Hut. discriminate Hut.
Qed.

Lemma sample_scheduled_reachable : reachable sample_env sample_scheduled.
Proof.
  apply (reachable_op sample_env (OpScheduleUser 7) NewScheduler);
    [apply reachable_new |].
  vm_compute. reflexivity.
Qed.

(** X5: in every state that operations and firing timers reach from a new
    scheduler, one after the other, no armed timer is leaked (each is held
    by the entry of its chat, in the field of its kind); so a chat has at
    most one armed daily, one armed weekly and one armed midnight timer,
    and a chat without an entry has no armed timer at all. *)
Theorem reachable_invariants (env : Env) (w : World) :
  reachable env w →
  no_leak w ∧
  ∀ chatID,
    armed_count (is_daily_of chatID) w ≤ 1 ∧
    armed_count (is_weekly_of chatID) w ≤ 1 ∧
    armed_count (is_midnight_of chatID) w ≤ 1 ∧
    (timers w !! chatID = None → armed_count (is_owned_by chatID) w = 0).
Proof.
  intros Hnl%reachable_no_leak. split; [exact Hnl |]. intros chatID.
  split; [by apply no_leak_daily_le_one |].
  split; [by apply no_leak_weekly_le_one |].
  split; [by apply no_leak_midnight_le_one |].
  by apply no_leak_no_entry_none_armed.
Qed.

(** Chat 7 scheduled on a new scheduler; chat 8 has no entry. *)
Example reachable_invariants_witness :
  no_leak sample_scheduled ∧
  armed_count (is_daily_of 7) sample_scheduled ≤ 1 ∧
  armed_count (is_owned_by 7) sample_scheduled = 5 ∧
  armed_count (is_owned_by 8) sample_scheduled = 0.
Proof.
  destruct (reachable_invariants sample_env sample_scheduled sample_scheduled_reachable)
    as [Hnl Hc].
  destruct (Hc 7%Z) as (Hd7 & _).
  destruct (Hc 8%Z) as (_ & _ & _ & H8).
  split; [exact Hnl |].
  split; [exact Hd7 |]. split; [vm_compute; reflexivity |].
  exact (H8 eq_refl).
Defined.

(** X6: in such a state no operation panics: ScheduleAll, ScheduleUser,
    CancelUser and StopAll return, a timer that is armed fires and its
    closure returns, and the state they end in is again such a state.  The
    nil-entry stores of lines 85 and 138 are never reached. *)
Theorem reachable_never_panics (env : Env) (w : World) (o : Op) :
  reachable env w →
  (∃ w', run_op env o w = Some (Some w') ∧ reachable env w') ∨
  (∃ h, o = OpFire h ∧ run_op env o w = None ∧
        ∀ t, heap w !! h = Some t → t_state t ≠ Armed).
Proof.
  intros Hreach.
  destruct (run_op_no_leak env o w (reachable_no_leak env w Hreach))
    as [Hnone|(w' & Hrun & _)].
  - right. destruct o as [| | | |h]; simpl in Hnone; try discriminate Hnone.
    exists h. split; [done |]. split; [exact Hnone |].
    intros t Ht Ha. unfold fire in Hnone. rewrite Ht in Hnone.
    unfold is_armed in Hnone. rewrite bool_decide_eq_true_2 in Hnone by exact Ha.
    discriminate Hnone.
  - left. exists w'. split; [exact Hrun |]. by apply (reachable_op env o w).
Qed.

(** The midnight timer of chat 7 fires. *)
Example reachable_never_panics_witness :
  ∃ w', run_op sample_env (OpFire 2) sample_scheduled = Some (Some w') ∧
        reachable sample_env w'.
Proof.
  destruct (reachable_never_panics sample_env sample_scheduled (OpFire 2)
              sample_scheduled_reachable) as [Hok|(h & _ & Hnone & _)].
  - exact Hok.
  - vm_compute in Hnone. discriminate Hnone.
Defined.

(** ** Timers fire once *)

Lemma fire_not_armed_after env h w w1 :
  fire env h w = Some (Some w1) →
  ∃ t1, heap w1 !! h = Some t1 ∧ t_state t1 ≠ Armed.
Proof.
  unfold fire. destruct (heap w !! h) as [t|] eqn:Hl; [|done].
  destruct (is_armed t); [|done]. intros [= Hrun].
  assert (Hf : heap (set_heap (alter mark_fired h (heap w)) w) !! h = Some (mark_fired t)).
  { simpl. by rewrite list_lookup_alter_eq, Hl. }
  destruct (exec_monotone _ _ _ (monotone_run_callback env (t_callback t)) Hrun
              h _ Hf) as (t1 & Ht1 & Hs).
  exists t1. split; [exact Ht1 |]. by apply Hs.
Qed.

(** X7: a timer fires at most once: after it has fired, whatever its
    closure did and whatever operations run later, it cannot fire again. *)
Theorem timer_fires_at_most_once (env : Env) (h : handle) (w w1 w2 : World)
    (ops : list Op) :
  fire env h w = Some (Some w1) →
  run_ops env ops w1 = Some w2 →
  fire env h w2 = None.
Proof.
  intros Hfire Hops.
  destruct (fire_not_armed_after env h w w1 Hfire) as (t1 & Ht1 & Hs1).
  destruct (run_ops_evolves env ops w1 w2 Hops h t1 Ht1) as (t2 & Ht2 & Hs2).
  apply fire_none. intros t Ht. rewrite Ht2 in Ht. injection Ht as <-. by apply Hs2.
Qed.

(** The daily timer of chat 7 fires, reschedules the chat, and is then
    dead, also after a later ScheduleAll. *)
Example timer_fires_at_most_once_witness :
  ∃ w1 w2,
    fire sample_env 0 sample_scheduled = Some (Some w1) ∧
    run_ops sample_env [OpScheduleAll] w1 = Some w2 ∧
    fire sample_env 0 w2 = None.
Proof.
  destruct (fire sample_env 0 sample_scheduled) as [[w1|]|] eqn:Hfire;
    try (vm_compute in Hfire; discriminate Hfire).
  destruct (run_ops sample_env [OpScheduleAll] w1) as [w2|] eqn:Hops.
  - exists w1, w2. split; [reflexivity |]. split; [exact Hops |].
    exact (timer_fires_at_most_once sample_env 0 sample_scheduled w1 w2
             [OpScheduleAll] Hfire Hops).
  - vm_compute in Hfire. injection Hfire as <-. vm_compute in Hops. discriminate Hops.
Defined.

(** ** Cancelling and replacing a timer set *)

(** X8: when ScheduleUser replaces the timer set of an identity, no timer
    the old set held can fire afterwards, and every handle of the new set
    is that of a timer created by this call. *)
Theorem reschedule_silences_old_set (env : Env) (chatID : Z) (user : User)
    (w : World) (ut : UserTimers) :
  db_GetUser env (tick w) chatID = (Some user, None) →
  timers w !! chatID = Some ut →
  ∃ w' ut',
    ScheduleUser env chatID w = Some (tt, w') ∧
    timers w' !! chatID = Some ut' ∧
    (∀ env' h, h ∈ handles_of ut → h < length (heap w) → fire env' h w' = None) ∧
    (∀ h, h ∈ handles_of ut' → length (heap w) ≤ h < length (heap w')).
Proof.
  intros Hu Hut.
  destruct (ScheduleUser_readable_shape env chatID user w Hu)
    as (w' & Hrun & d1 & d2 & d3 & new & Hh & Hnew & Ht & _).
  assert (Hlen : length (heap (cancelled chatID w)) = length (heap w)).
  { rewrite cancelled_heap. apply stop_list_length. }
  exists w', (fresh_UserTimers (length (heap w)) (length new)).
  split; [exact Hrun |].
  split; [rewrite Ht; apply lookup_insert_eq |].
  split.
  - intros env' h Hin Hlt. apply fire_none. intros t Hl.
    rewrite Hh, lookup_app_l in Hl by lia.
    rewrite cancelled_heap, Hut in Hl. simpl in Hl.
    by apply (stop_list_not_armed _ _ _ _ Hin Hl).
  - intros h. unfold handles_of, fresh_UserTimers. simpl.
    rewrite Hh, !length_app, Hlen. simpl.
    rewrite !elem_of_cons, elem_of_seq. lia.
Qed.

(** Chat 7, scheduled with five timers, is scheduled again. *)
Example reschedule_silences_old_set_witness :
  ∃ w', ScheduleUser sample_env 7 sample_scheduled = Some (tt, w') ∧
    ∀ h, h ∈ [0; 1; 2; 3; 4] → fire sample_env h w' = None.
Proof.
  destruct (reschedule_silences_old_set sample_env 7 alice sample_scheduled
              {| dailyTimer := Some 0; weeklyTimer := Some 1;
                 lectureTimers := [3; 4]; lectureScheduler := Some 2 |})
    as (w' & ut' & Hrun & _ & Hold & _).
  - reflexivity.
  - reflexivity.
  - exists w'. split; [exact Hrun |]. intros h Hin. apply Hold; [exact Hin |].
    rewrite !elem_of_cons, elem_of_nil in Hin. simpl. lia.
Defined.

(** X9: after CancelUser the identity has no entry and, if no armed timer
    was leaked before, none of the identity's timers is armed; whatever
    operations run later, none of the timers the identity had at that
    moment ever fires. *)
Theorem CancelUser_silences_user (chatID : Z) (w : World) :
  no_leak w →
  ∃ w',
    CancelUser chatID w = Some (tt, w') ∧
    timers w' !! chatID = None ∧
    armed_count (is_owned_by chatID) w' = 0 ∧
    no_leak w' ∧
    ∀ env ops w2 h t,
      heap w' !! h = Some t → owner (t_callback t) = chatID →
      run_ops env ops w' = Some w2 → fire env h w2 = None.
Proof.
  intros Hnl. exists (cancelled chatID w).
  split; [apply CancelUser_run |].
  split; [rewrite cancelled_timers; apply lookup_delete_eq |].
  split.
  { apply armed_count_zero. intros h t Ht Ha. unfold is_owned_by.
    case_bool_decide as Hown; [|done].
    by destruct (cancelled_none_armed chatID w h t Hnl Ht Ha). }
  split; [by apply cancelled_no_leak |].
  intros env ops w2 h t Ht Hown Hops.
  destruct (run_ops_evolves env ops _ w2 Hops h t Ht) as (t2 & Ht2 & Hs).
  apply fire_none. intros t' Ht'. rewrite Ht2 in Ht'. injection Ht' as <-.
  apply Hs. intros Ha. by destruct (cancelled_none_armed chatID w h t Hnl Ht Ha).
Qed.

(** Chat 7 is cancelled and later scheduled again. *)
Example CancelUser_silences_user_witness :
  ∃ w',
    CancelUser 7 sample_scheduled = Some (tt, w') ∧
    armed_count (is_owned_by 7) sample_scheduled = 5 ∧
    armed_count (is_owned_by 7) w' = 0 ∧
    ∀ w2 h t, heap w' !! h = Some t → owner (t_callback t) = 7%Z →
      run_ops sample_env [OpScheduleUser 7] w' = Some w2 → fire sample_env h w2 = None.
Proof.
  destruct (CancelUser_silences_user 7 sample_scheduled sample_scheduled_no_leak)
    as (w' & Hrun & _ & Hzero & _ & Hlater).
  exists w'. split; [exact Hrun |]. split; [vm_compute; reflexivity |].
  split; [exact Hzero |]. intros w2 h t. apply Hlater.
Defined.

(** ** The replan replaces the reminders *)

Lemma count_armed_all p new :
  Forall (λ t, t_state t = Armed ∧ p (t_callback t) = true) new →
  count_armed p new = length new.
Proof.
  induction 1 as [|t new [Ha Hp] _ IH]; [done |].
  unfold count_armed in *. simpl.
  unfold is_armed at 1. rewrite bool_decide_eq_true_2 by exact Ha. rewrite Hp. simpl.
  by rewrite IH.
Qed.

(** X10: after a replan of an identity that has an entry, the armed
    reminders of the identity are exactly the timers of its new list, if
    no armed timer was leaked before: no reminder of an earlier replan
    survives next to them.  The other fields of the entry are untouched. *)
Theorem replan_leaves_no_stale_reminder (env : Env) (chatID : Z) (w : World)
    (ut : UserTimers) :
  no_leak w →
  timers w !! chatID = Some ut →
  ∃ w' ut',
    scheduleLectureReminders env chatID w = Some (tt, w') ∧
    timers w' !! chatID = Some ut' ∧
    armed_count (is_reminder_of chatID) w' = length (lectureTimers ut') ∧
    (∀ h, h ∈ lectureTimers ut' →
       ∃ t, heap w' !! h = Some t ∧ armed_reminder_of chatID t) ∧
    dailyTimer ut' = dailyTimer ut ∧
    weeklyTimer ut' = weeklyTimer ut ∧
    lectureScheduler ut' = lectureScheduler ut.
Proof.
  intros Hnl Hut.
  destruct (replan_shape env chatID w ut Hut) as (w' & new & Hrun & Hh & Hnew & Ht & _).
  exists w', (with_lectureTimers (seq (length (heap w)) (length new)) ut).
  split; [exact Hrun |].
  split; [rewrite Ht; apply lookup_insert_eq |].
  split.
  { unfold armed_count. rewrite Hh, count_armed_app.
    rewrite (count_armed_all _ new Hnew). simpl. rewrite length_seq.
    rewrite count_armed_zero; [done |].
    intros h t Hl Ha. apply (lectures_cleared_no_reminder chatID w h t Hnl); [|done].
    by rewrite lectures_cleared_heap, Hut. }
  split; [|done].
  intros h Hin. simpl in Hin. apply elem_of_seq in Hin.
  destruct (lookup_lt_is_Some_2 new (h - length (heap w))) as [t Hl]; [lia |].
  exists t. split.
  - rewrite Hh, lookup_app_r by (rewrite stop_list_length; lia).
    by rewrite stop_list_length.
  - rewrite Forall_lookup in Hnew. by apply (Hnew _ t Hl).
Qed.

(** Chat 7 has the reminders of 11:00 and 14:00 armed when the replan runs
    again: two reminders are armed afterwards, not four. *)
Example replan_leaves_no_stale_reminder_witness :
  ∃ w' ut',
    scheduleLectureReminders sample_env 7 sample_scheduled = Some (tt, w') ∧
    timers w' !! 7%Z = Some ut' ∧
    armed_count (is_reminder_of 7) w' = length (lectureTimers ut').
Proof.
  destruct (replan_leaves_no_stale_reminder sample_env 7 sample_scheduled
              {| dailyTimer := Some 0; weeklyTimer := Some 1;
                 lectureTimers := [3; 4]; lectureScheduler := Some 2 |}
              sample_scheduled_no_leak eq_refl)
    as (w' & ut' & Hrun & Hut' & Hcount & _).
  exists w', ut'. split; [exact Hrun |]. split; [exact Hut' | exact Hcount].
Defined.

(** ** ScheduleUser up to the replan *)

Lemma World_eq (a b : World) :
  heap a = heap b → timers a = timers b → outbox a = outbox b → tick a = tick b →
  a = b.
Proof. destruct a, b. simpl. by intros -> -> -> ->. Qed.

(** For a readable user, ScheduleUser is the replan run in the world where
    the old set is cancelled and the daily, weekly and midnight timers of
    the new set are armed. *)
Lemma ScheduleUser_before_replan env chatID user w :
  db_GetUser env (tick w) chatID = (Some user, None) →
  ∃ d1 d2 d3,
    ScheduleUser env chatID w =
    scheduleLectureReminders env chatID
      {| heap := heap (cancelled chatID w)
                   ++ [armed_timer d1 (DailyCb chatID); armed_timer d2 (WeeklyCb chatID);
                       armed_timer d3 (MidnightCb chatID)];
         timers := <[chatID := fresh_UserTimers (length (heap w)) 0]> (timers w);
         outbox := outbox w;
         tick := 7 + tick w |}.
Proof.
  intros Hu.
  set (w1 := cancelled chatID (next_tick w)).
  set (w2 := set_timers (<[chatID := UserTimers_zero]> (timers w1)) w1).
  assert (Hlen1 : length (heap w1) = length (heap w)).
  { unfold w1. rewrite cancelled_heap. apply stop_list_length. }
  assert (H2 : timers w2 !! chatID = Some UserTimers_zero) by apply lookup_insert_eq.
  destruct (arm_dailyTimer_run env chatID user w2 _ H2) as [d1 Hd].
  match type of Hd with _ = Some (_, ?x) => set (w3 := x) in Hd end.
  assert (H3 : timers w3 !! chatID = Some (with_dailyTimer (length (heap w2)) UserTimers_zero))
    by apply lookup_insert_eq.
  destruct (arm_weeklyTimer_run env chatID user w3 _ H3) as [d2 Hw].
  match type of Hw with _ = Some (_, ?x) => set (w4 := x) in Hw end.
  assert (H4 : timers w4 !! chatID =
               Some (with_weeklyTimer (length (heap w3))
                       (with_dailyTimer (length (heap w2)) UserTimers_zero)))
    by apply lookup_insert_eq.
  destruct (midnight_run env chatID w4 _ H4) as [d3 Hm].
  exists d1, d2, d3.
  unfold ScheduleUser, mbind, M_bind.
  rewrite (ScheduleUser_lookup_readable env chatID w user Hu).
  unfold run_phases, ScheduleUser_phases. simpl. unfold mbind, M_bind, id.
  rewrite CancelUser_run. fold w1.
  change (install_UserTimers chatID w1) with (Some (tt, w2)). simpl.
  rewrite Hd, Hw. unfold mret, M_ret.
  transitivity (scheduleLectureRemindersAtMidnight env chatID w4).
  { by destruct (scheduleLectureRemindersAtMidnight env chatID w4) as [[[] w5]|]. }
  rewrite Hm. f_equal. apply World_eq; simpl.
  - rewrite <- !app_assoc. simpl. unfold w1. by rewrite !cancelled_heap.
  - rewrite !insert_insert_eq. unfold w1. rewrite cancelled_timers, insert_delete_eq.
    f_equal. rewrite !length_app. simpl. fold w1. rewrite Hlen1.
    unfold fresh_UserTimers, with_lectureScheduler, with_weeklyTimer, with_dailyTimer.
    simpl. by rewrite !Nat.add_1_r.
  - unfold w1. by rewrite cancelled_outbox.
  - unfold w1. by rewrite cancelled_tick.
Qed.

(** X11: ScheduleUser for a readable user whose replan has nothing to arm
    (no calendar link, a calendar that cannot be fetched or read, or no
    lecture today) cancels the old set and creates exactly three timers,
    the daily, the weekly and the midnight one, all armed; the new entry
    holds them and an empty list of lecture timers, and nothing is sent. *)
Theorem ScheduleUser_without_lectures (env : Env) (chatID : Z) (user : User)
    (w : World) :
  db_GetUser env (tick w) chatID = (Some user, None) →
  replan_stops env chatID (7 + tick w) →
  ∃ w' d1 d2 d3,
    ScheduleUser env chatID w = Some (tt, w') ∧
    heap w' =
      heap (cancelled chatID w)
        ++ [armed_timer d1 (DailyCb chatID); armed_timer d2 (WeeklyCb chatID);
            armed_timer d3 (MidnightCb chatID)] ∧
    timers w' =
      <[chatID := {| dailyTimer := Some (length (heap w));
                     weeklyTimer := Some (S (length (heap w)));
                     lectureTimers := [];
                     lectureScheduler := Some (S (S (length (heap w)))) |}]> (timers w) ∧
    outbox w' = outbox w.
Proof.
  intros Hu Hs.
  destruct (ScheduleUser_before_replan env chatID user w Hu) as (d1 & d2 & d3 & Hrun).
  match type of Hrun with _ = scheduleLectureReminders _ _ ?x => set (w0 := x) in Hrun end.
  destruct (replan_stops_run env chatID w0 Hs) as [k Hk].
  destruct (iter_next_tick_fields k (lectures_cleared chatID w0)) as (Hh & Ht & Ho).
  assert (Hentry : timers w0 !! chatID = Some (fresh_UserTimers (length (heap w)) 0))
    by apply lookup_insert_eq.
  exists (Nat.iter k next_tick (lectures_cleared chatID w0)), d1, d2, d3.
  split; [by rewrite Hrun |].
  rewrite Hh, Ht, Ho, (lectures_cleared_entry chatID w0 _ Hentry). simpl.
  split; [reflexivity |]. split; [|reflexivity].
  by rewrite insert_insert_eq.
Qed.

(** Chat 8 has no calendar link. *)
Example ScheduleUser_without_lectures_witness :
  ∃ w' d1 d2 d3,
    ScheduleUser sample_env 8 sample_scheduled = Some (tt, w') ∧
    heap w' =
      heap sample_scheduled
        ++ [armed_timer d1 (DailyCb 8); armed_timer d2 (WeeklyCb 8);
            armed_timer d3 (MidnightCb 8)] ∧
    timers w' !! 8%Z =
      Some {| dailyTimer := Some 5; weeklyTimer := Some 6;
              lectureTimers := []; lectureScheduler := Some 7 |}.
Proof.
  destruct (ScheduleUser_without_lectures sample_env 8 bob sample_scheduled)
    as (w' & d1 & d2 & d3 & Hrun & Hh & Ht & _).
  - reflexivity.
  - left. reflexivity.
  - exists w', d1, d2, d3. split; [exact Hrun |]. split; [exact Hh |].
    rewrite Ht. apply lookup_insert_eq.
Defined.

(** ** ScheduleAll *)

(** ScheduleUser always returns; it changes the entry of its identity
    only, sends nothing and leaks nothing. *)
Lemma ScheduleUser_frame env chatID w :
  ∃ w', ScheduleUser env chatID w = Some (tt, w') ∧
    outbox w' = outbox w ∧
    (∀ c, c ≠ chatID → timers w' !! c = timers w !! c) ∧
    (no_leak w → no_leak w').
Proof.
  destruct (lookup_readable_or_not env chatID (tick w)) as [[user Hu]|Hr].
  - destruct (ScheduleUser_readable_shape env chatID user w Hu) as (w' & Hrun & Hshape).
    exists w'. split; [exact Hrun |].
    pose proof Hshape as (d1 & d2 & d3 & new & _ & _ & Ht & Ho).
    split; [exact Ho |]. split.
    + intros c Hc. rewrite Ht. by apply lookup_insert_ne.
    + intros Hnl. by apply (scheduled_shape_no_leak chatID w).
  - exists (next_tick w). split.
    + unfold ScheduleUser, mbind, M_bind.
      by rewrite (ScheduleUser_lookup_unreadable env chatID w Hr).
    + split; [done |]. split; [done |]. apply next_tick_no_leak.
Qed.

Lemma for_each_ScheduleUser_frame env users w :
  ∃ w', for_each users (λ user, ScheduleUser env (ChatID user)) w = Some (tt, w') ∧
    outbox w' = outbox w ∧
    (∀ c, c ∉ ChatID <$> users → timers w' !! c = timers w !! c) ∧
    (users = [] → w' = w) ∧
    (no_leak w → no_leak w').
Proof.
  revert w. induction users as [|user users IH]; intros w.
  - exists w. by repeat split.
  - destruct (ScheduleUser_frame env (ChatID user) w) as (w1 & Hrun & Ho & Hf & Hnl).
    destruct (IH w1) as (w' & Hrun' & Ho' & Hf' & _ & Hnl').
    exists w'. split.
    { simpl. unfold mbind, M_bind. by rewrite Hrun. }
    split; [congruence |]. split; [|split; [done | auto]].
    intros c Hc. rewrite fmap_cons, not_elem_of_cons in Hc. destruct Hc as [Hne Hc].
    rewrite (Hf' c Hc). by apply Hf.
Qed.

(** X12: ScheduleAll always returns, whichever users cannot be read: it
    sends nothing, leaves the entry of every chat that is not in the list
    of users as it was, changes nothing but the count of interactions when
    the list is empty (as when the directory cannot be read), and leaks no
    timer if none was leaked before. *)
Theorem ScheduleAll_total_frame (env : Env) (w : World) :
  ∃ w', ScheduleAll env w = Some (tt, w') ∧
    outbox w' = outbox w ∧
    (∀ c, c ∉ ChatID <$> db_GetAllUsers env (tick w) → timers w' !! c = timers w !! c) ∧
    (db_GetAllUsers env (tick w) = [] → w' = next_tick w) ∧
    (no_leak w → no_leak w').
Proof.
  destruct (for_each_ScheduleUser_frame env (db_GetAllUsers env (tick w)) (next_tick w))
    as (w' & Hrun & Ho & Hf & He & Hnl).
  exists w'. split; [|split; [exact Ho | split; [exact Hf | split; [exact He |]]]].
  - unfold ScheduleAll, mbind, M_bind, ask. exact Hrun.
  - intros Hnl0. by apply Hnl, next_tick_no_leak.
Qed.

(** ScheduleAll on a new scheduler: nothing is sent, and chat 9, which is
    not in the directory, gets no entry. *)
Example ScheduleAll_total_frame_witness :
  ∃ w', ScheduleAll sample_env NewScheduler = Some (tt, w') ∧
    outbox w' = [] ∧ timers w' !! 9%Z = None ∧ no_leak w'.
Proof.
  destruct (ScheduleAll_total_frame sample_env NewScheduler)
    as (w' & Hrun & Ho & Hf & _ & Hnl).
  exists w'. split; [exact Hrun |]. split; [exact Ho |].
  split; [|exact (Hnl NewScheduler_no_leak)].
  rewrite Hf; [reflexivity |].
  simpl. rewrite !elem_of_cons, elem_of_nil. intros [H|[H|H]]; [discriminate H .. | done].
Defined.

(** ** Unreadable users *)

Lemma ScheduleUser_unreadable_noop_aux env chatID w :
  (db_GetUser env (tick w) chatID).2 ≠ None ∨ (db_GetUser env (tick w) chatID).1 = None →
  ScheduleUser env chatID w = Some (tt, next_tick w).
Proof.
  intros Hr. unfold ScheduleUser, mbind, M_bind.
  by rewrite (ScheduleUser_lookup_unreadable env chatID w Hr).
Qed.

Lemma unreadable_sender_prompts env chatID w :
  (db_GetUser env (tick w) chatID).1 = None →
  sendDailyTimetable env chatID w = Some (tt, prompted chatID w) ∧
  sendWeeklyTimetable env chatID w = Some (tt, prompted chatID w).
Proof.
  intros Hu. unfold sendDailyTimetable, sendWeeklyTimetable. unfold_M.
  by rewrite Hu.
Qed.

(** ** Firing timers *)

Lemma is_midnight_of_refl chatID : is_midnight_of chatID (MidnightCb chatID) = true.
Proof. simpl. by apply bool_decide_eq_true_2. Qed.

Lemma scheduled_shape_midnight_count chatID w w' :
  no_leak w → scheduled_shape chatID w w' →
  armed_count (is_midnight_of chatID) w' = 1.
Proof.
  intros Hnl (d1 & d2 & d3 & new & Hh & Hnew & _ & _).
  unfold armed_count. rewrite Hh. rewrite !count_armed_app.
  rewrite !count_armed_cons_armed, !count_armed_nil.
  rewrite is_midnight_of_refl. simpl.
  rewrite (cancelled_count_zero _ chatID w (is_midnight_of_owner chatID) Hnl).
  rewrite (count_armed_reminders (is_midnight_of chatID) chatID new); [|by intros []|done].
  done.
Qed.

(** The world in which the closure of a firing timer runs. *)
Lemma fired_no_leak h w : no_leak w → no_leak (set_heap (alter mark_fired h (heap w)) w).
Proof.
  intros Hnl h' t' Hl' Ha'. simpl in Hl'.
  apply (referenced_ext w); [done |]. apply Hnl; [|done].
  destruct (decide (h' = h)) as [->|Hne].
  - rewrite list_lookup_alter_eq in Hl'.
    destruct (heap w !! h) as [t|]; simpl in Hl'; [|done].
    injection Hl' as <-. discriminate Ha'.
  - by rewrite list_lookup_alter_ne in Hl'.
Qed.

Lemma fire_armed env h t w :
  heap w !! h = Some t → t_state t = Armed →
  fire env h w =
  Some (exec (run_callback env (t_callback t)) (set_heap (alter mark_fired h (heap w)) w)).
Proof.
  intros Hl Ha. unfold fire. rewrite Hl. unfold is_armed.
  by rewrite bool_decide_eq_true_2 by exact Ha.
Qed.

(** X13: the daily and the weekly timer recur by chaining.  When one of
    them fires for a user whose record stays readable, its closure sends
    one message to the chat and schedules the user anew: afterwards exactly
    one daily, one weekly and one midnight timer of the chat are armed,
    none is leaked, and the timer that fired is not among them. *)
Theorem digest_timer_recurs (env : Env) (chatID : Z) (user : User) (h : handle)
    (t : Timer) (w : World) :
  no_leak w →
  heap w !! h = Some t → t_state t = Armed →
  t_callback t = DailyCb chatID ∨ t_callback t = WeeklyCb chatID →
  (∀ n, db_GetUser env n chatID = (Some user, None)) →
  ∃ w' text,
    fire env h w = Some (Some w') ∧
    outbox w' = outbox w ++ [(chatID, text)] ∧
    armed_count (is_daily_of chatID) w' = 1 ∧
    armed_count (is_weekly_of chatID) w' = 1 ∧
    armed_count (is_midnight_of chatID) w' = 1 ∧
    no_leak w' ∧
    fire env h w' = None.
Proof.
  intros Hnl Hl Ha Hcb Hstable.
  pose proof (fire_armed env h t w Hl Ha) as Hfire.
  set (wf := set_heap (alter mark_fired h (heap w)) w) in *.
  pose proof (fired_no_leak h w Hnl) as Hnlf. fold wf in Hnlf.
  assert (Hsend : ∃ w1 text,
            (if decide (t_callback t = DailyCb chatID)
             then sendDailyTimetable env chatID wf
             else sendWeeklyTimetable env chatID wf) = Some (tt, w1) ∧
            heap w1 = heap wf ∧ timers w1 = timers wf ∧
            outbox w1 = outbox wf ++ [(chatID, text)]).
  { destruct (decide (t_callback t = DailyCb chatID)).
    - apply sendDailyTimetable_only_sends.
    - apply sendWeeklyTimetable_only_sends. }
  destruct Hsend as (w1 & text & Hsend & Hh1 & Ht1 & Ho1).
  pose proof (same_state_no_leak wf w1 Hh1 Ht1 Hnlf) as Hnl1.
  destruct (ScheduleUser_readable_shape env chatID user w1 (Hstable _))
    as (w' & Hrun & Hshape).
  destruct (scheduled_shape_counts chatID w1 w' Hnl1 Hshape) as [Hcd Hcw].
  pose proof (scheduled_shape_midnight_count chatID w1 w' Hnl1 Hshape) as Hcm.
  pose proof (scheduled_shape_no_leak chatID w1 w' Hnl1 Hshape) as Hnl'.
  assert (Hexec : exec (run_callback env (t_callback t)) wf = Some w').
  { unfold exec. destruct Hcb as [Hcb|Hcb]; rewrite Hcb in *; simpl;
      unfold mbind, M_bind.
    - rewrite decide_True in Hsend by done. by rewrite Hsend, Hrun.
    - rewrite decide_False in Hsend by done. by rewrite Hsend, Hrun. }
  exists w', text. rewrite Hfire, Hexec.
  split; [reflexivity |].
  split. { destruct Hshape as (_ & _ & _ & _ & _ & _ & _ & Ho). by rewrite Ho, Ho1. }
  split; [exact Hcd |]. split; [exact Hcw |]. split; [exact Hcm |].
  split; [exact Hnl' |].
  assert (Hf : fire env h w = Some (Some w')) by by rewrite Hfire, Hexec.
  destruct (fire_not_armed_after env h w w' Hf) as (t1 & Ht1' & Hs1).
  apply fire_none. intros t' Ht'. rewrite Ht1' in Ht'. by injection Ht' as <-.
Qed.

(** The daily timer of chat 7 fires. *)
Example digest_timer_recurs_witness :
  ∃ w' text,
    fire sample_env 0 sample_scheduled = Some (Some w') ∧
    outbox w' = [(7%Z, text)] ∧
    armed_count (is_daily_of 7) w' = 1 ∧
    fire sample_env 0 w' = None.
Proof.
  destruct (digest_timer_recurs sample_env 7 alice 0
              (armed_timer 73800000000000 (DailyCb 7)) sample_scheduled)
    as (w' & text & Hfire & Ho & Hd & _ & _ & _ & Hdead).
  - exact sample_scheduled_no_leak.
  - reflexivity.
  - reflexivity.
  - left. reflexivity.
  - intros n. reflexivity.
  - exists w', text. split; [exact Hfire |]. split; [exact Ho |].
    split; [exact Hd | exact Hdead].
Defined.

(** X14: when the daily or the weekly timer fires for an identity whose
    record can no longer be found, its closure sends the [/set_calendar]
    prompt and the chain ends: no timer is created, the map is as before
    with the entry of the identity still in it, and the other timers of
    the identity stay as they were (they are not cancelled).  No timer
    running that closure is armed afterwards, if none was leaked. *)
Theorem digest_timer_chain_ends (env : Env) (chatID : Z) (h : handle) (t : Timer)
    (w : World) :
  heap w !! h = Some t → t_state t = Armed →
  t_callback t = DailyCb chatID ∨ t_callback t = WeeklyCb chatID →
  (∀ n, (db_GetUser env n chatID).1 = None) →
  ∃ w',
    fire env h w = Some (Some w') ∧
    outbox w' = outbox w ++ [(chatID, set_calendar_prompt)] ∧
    timers w' = timers w ∧
    heap w' = alter mark_fired h (heap w) ∧
    (no_leak w →
       armed_count (λ f, bool_decide (f = t_callback t)) w' = 0 ∧ no_leak w').
Proof.
  intros Hl Ha Hcb Hgone.
  set (wf := set_heap (alter mark_fired h (heap w)) w).
  assert (Hexec : exec (run_callback env (t_callback t)) wf
                  = Some (next_tick (prompted chatID wf))).
  { assert (Hsched : ScheduleUser env chatID (prompted chatID wf)
                     = Some (tt, next_tick (prompted chatID wf))).
    { apply ScheduleUser_unreadable_noop_aux. right. apply Hgone. }
    unfold exec.
    destruct Hcb as [Hcb|Hcb]; rewrite Hcb; simpl; unfold mbind, M_bind.
    - destruct (unreadable_sender_prompts env chatID wf (Hgone _)) as [-> _].
      by rewrite Hsched.
    - destruct (unreadable_sender_prompts env chatID wf (Hgone _)) as [_ ->].
      by rewrite Hsched. }
  exists (next_tick (prompted chatID wf)).
  split; [rewrite (fire_armed env h t w Hl Ha); fold wf; by rewrite Hexec |].
  split; [reflexivity |]. split; [reflexivity |]. split; [reflexivity |].
  intros Hnl. split.
  - apply armed_count_zero. intros h' t' Hl' Ha'. simpl in Hl'.
    case_bool_decide as Heq; [|done]. exfalso.
    destruct (decide (h' = h)) as [->|Hne].
    + rewrite list_lookup_alter_eq, Hl in Hl'. simpl in Hl'.
      injection Hl' as <-. discriminate Ha'.
    + rewrite list_lookup_alter_ne in Hl' by done.
      pose proof (Hnl h' t' Hl' Ha') as Hr'. pose proof (Hnl h t Hl Ha) as Hr.
      rewrite Heq in Hr'.
      destruct Hcb as [Hcb|Hcb]; rewrite Hcb in Hr, Hr'; simpl in Hr, Hr';
        destruct Hr as (ut & Hut & Hf); destruct Hr' as (ut' & Hut' & Hf');
        congruence.
  - apply next_tick_no_leak.
    apply (same_state_no_leak wf); [done | done |]. by apply fired_no_leak.
Qed.

(** The daily timer of chat 9 fires after the record of chat 9 was lost:
    the weekly timer stays armed. *)
Example digest_timer_chain_ends_witness :
  ∃ w',
    fire sample_env 0 orphan_scheduled = Some (Some w') ∧
    outbox w' = [(9%Z, set_calendar_prompt)] ∧
    timers w' = timers orphan_scheduled ∧
    heap w' !! 1 = Some (armed_timer 545400000000000 (WeeklyCb 9)) ∧
    armed_count (is_daily_of 9) w' = 0.
Proof.
  destruct (digest_timer_chain_ends sample_env 9 0
              (armed_timer 73800000000000 (DailyCb 9)) orphan_scheduled)
    as (w' & Hfire & Ho & Ht & Hh & _).
  - reflexivity.
  - reflexivity.
  - left. reflexivity.
  - intros n. reflexivity.
  - exists w'. split; [exact Hfire |]. split; [exact Ho |]. split; [exact Ht |].
    split; [by rewrite Hh |]. unfold armed_count. by rewrite Hh.
Defined.

(** The midnight re-planner of an identity that has an entry. *)
Lemma midnight_shape env chatID w ut :
  timers w !! chatID = Some ut →
  ∃ w' d new,
    scheduleLectureRemindersAtMidnight env chatID w = Some (tt, w') ∧
    heap w' =
      stop_list (lectureTimers ut) (heap w ++ [armed_timer d (MidnightCb chatID)]) ++ new ∧
    Forall (armed_reminder_of chatID) new ∧
    timers w' =
      <[chatID := with_lectureTimers (seq (S (length (heap w))) (length new))
                    (with_lectureScheduler (length (heap w)) ut)]> (timers w) ∧
    outbox w' = outbox w.
Proof.
  intros Hut. destruct (midnight_run env chatID w ut Hut) as [d Hm].
  match type of Hm with _ = scheduleLectureReminders _ _ ?x => set (w1 := x) in Hm end.
  assert (Hentry : timers w1 !! chatID = Some (with_lectureScheduler (length (heap w)) ut))
    by apply lookup_insert_eq.
  destruct (replan_shape env chatID w1 _ Hentry) as (w' & new & Hrun & Hh & Hnew & Ht & Ho).
  exists w', d, new. split; [by rewrite Hm |].
  split; [exact Hh |]. split; [exact Hnew |]. split; [|exact Ho].
  rewrite Ht. simpl. rewrite insert_insert_eq, length_app. simpl.
  by rewrite Nat.add_1_r.
Qed.

Lemma armed_count_pos p w h t :
  heap w !! h = Some t → t_state t = Armed → p (t_callback t) = true →
  1 ≤ armed_count p w.
Proof.
  intros Hl Ha Hp. unfold armed_count, count_armed.
  assert (Hin : In t (List.filter (λ t, is_armed t && p (t_callback t)) (heap w))).
  { apply List.filter_In. split.
    - apply list_elem_of_In. by apply (list_elem_of_lookup_2 _ h).
    - unfold is_armed. rewrite bool_decide_eq_true_2 by exact Ha. by rewrite Hp. }
  destruct (List.filter _ (heap w)); [destruct Hin | simpl; lia].
Qed.

(** X15: the midnight re-planner recurs by chaining.  When the midnight
    timer of an identity fires in a state without leaked timers, its
    closure returns without a panic and without sending anything; the
    entry then holds a new armed midnight timer, the only armed one of the
    identity, and the same daily and weekly timers as before; no timer is
    leaked. *)
Theorem midnight_timer_recurs (env : Env) (chatID : Z) (h : handle) (t : Timer)
    (w : World) :
  no_leak w →
  heap w !! h = Some t → t_state t = Armed → t_callback t = MidnightCb chatID →
  ∃ w' ut ut' h' d,
    fire env h w = Some (Some w') ∧
    timers w !! chatID = Some ut ∧ lectureScheduler ut = Some h ∧
    timers w' !! chatID = Some ut' ∧ lectureScheduler ut' = Some h' ∧
    h' ≠ h ∧
    heap w' !! h' = Some (armed_timer d (MidnightCb chatID)) ∧
    armed_count (is_midnight_of chatID) w' = 1 ∧
    dailyTimer ut' = dailyTimer ut ∧ weeklyTimer ut' = weeklyTimer ut ∧
    outbox w' = outbox w ∧
    no_leak w'.
Proof.
  intros Hnl Hl Ha Hcb.
  pose proof (Hnl h t Hl Ha) as Hr. rewrite Hcb in Hr. destruct Hr as (ut & Hut & Hsched).
  set (wf := set_heap (alter mark_fired h (heap w)) w).
  pose proof (fired_no_leak h w Hnl) as Hnlf. fold wf in Hnlf.
  assert (Hlt : h < length (heap w)) by by apply lookup_lt_Some in Hl.
  assert (Hlenf : length (heap wf) = length (heap w)) by (simpl; apply length_alter).
  destruct (replan_no_leak env chatID wf ut Hut Hnlf) as (w1 & new1 & Hrun1 & Hnl1 & Hh1 & Ht1).
  set (ut1 := with_lectureTimers (seq (length (heap wf)) (length new1)) ut) in *.
  assert (Hentry1 : timers w1 !! chatID = Some ut1) by (rewrite Ht1; apply lookup_insert_eq).
  assert (Hlen1 : length (heap w1) = length (heap w) + length new1).
  { by rewrite Hh1, length_app, stop_list_length, Hlenf. }
  assert (Hfree : ∀ h0 t0, lectureScheduler ut1 = Some h0 → heap w1 !! h0 = Some t0 →
                    t_state t0 ≠ Armed).
  { intros h0 t0 Hh0 Hl0 Ha0. simpl in Hh0. rewrite Hsched in Hh0. injection Hh0 as <-.
    rewrite Hh1 in Hl0.
    rewrite lookup_app_l in Hl0 by (rewrite stop_list_length; lia).
    destruct (stop_list_armed _ _ _ _ Hl0 Ha0) as [Hl1 _].
    simpl in Hl1. rewrite list_lookup_alter_eq, Hl in Hl1. simpl in Hl1.
    injection Hl1 as <-. discriminate Ha0. }
  destruct (midnight_no_leak env chatID w1 ut1 Hentry1 Hfree Hnl1) as (w2 & Hrun2 & Hnl2).
  destruct (midnight_shape env chatID w1 ut1 Hentry1)
    as (w' & d & new2 & Hrun' & Hh' & _ & Ht' & Ho').
  rewrite Hrun2 in Hrun'. injection Hrun' as <-.
  assert (Hnew : heap w2 !! length (heap w1) = Some (armed_timer d (MidnightCb chatID))).
  { rewrite Hh', lookup_app_l by (rewrite stop_list_length, length_app; simpl; lia).
    rewrite stop_list_lookup.
    rewrite lookup_app_r, Nat.sub_diag by lia. simpl.
    rewrite bool_decide_eq_false_2; [done |].
    unfold ut1. simpl. rewrite elem_of_seq, length_alter. lia. }
  exists w2, ut,
    (with_lectureTimers (seq (S (length (heap w1))) (length new2))
       (with_lectureScheduler (length (heap w1)) ut1)),
    (length (heap w1)), d.
  split.
  { rewrite (fire_armed env h t w Hl Ha), Hcb. fold wf. unfold exec. simpl.
    unfold mbind, M_bind. by rewrite Hrun1, Hrun2. }
  split; [exact Hut |]. split; [exact Hsched |].
  split; [rewrite Ht'; apply lookup_insert_eq |].
  split; [reflexivity |]. split; [lia |]. split; [exact Hnew |].
  split.
  { apply Nat.le_antisymm; [by apply no_leak_midnight_le_one |].
    apply (armed_count_pos _ w2 _ _ Hnew); [reflexivity |]. apply is_midnight_of_refl. }
  split; [reflexivity |]. split; [reflexivity |].
  split; [|exact Hnl2].
  rewrite Ho'.
  destruct (replan_shape env chatID wf ut Hut) as (w1' & new1' & Hrun1' & _ & _ & _ & Ho1).
  rewrite Hrun1 in Hrun1'. injection Hrun1' as <-. by rewrite Ho1.
Qed.

(** The midnight timer of chat 7 fires. *)
Example midnight_timer_recurs_witness :
  ∃ w' h',
    fire sample_env 2 sample_scheduled = Some (Some w') ∧
    (timers w' !! 7%Z) ≫= lectureScheduler = Some h' ∧ h' ≠ 2 ∧
    armed_count (is_midnight_of 7) w' = 1 ∧
    no_leak w'.
Proof.
  destruct (midnight_timer_recurs sample_env 7 2
              (armed_timer 48601000000000 (MidnightCb 7)) sample_scheduled
              sample_scheduled_no_leak eq_refl eq_refl eq_refl)
    as (w' & ut & ut' & h' & d & Hfire & _ & _ & Hut' & Hs' & Hne & _ & Hcount & _ & _ & _ & Hnl).
  exists w', h'. split; [exact Hfire |].
  split; [by rewrite Hut' |]. split; [exact Hne |]. split; [exact Hcount | exact Hnl].
Defined.

(** ** Entries hold timers of their own chat *)

Lemma elem_of_handles_of h ut :
  h ∈ handles_of ut ↔
  dailyTimer ut = Some h ∨ weeklyTimer ut = Some h ∨
  lectureScheduler ut = Some h ∨ h ∈ lectureTimers ut.
Proof.
  unfold handles_of. rewrite !elem_of_app.
  destruct (dailyTimer ut), (weeklyTimer ut), (lectureScheduler ut); simpl;
    rewrite ?list_elem_of_singleton, ?elem_of_nil; intuition congruence.
Qed.

Lemma hands_on_refl w : hands_on w w.
Proof.
  split.
  - intros h t Ht. by exists t.
  - intros chatID ut h Hut Hh. left. by exists ut.
Qed.

Lemma hands_on_trans w1 w2 w3 : hands_on w1 w2 → hands_on w2 w3 → hands_on w1 w3.
Proof.
  intros [Hc12 Hh12] [Hc23 Hh23]. split.
  - intros h t Ht. destruct (Hc12 h t Ht) as (t2 & Ht2 & Hcb2).
    destruct (Hc23 h t2 Ht2) as (t3 & Ht3 & Hcb3). exists t3. split; [done | congruence].
  - intros chatID ut3 h Hut3 Hh.
    destruct (Hh23 chatID ut3 h Hut3 Hh) as [(ut2 & Hut2 & Hh2)|Hnew]; [|by right].
    destruct (Hh12 chatID ut2 h Hut2 Hh2) as [Hold|(t2 & Ht2 & Hown)]; [by left |].
    right. destruct (Hc23 h t2 Ht2) as (t3 & Ht3 & Hcb3). exists t3.
    split; [done | congruence].
Qed.

Lemma hands_on_well_held w w' : hands_on w w' → well_held w → well_held w'.
Proof.
  intros [Hc Hh] Hwh chatID ut' h Hut' Hin.
  destruct (Hh chatID ut' h Hut' Hin) as [(ut & Hut & Hin0)|Hnew]; [|exact Hnew].
  destruct (Hwh chatID ut h Hut Hin0) as (t & Ht & Hown).
  destruct (Hc h t Ht) as (t' & Ht' & Hcb). exists t'. split; [done | congruence].
Qed.

Lemma hands_on_same_state w w' :
  heap w' = heap w → timers w' = timers w → hands_on w w'.
Proof.
  intros Hh Ht. split.
  - intros h t Hl. exists t. by rewrite Hh.
  - intros chatID ut h Hut Hin. left. exists ut. by rewrite <- Ht.
Qed.

Lemma stop_list_keeps_callback hs hp h t :
  hp !! h = Some t → ∃ t', stop_list hs hp !! h = Some t' ∧ t_callback t' = t_callback t.
Proof.
  intros Hl. rewrite stop_list_lookup, Hl. simpl. eexists. split; [reflexivity |].
  case_bool_decide; [apply stop_timer_callback | done].
Qed.

Lemma respects_ret {A} (a : A) : respects (mret a).
Proof. intros w a' w' [= <- <-]. apply hands_on_refl. Qed.

Lemma respects_bind {A B} (m : M A) (k : A → M B) :
  respects m → (∀ a, respects (k a)) → respects (m ≫= k).
Proof.
  intros Hm Hk w b w'. unfold mbind, M_bind.
  destruct (m w) as [[a w1]|] eqn:E; [|done]. intros Hkw.
  eapply hands_on_trans; [by eapply Hm | by eapply Hk].
Qed.

Lemma respects_for_each {A} (l : list A) (body : A → M unit) :
  (∀ x, respects (body x)) → respects (for_each l body).
Proof.
  intros Hb. induction l as [|x l IH]; simpl.
  - apply respects_ret.
  - apply respects_bind; [apply Hb | intros _; apply IH].
Qed.

Lemma respects_CancelUser chatID : respects (CancelUser chatID).
Proof.
  intros w a w'. rewrite CancelUser_run. intros [= <- <-]. split.
  - intros h t Hl. rewrite cancelled_heap. by apply stop_list_keeps_callback.
  - intros c ut h Hut Hin. left. exists ut. split; [|done].
    rewrite cancelled_timers in Hut. by apply lookup_delete_Some in Hut as [_ Hut].
Qed.

Lemma respects_install chatID : respects (install_UserTimers chatID).
Proof.
  intros w a w' [= <- <-]. split.
  - intros h t Hl. by exists t.
  - intros c ut h Hut Hin. simpl in Hut.
    destruct (decide (c = chatID)) as [->|Hne].
    + rewrite lookup_insert_eq in Hut. injection Hut as <-.
      by apply elem_of_nil in Hin.
    + rewrite lookup_insert_ne in Hut by done. left. by exists ut.
Qed.

(** A timer of the chat is created and stored in one field of its entry. *)
Lemma hands_on_arm chatID (f : handle → UserTimers → UserTimers) d cb w ut tk :
  timers w !! chatID = Some ut →
  owner cb = chatID →
  (∀ h, h ∈ handles_of (f (length (heap w)) ut) → h = length (heap w) ∨ h ∈ handles_of ut) →
  hands_on w {| heap := heap w ++ [armed_timer d cb];
                timers := <[chatID := f (length (heap w)) ut]> (timers w);
                outbox := outbox w; tick := tk |}.
Proof.
  intros Hut Hown Hf. split.
  - intros h t Hl. exists t. split; [|done]. simpl. by apply lookup_app_l_Some.
  - intros c ut' h Hut' Hin. simpl in Hut'.
    destruct (decide (c = chatID)) as [->|Hne].
    + rewrite lookup_insert_eq in Hut'. injection Hut' as <-.
      destruct (Hf h Hin) as [->|Hold].
      * right. exists (armed_timer d cb). split; [|done]. simpl.
        by rewrite lookup_app_r, Nat.sub_diag by lia.
      * left. by exists ut.
    + rewrite lookup_insert_ne in Hut' by done. left. by exists ut'.
Qed.

Lemma respects_arm_dailyTimer env chatID user : respects (arm_dailyTimer env chatID user).
Proof.
  intros w [] w' Hrun. destruct (timers w !! chatID) as [ut|] eqn:Hut.
  - destruct (arm_dailyTimer_run env chatID user w ut Hut) as [d Hd].
    rewrite Hd in Hrun. injection Hrun as <-.
    apply (hands_on_arm chatID with_dailyTimer); [done | done |].
    intros h. rewrite !elem_of_handles_of. simpl. intuition congruence.
  - revert Hrun. unfold arm_dailyTimer, time_Until, AfterFunc. unfold_M.
    unfold update_UserTimers. simpl. by rewrite Hut.
Qed.

Lemma respects_arm_weeklyTimer env chatID user : respects (arm_weeklyTimer env chatID user).
Proof.
  intros w [] w' Hrun. destruct (timers w !! chatID) as [ut|] eqn:Hut.
  - destruct (arm_weeklyTimer_run env chatID user w ut Hut) as [d Hd].
    rewrite Hd in Hrun. injection Hrun as <-.
    apply (hands_on_arm chatID with_weeklyTimer); [done | done |].
    intros h. rewrite !elem_of_handles_of. simpl. intuition congruence.
  - revert Hrun. unfold arm_weeklyTimer, time_Until, AfterFunc. unfold_M.
    unfold update_UserTimers. simpl. by rewrite Hut.
Qed.

Lemma respects_scheduleLectureReminders env chatID :
  respects (scheduleLectureReminders env chatID).
Proof.
  intros w [] w' Hrun. destruct (timers w !! chatID) as [ut|] eqn:Hut.
  - destruct (replan_shape env chatID w ut Hut) as (w1 & new & Hrun1 & Hh & Hnew & Ht & _).
    rewrite Hrun in Hrun1. injection Hrun1 as <-. split.
    + intros h t Hl. rewrite Hh.
      destruct (stop_list_keeps_callback (lectureTimers ut) _ h t Hl) as (t' & Hl' & Hcb).
      exists t'. split; [|done]. by apply lookup_app_l_Some.
    + intros c ut' h Hut' Hin. rewrite Ht in Hut'.
      destruct (decide (c = chatID)) as [->|Hne].
      * rewrite lookup_insert_eq in Hut'. injection Hut' as <-.
        apply elem_of_handles_of in Hin. simpl in Hin.
        destruct Hin as [Hin|[Hin|[Hin|Hin]]];
          try (left; exists ut; split; [done |]; apply elem_of_handles_of; tauto).
        right. apply elem_of_seq in Hin.
        destruct (lookup_lt_is_Some_2 new (h - length (heap w))) as [t Hl]; [lia |].
        exists t. split.
        -- rewrite Hh, lookup_app_r by (rewrite stop_list_length; lia).
           by rewrite stop_list_length.
        -- rewrite Forall_lookup in Hnew. destruct (Hnew _ t Hl) as [_ Hrem].
           by apply is_reminder_of_owner.
      * rewrite lookup_insert_ne in Hut' by done. left. by exists ut'.
  - destruct (replan_no_entry env chatID w w' Hut Hrun) as (Hh & Ht & _).
    by apply hands_on_same_state.
Qed.

Lemma respects_midnight env chatID :
  respects (scheduleLectureRemindersAtMidnight env chatID).
Proof.
  intros w [] w' Hrun. destruct (timers w !! chatID) as [ut|] eqn:Hut.
  - destruct (midnight_run env chatID w ut Hut) as [d Hm]. rewrite Hm in Hrun.
    eapply hands_on_trans; [|by eapply respects_scheduleLectureReminders].
    apply (hands_on_arm chatID with_lectureScheduler); [done | done |].
    intros h. rewrite !elem_of_handles_of. simpl. intuition congruence.
  - by rewrite (midnight_no_entry env chatID w Hut) in Hrun.
Qed.

Lemma respects_run_phases phases : Forall respects phases → respects (run_phases phases).
Proof.
  unfold run_phases. induction 1 as [|phase phases Hp _ IH]; simpl.
  - apply respects_ret.
  - apply respects_bind; [exact Hp | intros _; exact IH].
Qed.

Lemma respects_ScheduleUser env chatID : respects (ScheduleUser env chatID).
Proof.
  intros w a w'. unfold ScheduleUser, mbind, M_bind.
  destruct (lookup_readable_or_not env chatID (tick w)) as [[user Hu]|Hr].
  - rewrite (ScheduleUser_lookup_readable env chatID w user Hu). intros Hrun.
    apply (hands_on_trans _ (next_tick w)); [by apply hands_on_same_state |].
    revert Hrun. apply respects_run_phases. unfold ScheduleUser_phases.
    apply Forall_cons_2; [apply respects_CancelUser |].
    apply Forall_cons_2; [apply respects_install |].
    apply Forall_cons_2; [apply respects_arm_dailyTimer |].
    apply Forall_cons_2; [apply respects_arm_weeklyTimer |].
    apply Forall_cons_2; [apply respects_midnight |].
    apply Forall_nil_2.
  - rewrite (ScheduleUser_lookup_unreadable env chatID w Hr).
    intros [= <- <-]. by apply hands_on_same_state.
Qed.

Lemma respects_only_sends {A} chatID (m : M A) :
  (∀ w, ∃ w' text a, m w = Some (a, w') ∧ heap w' = heap w ∧ timers w' = timers w ∧
          outbox w' = outbox w ++ [(chatID, text)]) →
  respects m.
Proof.
  intros Hm w a w' Hrun. destruct (Hm w) as (w1 & text & a1 & Hr & Hh & Ht & _).
  rewrite Hr in Hrun. injection Hrun as <- <-. by apply hands_on_same_state.
Qed.

Lemma respects_run_callback env f : respects (run_callback env f).
Proof.
  destruct f; simpl.
  - apply respects_bind; [|intros _; apply respects_ScheduleUser].
    apply (respects_only_sends chatID). intros w.
    destruct (sendDailyTimetable_only_sends env chatID w) as (w' & text & H).
    by exists w', text, tt.
  - apply respects_bind; [|intros _; apply respects_ScheduleUser].
    apply (respects_only_sends chatID). intros w.
    destruct (sendWeeklyTimetable_only_sends env chatID w) as (w' & text & H).
    by exists w', text, tt.
  - apply respects_bind; [apply respects_scheduleLectureReminders |].
    intros _. apply respects_midnight.
  - intros w a w' [= <- <-]. by apply hands_on_same_state.
Qed.

Lemma exec_respects {A} (m : M A) w w' : respects m → exec m w = Some w' → hands_on w w'.
Proof.
  intros Hm. unfold exec. destruct (m w) as [[a w1]|] eqn:E; [|done].
  intros [= <-]. by eapply Hm.
Qed.

Lemma run_op_hands_on env o w w' : run_op env o w = Some (Some w') → hands_on w w'.
Proof.
  destruct o as [|chatID|chatID| |h]; simpl.
  - intros [= Hrun]. revert Hrun. apply exec_respects.
    unfold ScheduleAll. apply respects_bind.
    + intros w0 a w1 [= <- <-]. by apply hands_on_same_state.
    + intros users. apply respects_for_each. intros user. apply respects_ScheduleUser.
  - intros [= Hrun]. revert Hrun. apply exec_respects, respects_ScheduleUser.
  - intros [= Hrun]. revert Hrun. apply exec_respects, respects_CancelUser.
  - intros [= Hrun]. revert Hrun. apply exec_respects.
    unfold StopAll, StopAll_in_order. apply respects_bind.
    + intros w0 a w1 [= <- <-]. apply hands_on_refl.
    + intros w0. apply respects_for_each. intros k. apply respects_CancelUser.
  - unfold fire. destruct (heap w !! h) as [t|] eqn:Hl; [|done].
    destruct (is_armed t); [|done]. intros [= Hrun].
    apply (hands_on_trans _ (set_heap (alter mark_fired h (heap w)) w)).
    + split.
      * intros h' t' Hl'. simpl.
        destruct (decide (h' = h)) as [->|Hne].
        -- rewrite list_lookup_alter_eq, Hl'. simpl. by eexists.
        -- rewrite list_lookup_alter_ne by done. by exists t'.
      * intros c ut h' Hut Hin. left. by exists ut.
    + revert Hrun. apply exec_respects, respects_run_callback.
Qed.

Lemma NewScheduler_well_held : well_held NewScheduler.
Proof. intros chatID ut h Hut. simpl in Hut. by rewrite lookup_empty in Hut. Qed.

Lemma reachable_well_held env w : reachable env w → well_held w.
Proof.
  induction 1 as [|o w w' Hreach IH Hop]; [apply NewScheduler_well_held |].
  apply (hands_on_well_held w); [|exact IH]. by apply (run_op_hands_on env o).
Qed.

(** X16: in every state a sequential run reaches, every handle an entry
    holds is that of a timer created for the chat of the entry; so no timer
    is held by the entries of two chats. *)
Theorem reachable_entries_hold_own_timers (env : Env) (w : World) :
  reachable env w →
  (∀ chatID ut h, timers w !! chatID = Some ut → h ∈ handles_of ut →
     ∃ t, heap w !! h = Some t ∧ owner (t_callback t) = chatID) ∧
  (∀ c1 c2 ut1 ut2 h, timers w !! c1 = Some ut1 → timers w !! c2 = Some ut2 →
     h ∈ handles_of ut1 → h ∈ handles_of ut2 → c1 = c2).
Proof.
  intros Hwh%reachable_well_held. split; [exact Hwh |].
  intros c1 c2 ut1 ut2 h Hut1 Hut2 Hh1 Hh2.
  destruct (Hwh c1 ut1 h Hut1 Hh1) as (t1 & Ht1 & Ho1).
  destruct (Hwh c2 ut2 h Hut2 Hh2) as (t2 & Ht2 & Ho2).
  congruence.
Qed.

(** The second reminder of chat 7, held as handle 4. *)
Example reachable_entries_hold_own_timers_witness :
  ∃ t, heap sample_scheduled !! 4 = Some t ∧ owner (t_callback t) = 7%Z.
Proof.
  destruct (reachable_entries_hold_own_timers sample_env sample_scheduled
              sample_scheduled_reachable) as [Hown _].
  apply (Hown 7%Z {| dailyTimer := Some 0; weeklyTimer := Some 1;
                     lectureTimers := [3; 4]; lectureScheduler := Some 2 |} 4).
  - reflexivity.
  - unfold handles_of. simpl. repeat constructor.
Defined.

(** ** Operations on one chat leave the timers of the others alone *)

Lemma filter_length_pointwise {A} (f : A → bool) (l1 l2 : list A) :
  length l1 = length l2 →
  (∀ i x y, l1 !! i = Some x → l2 !! i = Some y → f x = f y) →
  length (List.filter f l1) = length (List.filter f l2).
Proof.
  revert l2. induction l1 as [|a l1 IH]; intros [|b l2] Hlen H; simpl in *; try done.
  rewrite (H 0 a b eq_refl eq_refl).
  assert (IH' : length (List.filter f l1) = length (List.filter f l2)).
  { apply IH; [lia |]. intros i x y Hx Hy. exact (H (S i) x y Hx Hy). }
  destruct (f b); simpl; by rewrite IH'.
Qed.

Lemma stop_list_count_same p hs hp :
  (∀ h t, h ∈ hs → hp !! h = Some t → t_state t = Armed → p (t_callback t) = false) →
  count_armed p (stop_list hs hp) = count_armed p hp.
Proof.
  intros H. apply filter_length_pointwise; [apply stop_list_length |].
  intros i x y Hx Hy. rewrite stop_list_lookup, Hy in Hx. simpl in Hx.
  injection Hx as <-. case_bool_decide as Hin; [|done].
  unfold is_armed. rewrite (bool_decide_eq_false_2 _ (stop_timer_not_armed y)). simpl.
  case_bool_decide as Ha; simpl; [|done]. symmetry. by apply (H i y).
Qed.

Lemma touches_only_lookup chatID w w' h t :
  touches_only chatID w w' →
  heap w !! h = Some t → owner (t_callback t) ≠ chatID → heap w' !! h = Some t.
Proof.
  intros (hs & rest & Hh & Hhs & _) Hl Hown. rewrite Hh.
  apply lookup_app_l_Some. rewrite stop_list_lookup, Hl. simpl.
  rewrite bool_decide_eq_false_2; [done |]. intros Hin. by apply Hown, (Hhs h t).
Qed.

Lemma touches_only_new chatID w w' h t :
  touches_only chatID w w' →
  heap w' !! h = Some t → length (heap w) ≤ h → owner (t_callback t) = chatID.
Proof.
  intros (hs & rest & Hh & _ & Hrest) Hl Hge. rewrite Hh in Hl.
  rewrite lookup_app_r in Hl by (rewrite stop_list_length; lia).
  rewrite Forall_lookup in Hrest. by apply (Hrest _ t Hl).
Qed.

Lemma touches_only_count chatID p w w' :
  (∀ f, p f = true → owner f ≠ chatID) →
  touches_only chatID w w' → armed_count p w' = armed_count p w.
Proof.
  intros Hp (hs & rest & Hh & Hhs & Hrest). unfold armed_count.
  rewrite Hh, count_armed_app.
  rewrite (count_armed_zero p rest).
  - rewrite stop_list_count_same; [lia |].
    intros h t Hin Hl _. destruct (p (t_callback t)) eqn:Hpt; [|done].
    by destruct (Hp _ Hpt (Hhs h t Hin Hl)).
  - intros h t Hl _. destruct (p (t_callback t)) eqn:Hpt; [|done].
    rewrite Forall_lookup in Hrest. by destruct (Hp _ Hpt (Hrest h t Hl)).
Qed.

Lemma cancelled_touches_only chatID w :
  well_held w → touches_only chatID w (cancelled chatID w).
Proof.
  intros Hwh. exists (from_option handles_of [] (timers w !! chatID)), [].
  split; [by rewrite app_nil_r, cancelled_heap |]. split; [|constructor].
  intros h t Hin Hl. destruct (timers w !! chatID) as [ut|] eqn:Hut; simpl in Hin.
  - destruct (Hwh chatID ut h Hut Hin) as (t' & Hl' & Hown). congruence.
  - by apply elem_of_nil in Hin.
Qed.

Lemma ScheduleUser_touches_only env chatID w :
  well_held w →
  ∃ w', ScheduleUser env chatID w = Some (tt, w') ∧ touches_only chatID w w'.
Proof.
  intros Hwh.
  destruct (lookup_readable_or_not env chatID (tick w)) as [[user Hu]|Hr].
  - destruct (ScheduleUser_readable_shape env chatID user w Hu)
      as (w' & Hrun & d1 & d2 & d3 & new & Hh & Hnew & _ & _).
    exists w'. split; [exact Hrun |].
    destruct (cancelled_touches_only chatID w Hwh) as (hs & rest & Hc & Hhs & _).
    exists hs, ([armed_timer d1 (DailyCb chatID); armed_timer d2 (WeeklyCb chatID);
                 armed_timer d3 (MidnightCb chatID)] ++ new).
    split; [|split; [exact Hhs |]].
    + rewrite Hh, Hc. destruct rest; [by rewrite app_nil_r |].
      apply (f_equal length) in Hc.
      rewrite cancelled_heap, length_app, !stop_list_length in Hc. simpl in Hc. lia.
    + repeat (apply Forall_cons_2; [reflexivity |]).
      eapply Forall_impl; [exact Hnew |]. intros t [_ Hrem]. by apply is_reminder_of_owner.
  - exists (next_tick w). split; [by apply ScheduleUser_unreadable_noop_aux |].
    exists [], []. split; [by rewrite app_nil_r |]. split; [|constructor].
    intros h t Hin. by apply elem_of_nil in Hin.
Qed.

(** X17: in a state where entries hold timers of their own chat,
    CancelUser for one identity leaves every other identity alone: the
    entries of the others are as before, and every timer created for
    another chat is as before, armed ones still armed. *)
Theorem CancelUser_leaves_others (chatID : Z) (w : World) :
  well_held w →
  ∃ w', CancelUser chatID w = Some (tt, w') ∧
    (∀ c, c ≠ chatID → timers w' !! c = timers w !! c) ∧
    (∀ h t, heap w !! h = Some t → owner (t_callback t) ≠ chatID →
       heap w' !! h = Some t) ∧
    (∀ c, c ≠ chatID → armed_count (is_owned_by c) w' = armed_count (is_owned_by c) w).
Proof.
  intros Hwh. exists (cancelled chatID w). split; [apply CancelUser_run |].
  pose proof (cancelled_touches_only chatID w Hwh) as Htouch.
  split; [|split].
  - intros c Hc. rewrite cancelled_timers. by apply lookup_delete_ne.
  - intros h t. by apply touches_only_lookup.
  - intros c Hc. apply (touches_only_count chatID); [|exact Htouch].
    intros f Hf. unfold is_owned_by in Hf. apply bool_decide_eq_true_1 in Hf. congruence.
Qed.

Lemma sample_all_reachable : reachable sample_env sample_all.
Proof.
  apply (reachable_op sample_env OpScheduleAll NewScheduler); [apply reachable_new |].
  vm_compute. reflexivity.
Qed.

(** Chat 7 is cancelled; the three timers of chat 8 stay armed. *)
Example CancelUser_leaves_others_witness :
  ∃ w', CancelUser 7 sample_all = Some (tt, w') ∧
    timers w' !! 8%Z = timers sample_all !! 8%Z ∧
    armed_count (is_owned_by 8) w' = 3.
Proof.
  destruct (CancelUser_leaves_others 7 sample_all
              (reachable_well_held sample_env sample_all sample_all_reachable))
    as (w' & Hrun & Hf & _ & Hc).
  exists w'. split; [exact Hrun |]. split; [apply Hf; discriminate |].
  rewrite (Hc 8%Z) by discriminate. vm_compute. reflexivity.
Defined.

(** X18: in such a state ScheduleUser for one identity, readable or not,
    returns and leaves every other identity alone: the entries of the
    others and every timer created for another chat are as before, and
    every timer it creates is a timer of its own identity. *)
Theorem ScheduleUser_leaves_others (env : Env) (chatID : Z) (w : World) :
  well_held w →
  ∃ w', ScheduleUser env chatID w = Some (tt, w') ∧
    (∀ c, c ≠ chatID → timers w' !! c = timers w !! c) ∧
    (∀ h t, heap w !! h = Some t → owner (t_callback t) ≠ chatID →
       heap w' !! h = Some t) ∧
    (∀ h t, heap w' !! h = Some t → length (heap w) ≤ h →
       owner (t_callback t) = chatID) ∧
    (∀ c, c ≠ chatID → armed_count (is_owned_by c) w' = armed_count (is_owned_by c) w).
Proof.
  intros Hwh.
  destruct (ScheduleUser_touches_only env chatID w Hwh) as (w' & Hrun & Htouch).
  destruct (ScheduleUser_frame env chatID w) as (w1 & Hrun1 & _ & Hf & _).
  rewrite Hrun in Hrun1. injection Hrun1 as <-.
  exists w'. split; [exact Hrun |]. split; [exact Hf |].
  split; [intros h t; by apply touches_only_lookup |].
  split; [intros h t; by apply touches_only_new |].
  intros c Hc. apply (touches_only_count chatID); [|exact Htouch].
  intros f Hown. unfold is_owned_by in Hown. apply bool_decide_eq_true_1 in Hown. congruence.
Qed.

(** Chat 7 is scheduled again; the three timers of chat 8 stay armed. *)
Example ScheduleUser_leaves_others_witness :
  ∃ w', ScheduleUser sample_env 7 sample_all = Some (tt, w') ∧
    timers w' !! 8%Z = timers sample_all !! 8%Z ∧
    armed_count (is_owned_by 8) w' = 3.
Proof.
  destruct (ScheduleUser_leaves_others sample_env 7 sample_all
              (reachable_well_held sample_env sample_all sample_all_reachable))
    as (w' & Hrun & Hf & _ & _ & Hc).
  exists w'. split; [exact Hrun |]. split; [apply Hf; discriminate |].
  rewrite (Hc 8%Z) by discriminate. vm_compute. reflexivity.
Defined.

(** ** ScheduleAll schedules every readable user *)

Lemma ScheduleUser_fully_schedules env chatID w :
  no_leak w → well_held w →
  ∃ w', ScheduleUser env chatID w = Some (tt, w') ∧ no_leak w' ∧ well_held w' ∧
    (stays_readable env chatID → fully_scheduled chatID w') ∧
    (∀ c, c ≠ chatID → fully_scheduled c w → fully_scheduled c w').
Proof.
  intros Hnl Hwh.
  destruct (ScheduleUser_touches_only env chatID w Hwh) as (w' & Hrun & Htouch).
  destruct (ScheduleUser_frame env chatID w) as (w1 & Hrun1 & _ & Hf & Hnl').
  rewrite Hrun in Hrun1. injection Hrun1 as <-.
  exists w'. split; [exact Hrun |]. split; [by apply Hnl' |].
  split.
  { apply (hands_on_well_held w); [|exact Hwh].
    exact (respects_ScheduleUser env chatID w tt w' Hrun). }
  split.
  - intros [user Hu].
    destruct (ScheduleUser_readable_shape env chatID user w (Hu _)) as (w1 & Hrun1 & Hshape).
    rewrite Hrun in Hrun1. injection Hrun1 as <-.
    destruct (scheduled_shape_counts chatID w w' Hnl Hshape) as [Hd Hw].
    pose proof (scheduled_shape_midnight_count chatID w w' Hnl Hshape) as Hm.
    split; [|done].
    destruct Hshape as (_ & _ & _ & new & _ & _ & Ht & _).
    rewrite Ht, lookup_insert_eq. by eexists.
  - intros c Hc (Hentry & Hd & Hw & Hm).
    split; [by rewrite Hf |].
    rewrite !(touches_only_count chatID _ w w'); try done.
    + intros f Hp%is_midnight_of_owner. congruence.
    + intros f Hp%is_weekly_of_owner. congruence.
    + intros f Hp%is_daily_of_owner. congruence.
Qed.

Lemma for_each_ScheduleUser_schedules env users w :
  no_leak w → well_held w →
  ∃ w', for_each users (λ user, ScheduleUser env (ChatID user)) w = Some (tt, w') ∧
    ∀ c, stays_readable env c →
      c ∈ ChatID <$> users ∨ fully_scheduled c w → fully_scheduled c w'.
Proof.
  revert w. induction users as [|user users IH]; intros w Hnl Hwh.
  - exists w. split; [done |]. intros c _ [Hin|Hs]; [|done].
    by apply elem_of_nil in Hin.
  - destruct (ScheduleUser_fully_schedules env (ChatID user) w Hnl Hwh)
      as (w1 & Hrun & Hnl1 & Hwh1 & Hnew & Hkeep).
    destruct (IH w1 Hnl1 Hwh1) as (w' & Hrun' & Hall).
    exists w'. split.
    { simpl. unfold mbind, M_bind. by rewrite Hrun. }
    intros c Hc Hcase. apply Hall; [exact Hc |].
    destruct (decide (c = ChatID user)) as [->|Hne]; [right; by apply Hnew |].
    destruct Hcase as [Hin|Hs].
    + left. rewrite fmap_cons in Hin. by apply elem_of_cons in Hin as [?|?].
    + right. by apply Hkeep.
Qed.

(** X19: ScheduleAll schedules every user of the directory whose record
    stays readable, whatever happens with the other users of the list: in
    a state without leaked timers whose entries hold timers of their own
    chat, it returns, and then each such user has an entry and exactly one
    armed daily, one armed weekly and one armed midnight timer. *)
Theorem ScheduleAll_schedules_readable_users (env : Env) (w : World) :
  no_leak w → well_held w →
  ∃ w', ScheduleAll env w = Some (tt, w') ∧
    ∀ user, user ∈ db_GetAllUsers env (tick w) →
      stays_readable env (ChatID user) →
      is_Some (timers w' !! ChatID user) ∧
      armed_count (is_daily_of (ChatID user)) w' = 1 ∧
      armed_count (is_weekly_of (ChatID user)) w' = 1 ∧
      armed_count (is_midnight_of (ChatID user)) w' = 1.
Proof.
  intros Hnl Hwh.
  destruct (for_each_ScheduleUser_schedules env (db_GetAllUsers env (tick w)) (next_tick w))
    as (w' & Hrun & Hall).
  - by apply next_tick_no_leak.
  - exact Hwh.
  - exists w'. split; [exact Hrun |].
    intros user Hin Hread. apply Hall; [exact Hread |].
    left. apply list_elem_of_fmap. by exists user.
Qed.

(** Alice and Bob on a new scheduler. *)
Example ScheduleAll_schedules_readable_users_witness :
  ∃ w', ScheduleAll sample_env NewScheduler = Some (tt, w') ∧
    armed_count (is_daily_of 7) w' = 1 ∧ armed_count (is_daily_of 8) w' = 1.
Proof.
  destruct (ScheduleAll_schedules_readable_users sample_env NewScheduler
              NewScheduler_no_leak NewScheduler_well_held) as (w' & Hrun & Hall).
  exists w'. split; [exact Hrun |]. split.
  - destruct (Hall alice) as (_ & Hd & _).
    + simpl. apply elem_of_cons. by left.
    + exists alice. intros n. reflexivity.
    + exact Hd.
  - destruct (Hall bob) as (_ & Hd & _).
    + simpl. apply elem_of_cons. right. apply elem_of_cons. by left.
    + exists bob. intros n. reflexivity.
    + exact Hd.
Defined.

(** ** Scheduling, then cancelling *)

(** X20: ScheduleUser followed by CancelUser for an identity that had no
    entry, readable or not, gives back the map as it was; the timers that
    existed before are untouched, every timer created in between is no
    longer armed, and nothing is sent. *)
Theorem schedule_then_cancel (env : Env) (chatID : Z) (w : World) :
  timers w !! chatID = None →
  ∃ w1 w2,
    ScheduleUser env chatID w = Some (tt, w1) ∧
    CancelUser chatID w1 = Some (tt, w2) ∧
    timers w2 = timers w ∧
    (∀ h t, heap w !! h = Some t → heap w2 !! h = Some t) ∧
    (∀ h t, heap w2 !! h = Some t → length (heap w) ≤ h → t_state t ≠ Armed) ∧
    outbox w2 = outbox w.
Proof.
  intros Hnone.
  assert (Hc : cancelled chatID w = w) by (unfold cancelled; by rewrite Hnone).
  destruct (lookup_readable_or_not env chatID (tick w)) as [[user Hu]|Hr].
  - destruct (ScheduleUser_readable_shape env chatID user w Hu)
      as (w1 & Hrun & d1 & d2 & d3 & new & Hh & Hnew & Ht & Ho).
    rewrite Hc in Hh.
    assert (Hentry : timers w1 !! chatID =
              Some (fresh_UserTimers (length (heap w)) (length new)))
      by (rewrite Ht; apply lookup_insert_eq).
    assert (Hheap2 : heap (cancelled chatID w1) =
              stop_list (handles_of (fresh_UserTimers (length (heap w)) (length new)))
                (heap w1)) by (by rewrite cancelled_heap, Hentry).
    assert (Hhandles : ∀ h, h ∈ handles_of (fresh_UserTimers (length (heap w)) (length new))
                         ↔ length (heap w) ≤ h < length (heap w1)).
    { intros h. unfold handles_of, fresh_UserTimers. simpl.
      rewrite Hh, !length_app. simpl.
      rewrite !elem_of_cons, elem_of_seq. lia. }
    exists w1, (cancelled chatID w1).
    split; [exact Hrun |]. split; [apply CancelUser_run |].
    split; [rewrite cancelled_timers, Ht; by apply delete_insert_id |].
    split; [|split].
    + intros h t Hl. rewrite Hheap2, stop_list_lookup.
      rewrite bool_decide_eq_false_2.
      * rewrite Hh.
        by rewrite (lookup_app_l_Some (heap w) _ h t Hl).
      * rewrite Hhandles. apply lookup_lt_Some in Hl. lia.
    + intros h t Hl Hge. rewrite Hheap2 in Hl.
      eapply stop_list_not_armed; [|exact Hl].
      apply Hhandles. apply lookup_lt_Some in Hl. rewrite stop_list_length in Hl. lia.
    + by rewrite cancelled_outbox.
  - exists (next_tick w), (next_tick w).
    split; [by apply ScheduleUser_unreadable_noop_aux |].
    split.
    { rewrite CancelUser_run. unfold cancelled. simpl. by rewrite Hnone. }
    split; [done |]. split; [done |]. split; [|done].
    intros h t Hl Hge. apply lookup_lt_Some in Hl. simpl in Hl. lia.
Qed.

(** Chat 8 is scheduled next to chat 7, and cancelled. *)
Example schedule_then_cancel_witness :
  ∃ w1 w2,
    ScheduleUser sample_env 8 sample_scheduled = Some (tt, w1) ∧
    CancelUser 8 w1 = Some (tt, w2) ∧
    timers w2 = timers sample_scheduled ∧
    (∀ h t, heap sample_scheduled !! h = Some t → heap w2 !! h = Some t).
Proof.
  destruct (schedule_then_cancel sample_env 8 sample_scheduled eq_refl)
    as (w1 & w2 & Hrun & Hcancel & Ht & Hold & _).
  exists w1, w2. split; [exact Hrun |]. split; [exact Hcancel |].
  split; [exact Ht | exact Hold].
Defined.

(** ** The default lead time *)

(** X21: when the configured lead time does not parse as an integer, the
    replan uses 15 minutes: it arms one reminder, announcing 15 minutes,
    for each lecture that starts more than 15 minutes after the clock
    reading of line 120, and no other. *)
Theorem replan_default_lead (env : Env) (chatID : Z) (w : World)
    (ut : UserTimers) (user : User) (cal : Calendar env) (lectures : list Lecture) :
  timers w !! chatID = Some ut →
  (db_GetUser env (tick w) chatID).1 = Some user →
  WebCalURL user ≠ "" →
  timetable_FetchCalendar env (S (tick w)) (WebCalURL user) = Ok cal →
  timetable_GetLectures env (S (S (S (tick w)))) cal (time_Now env (S (S (tick w))))
    = Ok lectures →
  Atoi (ReminderOffset user) = None →
  let now := time_Now env (S (S (S (S (tick w))))) in
  ∃ w' new,
    scheduleLectureReminders env chatID w = Some (tt, w') ∧
    heap w' = stop_list (lectureTimers ut) (heap w) ++ new ∧
    Forall (λ t, t_state t = Armed) new ∧
    map t_callback new =
      map (λ lecture, ReminderCb chatID lecture 15)
        (List.filter (λ lecture, bool_decide (now + 15 * Minute < Start lecture)%Z)
           lectures).
Proof.
  intros Hut Hu Hurl Hf Hl Hparse now.
  pose proof (lectures_cleared_entry chatID w ut Hut) as Hc.
  destruct (decide (lectures = [])) as [->|Hne].
  - destruct (replan_stops_run env chatID w) as [k Hk].
    { right. exists user. split; [exact Hu |]. split; [exact Hurl |].
      right. exists cal. split; [exact Hf |]. by right. }
    destruct (iter_next_tick_fields k (lectures_cleared chatID w)) as (Hh & _ & _).
    exists (Nat.iter k next_tick (lectures_cleared chatID w)), [].
    split; [exact Hk |]. rewrite Hh, Hc. simpl. rewrite app_nil_r.
    repeat split; constructor.
  - rewrite (replan_fetched_run env chatID w user cal lectures Hu Hurl Hf Hl Hne).
    cbv zeta. rewrite Hparse. simpl default. fold now.
    set (new := reminder_timers env chatID 15 now _ lectures).
    rewrite (update_UserTimers_run _ _ _ (with_lectureTimers [] ut)).
    2:{ simpl. rewrite Hc. simpl. apply lookup_insert_eq. }
    eexists _, new. split; [reflexivity |]. simpl. rewrite Hc. simpl.
    split; [reflexivity |].
    split; [apply reminder_timers_armed |].
    unfold new. rewrite reminder_timers_callbacks. f_equal.
    apply List.filter_ext. intros lecture.
    unfold Time_After. rewrite reminderTime_of_exact by (vm_compute; split; discriminate).
    apply bool_decide_ext. lia.
Qed.

(** At 10:50 with the lead "soon": only the lecture of 14:00 gets a
    reminder, the one of 11:00 starts in less than 15 minutes. *)
Example replan_default_lead_witness :
  ∃ w' new,
    scheduleLectureReminders carol_env 7 sample_scheduled = Some (tt, w') ∧
    map t_callback new = [ReminderCb 7 (lecture_at "Compilers" 14) 15] ∧
    heap w' = stop_list [3; 4] (heap sample_scheduled) ++ new.
Proof.
  destruct (replan_default_lead carol_env 7 sample_scheduled
              {| dailyTimer := Some 0; weeklyTimer := Some 1;
                 lectureTimers := [3; 4]; lectureScheduler := Some 2 |}
              carol tt sample_lectures)
    as (w' & new & Hrun & Hh & _ & Hcb).
  - reflexivity.
  - reflexivity.
  - discriminate.
  - reflexivity.
  - reflexivity.
  - reflexivity.
  - exists w', new. split; [exact Hrun |]. split; [exact Hcb | exact Hh].
Defined.
